(** * Ranking objectives of LightGBM: [src/objective/rank_objective.hpp]

    A shallow embedding of the two ranking objectives, [LambdarankNDCG]
    (pairwise, with the optional position-bias correction) and [RankXENDCG]
    (listwise), followed by the properties established about them.

    - [double] is the kernel's binary64 type [float]; every arithmetic
      operator of the source is the IEEE operation of [PrimFloat].
    - [std::vector<T>] and the raw arrays are lists, read and written through
      [rd] and [wr]; an access outside the vector is the fault
      [OutOfBounds], which names the vector.
    - [Log::Fatal] is the fault [Fatal], with the message of the source.
    - Everything the file calls but does not define (the C math library,
      [DCGCalculator], [Common], the types of [meta.h], OpenMP) is a field of
      one of the interfaces [Libm], [Meta], [Dcg], [Common], [OpenMP]. *)

From stdpp Require Import base list strings.
From Stdlib Require Import ZArith Lia Floats FunctionalExtensionality.

Open Scope Z_scope.

(** ** IEEE helpers *)

Module Ieee.

(** Conversion of a [double] to an integer type ([static_cast<int>],
    [static_cast<size_t>]): the fractional part is discarded; a NaN or an
    infinity has no image (the conversion is undefined in C++). *)
Definition trunc (x : float) : option Z :=
  match Prim2SF x with
  | S754_zero _ => Some 0
  | S754_finite s m e =>
      Some (cond_Zopp s match e with
                        | Zneg k => Z.shiftr (Zpos m) (Zpos k)
                        | _ => Z.shiftl (Zpos m) e
                        end)
  | S754_infinity _ | S754_nan => None
  end.

(** Conversion of an integer to [double], rounding to nearest even. *)
Definition of_Z (z : Z) : float :=
  SF2Prim (binary_normalize prec emax z 0 false).

(** Rounding of a [double] to the nearest single-precision value, kept as
    the [double] that represents it exactly ([static_cast<float>]). *)
Definition round32 (x : spec_float) : spec_float :=
  match x with
  | S754_finite s m e => binary_normalize 24 128 (cond_Zopp s (Zpos m)) e s
  | _ => x
  end.

Definition to_binary32 (x : float) : float := SF2Prim (round32 (Prim2SF x)).

(** [x != y] of C++: true as soon as one side is a NaN. *)
Definition neqb (x y : float) : bool := negb (x =? y)%float.

(** [std::max<double>(a, b)]: [(a < b) ? b : a]. *)
Definition max (a b : float) : float := if (a <? b)%float then b else a.

(** Neither a NaN nor an infinity, read off the representation. *)
Definition finite (x : float) : bool :=
  match Prim2SF x with
  | S754_zero _ | S754_finite _ _ _ => true
  | S754_infinity _ | S754_nan => false
  end.

End Ieee.

(** ** Faults and fallible computations *)

(** The vectors and arrays of the source, by name. *)
Inductive vec : Set :=
  | v_sorted_idx | v_score | v_label | v_lambdas | v_hessians
  | v_gradients | v_weights | v_query_boundaries
  | v_inverse_max_dcgs | v_label_gain | v_sigmoid_table
  | v_i_biases_pow | v_j_biases_pow | v_i_costs | v_j_costs
  | v_i_costs_buffer | v_j_costs_buffer
  | v_rands | v_rho | v_params.

Inductive fault : Type :=
  | OutOfBounds (v : vec) (i : Z)   (* v[i] with i outside the vector *)
  | Fatal (msg : string)            (* Log::Fatal *)
  | BadCast (x : float)             (* conversion of a NaN or infinity to an integer *)
  | LengthError (n : Z)             (* a vector of negative size *)
  | NullPointer (v : vec).          (* v[i] with v == nullptr *)

Inductive result (A : Type) : Type :=
  | Ok (a : A)
  | Fault (f : fault).
Arguments Ok {A} a.
Arguments Fault {A} f.

#[global] Instance result_ret : MRet result := @Ok.
#[global] Instance result_bind : MBind result :=
  fun A B k r => match r with Ok a => k a | Fault f => Fault f end.

(** The element at distance [i >= 0] from the head; the index stays a
    binary number. *)
Fixpoint item {A} (l : list A) (i : Z) : option A :=
  match l with
  | [] => None
  | x :: l => if i =? 0 then Some x else item l (i - 1)
  end.

(** [v[i]], read. *)
Definition rd {A} (v : vec) (l : list A) (i : Z) : result A :=
  if i <? 0 then Fault (OutOfBounds v i)
  else match item l i with
       | Some x => Ok x
       | None => Fault (OutOfBounds v i)
       end.

(** [v[i] = x]. *)
Definition wr {A} (v : vec) (l : list A) (i : Z) (x : A) : result (list A) :=
  if i <? 0 then Fault (OutOfBounds v i)
  else if (Z.to_nat i <? length l)%nat then Ok (<[Z.to_nat i := x]> l)
  else Fault (OutOfBounds v i).

(** [std::vector<T>(n, x)]. *)
Definition vector {A} (n : Z) (x : A) : result (list A) :=
  if n <? 0 then Fault (LengthError n) else Ok (replicate (Z.to_nat n) x).

(** [v.resize(n)], the new elements being [x]. *)
Definition resize {A} (n : Z) (x : A) (l : list A) : result (list A) :=
  if n <? 0 then Fault (LengthError n)
  else Ok (take (Z.to_nat n) l ++ replicate (Z.to_nat n - length l)%nat x).

(** [static_cast] of a [double] to an integer type: the value truncated
    toward zero, and a fault for a NaN or an infinity. The range of the
    target type is not checked here. The value is an index, and the access
    checks it, or it is the exponent of [Phi]; what is proved to return
    through [Phi] is proved for labels within the range of [int]. *)
Definition to_int (x : float) : result Z :=
  match Ieee.trunc x with Some z => Ok z | None => Fault (BadCast x) end.

(** [for (i = lo; i < hi; ++i) body]: the loop state is threaded through
    the iterations; [continue] is an iteration that returns it unchanged. *)
Fixpoint for_loop {S} (n : nat) (i : Z) (body : Z → S → result S) (s : S)
  : result S :=
  match n with
  | O => Ok s
  | S n => s' ← body i s; for_loop n (i + 1) body s'
  end.

Definition for_range {S} (lo hi : Z) (body : Z → S → result S) (s : S)
  : result S :=
  for_loop (Z.to_nat (hi - lo)) lo body s.

(** The indices [lo, lo+1, ..., lo+n-1]. *)
Fixpoint iota (n : nat) (lo : Z) : list Z :=
  match n with
  | O => []
  | S n => lo :: iota n (lo + 1)
  end.

(** [std::stable_sort(first, last, comp)], as the insertion of each element,
    from the last to the first, before the first element that does not have
    to precede it. For a comparison that is a strict weak order this is the
    one stable ordering there is; the comparison reads the array of scores,
    hence may fault. *)
Fixpoint insert_sorted (comp : Z → Z → result bool) (a : Z) (l : list Z)
  : result (list Z) :=
  match l with
  | [] => Ok [a]
  | b :: l' =>
      c ← comp b a;
      if c : bool then r ← insert_sorted comp a l'; Ok (b :: r)
      else Ok (a :: l)
  end.

Fixpoint stable_sort (comp : Z → Z → result bool) (l : list Z)
  : result (list Z) :=
  match l with
  | [] => Ok []
  | a :: l' => r ← stable_sort comp l'; insert_sorted comp a r
  end.

(** ** What the file takes from elsewhere *)

(** [<cmath>]. *)
Class Libm := {
  exp : float → float;
  log : float → float;
  log2 : float → float;
  pow : float → float → float;
}.

(** [LightGBM/meta.h]: [score_t] and [label_t] are floating-point types no
    wider than [double], so their values are [double]s and the conversion of
    a [double] to them is a rounding; [kMinScore] and [kEpsilon] are
    constants. *)
Class Meta := {
  to_score_t : float → float;
  to_label_t : float → float;
  kMinScore : float;
  kEpsilon : float;
}.

(** [DCGCalculator], of [LightGBM/metric.h]. *)
Class Dcg := {
  DefaultLabelGain : list float → list float;
  CheckLabel : list float → Z → result ();
  CalMaxDCGAtK : Z → list float → Z → float;
  GetDiscount : Z → float;
}.

(** [Common::Softmax], [Common::Pow] and the generator [Random] of
    [LightGBM/utils]. *)
Class Common := {
  Softmax : list float → Z → list float;
  Pow : float → Z → float;
  Random : Type;
  Random_seed : Z → Random;
  NextFloat : Random → float * Random;
}.

(** OpenMP: the size of the team seen by the constructor, and the thread that
    runs the iteration of the parallel loop for a given query. *)
Class OpenMP := {
  omp_get_num_threads : Z;
  omp_get_thread_num : Z → Z;
}.

(** ** Configuration and metadata, as far as the objectives read them *)

Record Config := {
  objective_seed : Z;
  sigmoid : float;
  lambdarank_norm : bool;
  lambdarank_truncation_level : Z;
  lambdarank_unbiased : bool;
  lambdarank_eta : float;
  label_gain : list float;
}.

(** [weights()] and [query_boundaries()] return [nullptr] ([None]) when the
    data set has none. *)
Record Metadata := {
  label : list float;
  weights : option (list float);
  query_boundaries : option (list Z);
  num_queries : Z;
}.

(** [p[i]] for a pointer that may be null. *)
Definition deref {A} (v : vec) (p : option (list A)) : result (list A) :=
  match p with Some l => Ok l | None => Fault (NullPointer v) end.

(** [p + start], the view of an array from [start] on. *)
Definition from {A} (start : Z) (l : list A) : list A := drop (Z.to_nat start) l.

(** The array [l] after the view from [start] on became [view]. *)
Definition store {A} (start : Z) (l view : list A) : list A :=
  take (Z.to_nat start) l ++ view.

(** ** class RankingObjective *)

Module RankingObjective.
Section RankingObjective.
Context `{Meta}.

Record t := {
  seed_ : Z;
  num_queries_ : Z;
  num_data_ : Z;
  label_ : list float;
  weights_ : option (list float);
  query_boundaries_ : option (list Z);
}.

(** [explicit RankingObjective(const Config& config)]; the other members
    are set by [Init]. *)
Definition new (config : Config) : t :=
  {| seed_ := objective_seed config; num_queries_ := 0; num_data_ := 0;
     label_ := []; weights_ := None; query_boundaries_ := None |}.

Definition Init (o : t) (metadata : Metadata) (num_data : Z) : result t :=
  match query_boundaries metadata with
  | None => Fault (Fatal "Ranking tasks require query information"%string)
  | Some _ =>
      Ok {| seed_ := seed_ o;
            num_queries_ := num_queries metadata;
            num_data_ := num_data;
            label_ := label metadata;
            weights_ := weights metadata;
            query_boundaries_ := query_boundaries metadata |}
  end.

(** The loop over the queries of [GetGradients]. [one_query] is the virtual
    [GetGradientsForOneQuery] of the derived class and [M] what that method
    mutates in the object; the iterations are taken in the order of the
    queries. *)
Definition GetGradients {M} (o : t)
    (one_query : Z → Z → list float → list float → list float → list float
                 → M → result (list float * list float * M))
    (score gradients hessians : list float) (m : M)
  : result (list float * list float * M) :=
  for_range 0 (num_queries_ o) (fun i '(gradients, hessians, m) =>
    qb ← deref v_query_boundaries (query_boundaries_ o);
    start ← rd v_query_boundaries qb i;
    stop ← rd v_query_boundaries qb (i + 1);
    let cnt := stop - start in
    '(lambdas, hess, m) ←
      one_query i cnt (from start (label_ o)) (from start score)
                (from start gradients) (from start hessians) m;
    let gradients := store start gradients lambdas in
    let hessians := store start hessians hess in
    match weights_ o with
    | None => Ok (gradients, hessians, m)
    | Some w =>
        '(gradients, hessians) ←
          for_range 0 cnt (fun j '(gradients, hessians) =>
            g ← rd v_gradients gradients (start + j);
            wj ← rd v_weights w (start + j);
            gradients ← wr v_gradients gradients (start + j)
                           (to_score_t (g * wj));
            h ← rd v_hessians hessians (start + j);
            wj ← rd v_weights w (start + j);
            hessians ← wr v_hessians hessians (start + j)
                          (to_score_t (h * wj));
            Ok (gradients, hessians)) (gradients, hessians);
        Ok (gradients, hessians, m)
    end) (gradients, hessians, m).

End RankingObjective.
End RankingObjective.

(** ** class LambdarankNDCG *)

Module LambdarankNDCG.
Section LambdarankNDCG.
Context `{Libm, Meta, Dcg, OpenMP}.

(** The [mutable] members: the position-bias model and its accumulators. *)
Record biases := {
  i_biases_pow_ : list float;
  j_biases_pow_ : list float;
  i_costs_ : list float;
  i_costs_buffer_ : list (list float);
  j_costs_ : list float;
  j_costs_buffer_ : list (list float);
}.

Record t := {
  ranking : RankingObjective.t;
  sigmoid_ : float;
  norm_ : bool;
  truncation_level_ : Z;
  inverse_max_dcgs_ : list float;
  sigmoid_table_ : list float;
  label_gain_ : list float;
  _sigmoid_bins : Z;
  min_sigmoid_input_ : float;
  max_sigmoid_input_ : float;
  sigmoid_table_idx_factor_ : float;
  mut : biases;
  unbiased_ : bool;
  eta_ : float;
  num_threads_ : Z;
}.

Definition with_mut (o : t) (m : biases) : t :=
  {| ranking := ranking o; sigmoid_ := sigmoid_ o; norm_ := norm_ o;
     truncation_level_ := truncation_level_ o;
     inverse_max_dcgs_ := inverse_max_dcgs_ o;
     sigmoid_table_ := sigmoid_table_ o; label_gain_ := label_gain_ o;
     _sigmoid_bins := _sigmoid_bins o;
     min_sigmoid_input_ := min_sigmoid_input_ o;
     max_sigmoid_input_ := max_sigmoid_input_ o;
     sigmoid_table_idx_factor_ := sigmoid_table_idx_factor_ o;
     mut := m; unbiased_ := unbiased_ o; eta_ := eta_ o;
     num_threads_ := num_threads_ o |}.

(** The members after the initializers of the constructor and the default
    member initializers; those that [Init] sets hold nothing yet.
    [DCGCalculator::Init] only fills the calculator's own tables. *)
Definition members (config : Config) : t :=
  {| ranking := RankingObjective.new config;
     sigmoid_ := sigmoid config;
     norm_ := lambdarank_norm config;
     truncation_level_ := lambdarank_truncation_level config;
     inverse_max_dcgs_ := [];
     sigmoid_table_ := [];
     label_gain_ := DefaultLabelGain (label_gain config);
     _sigmoid_bins := 1024 * 1024;
     min_sigmoid_input_ := (-50)%float;
     max_sigmoid_input_ := 50%float;
     sigmoid_table_idx_factor_ := 0%float;
     mut := {| i_biases_pow_ := []; j_biases_pow_ := [];
               i_costs_ := []; i_costs_buffer_ := [];
               j_costs_ := []; j_costs_buffer_ := [] |};
     unbiased_ := lambdarank_unbiased config;
     eta_ := lambdarank_eta config;
     num_threads_ := omp_get_num_threads |}.

(** [explicit LambdarankNDCG(const Config& config)]. *)
Definition new (config : Config) : result t :=
  let o := members config in
  if (sigmoid_ o <=? 0)%float
  then Fault (Fatal "Sigmoid param %f should be greater than zero")
  else Ok o.

Definition GetSigmoid (o : t) (score : float) : result float :=
  if (score <=? min_sigmoid_input_ o)%float then
    rd v_sigmoid_table (sigmoid_table_ o) 0
  else if (max_sigmoid_input_ o <=? score)%float then
    rd v_sigmoid_table (sigmoid_table_ o) (_sigmoid_bins o - 1)
  else
    idx ← to_int ((score - min_sigmoid_input_ o)
                   * sigmoid_table_idx_factor_ o)%float;
    rd v_sigmoid_table (sigmoid_table_ o) idx.

Definition ConstructSigmoidTable (o : t) : result t :=
  let min_sigmoid_input := (min_sigmoid_input_ o / sigmoid_ o / 2)%float in
  let max_sigmoid_input := (- min_sigmoid_input)%float in
  table ← resize (_sigmoid_bins o) 0%float (sigmoid_table_ o);
  let idx_factor :=
    (Ieee.of_Z (_sigmoid_bins o)
     / (max_sigmoid_input - min_sigmoid_input))%float in
  table ← for_range 0 (_sigmoid_bins o) (fun i table =>
    let score := (Ieee.of_Z i / idx_factor + min_sigmoid_input)%float in
    wr v_sigmoid_table table i (1 / (1 + exp (score * sigmoid_ o)))%float)
    table;
  Ok {| ranking := ranking o; sigmoid_ := sigmoid_ o; norm_ := norm_ o;
        truncation_level_ := truncation_level_ o;
        inverse_max_dcgs_ := inverse_max_dcgs_ o;
        sigmoid_table_ := table; label_gain_ := label_gain_ o;
        _sigmoid_bins := _sigmoid_bins o;
        min_sigmoid_input_ := min_sigmoid_input;
        max_sigmoid_input_ := max_sigmoid_input;
        sigmoid_table_idx_factor_ := idx_factor;
        mut := mut o; unbiased_ := unbiased_ o; eta_ := eta_ o;
        num_threads_ := num_threads_ o |}.

Definition InitPositionBiasesAndGradients (o : t) : result t :=
  let m := mut o in
  i_biases_pow ← resize (truncation_level_ o) 0%float (i_biases_pow_ m);
  j_biases_pow ← resize (truncation_level_ o) 0%float (j_biases_pow_ m);
  i_costs ← resize (truncation_level_ o) 0%float (i_costs_ m);
  j_costs ← resize (truncation_level_ o) 0%float (j_costs_ m);
  '(i_biases_pow, j_biases_pow, i_costs, j_costs) ←
    for_range 0 (truncation_level_ o) (fun i '(ib, jb, ic, jc) =>
      ib ← wr v_i_biases_pow ib i 1%float;
      jb ← wr v_j_biases_pow jb i 1%float;
      ic ← wr v_i_costs ic i 0%float;
      jc ← wr v_j_costs jc i 0%float;
      Ok (ib, jb, ic, jc)) (i_biases_pow, j_biases_pow, i_costs, j_costs);
  '(i_costs_buffer, j_costs_buffer) ←
    for_range 0 (num_threads_ o) (fun i '(icb, jcb) =>
      row ← vector (truncation_level_ o) 0%float;
      let icb := icb ++ [row] in
      row ← vector (truncation_level_ o) 0%float;
      let jcb := jcb ++ [row] in
      Ok (icb, jcb)) (i_costs_buffer_ m, j_costs_buffer_ m);
  Ok (with_mut o
        {| i_biases_pow_ := i_biases_pow; j_biases_pow_ := j_biases_pow;
           i_costs_ := i_costs; i_costs_buffer_ := i_costs_buffer;
           j_costs_ := j_costs; j_costs_buffer_ := j_costs_buffer |}).

(** [LogDebugPositionBiases], called between the first two loops, only
    formats the four vectors below [truncation_level_] for the debug log. *)
Definition UpdatePositionBiasesAndGradients (o : t) (m : biases)
  : result biases :=
  '(i_costs, j_costs, i_costs_buffer, j_costs_buffer) ←
    for_range 0 (num_threads_ o) (fun i s =>
      for_range 0 (truncation_level_ o) (fun j '(ic, jc, icb, jcb) =>
        c ← rd v_i_costs ic j;
        row ← rd v_i_costs_buffer icb i;
        b ← rd v_i_costs_buffer row j;
        ic ← wr v_i_costs ic j (to_label_t (c + b));
        c ← rd v_j_costs jc j;
        row ← rd v_j_costs_buffer jcb i;
        b ← rd v_j_costs_buffer row j;
        jc ← wr v_j_costs jc j (to_label_t (c + b));
        row ← rd v_i_costs_buffer icb i;
        row ← wr v_i_costs_buffer row j 0%float;
        icb ← wr v_i_costs_buffer icb i row;
        row ← rd v_j_costs_buffer jcb i;
        row ← wr v_j_costs_buffer row j 0%float;
        jcb ← wr v_j_costs_buffer jcb i row;
        Ok (ic, jc, icb, jcb)) s)
      (i_costs_ m, j_costs_ m, i_costs_buffer_ m, j_costs_buffer_ m);
  '(i_biases_pow, j_biases_pow) ←
    for_range 0 (truncation_level_ o) (fun i '(ib, jb) =>
      c ← rd v_i_costs i_costs i;
      c0 ← rd v_i_costs i_costs 0;
      ib ← wr v_i_biases_pow ib i
             (to_label_t (pow (to_label_t (c / c0)) (eta_ o)));
      c ← rd v_j_costs j_costs i;
      c0 ← rd v_j_costs j_costs 0;
      jb ← wr v_j_biases_pow jb i
             (to_label_t (pow (to_label_t (c / c0)) (eta_ o)));
      Ok (ib, jb)) (i_biases_pow_ m, j_biases_pow_ m);
  '(i_costs, j_costs) ←
    for_range 0 (truncation_level_ o) (fun i '(ic, jc) =>
      ic ← wr v_i_costs ic i 0%float;
      jc ← wr v_j_costs jc i 0%float;
      Ok (ic, jc)) (i_costs, j_costs);
  Ok {| i_biases_pow_ := i_biases_pow; j_biases_pow_ := j_biases_pow;
        i_costs_ := i_costs; i_costs_buffer_ := i_costs_buffer;
        j_costs_ := j_costs; j_costs_buffer_ := j_costs_buffer |}.

(** What the loop over the pairs of one query carries from one pair to
    the next. *)
Record pairs := {
  acc_lambdas : list float;
  acc_hessians : list float;
  acc_sum_lambdas : float;
  acc_costs : biases;
}.

(** What the body of the loop over [j] has computed for a pair when it
    reaches [if (unbiased_)]: the ranks and the documents of the more and of
    the less relevant side, the delta NDCG of the pair, the sigmoid of the
    difference of the scores and its derivative. *)
Record terms := {
  high_rank : Z;
  low_rank : Z;
  high : Z;
  low : Z;
  delta_pair_NDCG : float;
  p_lambda : float;
  p_hessian : float;
}.

(** The body of the loop over [j] up to [if (unbiased_)], for the ranks
    [i < j]; [None] is a [continue]. *)
Definition pair_terms (o : t) (inverse_max_dcg best_score worst_score : float)
    (label score : list float) (sorted_idx : list Z) (i j : Z)
  : result (option terms) :=
  sj ← rd v_sorted_idx sorted_idx j;
  score_j ← rd v_score score sj;
  if (score_j =? kMinScore)%float then Ok None else
  (* skip pairs with the same labels *)
  si ← rd v_sorted_idx sorted_idx i;
  label_i ← rd v_label label si;
  label_j ← rd v_label label sj;
  if (label_i =? label_j)%float then Ok None else
  let '(high_rank, low_rank) :=
    if (label_j <? label_i)%float then (i, j) else (j, i) in
  (* info of more relevant doc *)
  high ← rd v_sorted_idx sorted_idx high_rank;
  l ← rd v_label label high;
  high_label ← to_int l;
  high_score ← rd v_score score high;
  high_label_gain ← rd v_label_gain (label_gain_ o) high_label;
  let high_discount := GetDiscount high_rank in
  (* info of less relevant doc *)
  low ← rd v_sorted_idx sorted_idx low_rank;
  l ← rd v_label label low;
  low_label ← to_int l;
  low_score ← rd v_score score low;
  low_label_gain ← rd v_label_gain (label_gain_ o) low_label;
  let low_discount := GetDiscount low_rank in
  let delta_score := (high_score - low_score)%float in
  let dcg_gap := (high_label_gain - low_label_gain)%float in
  let paired_discount := abs (high_discount - low_discount) in
  let delta_pair_NDCG := (dcg_gap * paired_discount * inverse_max_dcg)%float in
  (* regularize the delta_pair_NDCG by score distance; 0.01f *)
  let delta_pair_NDCG :=
    if (norm_ o || unbiased_ o) && Ieee.neqb best_score worst_score
    then (delta_pair_NDCG / (0x1.47ae14p-7 + abs delta_score))%float
    else delta_pair_NDCG in
  p_lambda ← GetSigmoid o delta_score;
  let p_hessian := (p_lambda * (1 - p_lambda))%float in
  Ok (Some {| high_rank := high_rank; low_rank := low_rank;
              high := high; low := low;
              delta_pair_NDCG := delta_pair_NDCG;
              p_lambda := p_lambda; p_hessian := p_hessian |}).

(** The block of [if (unbiased_)]: the cost of the pair goes to the buffers
    of the thread. *)
Definition charge (o : t) (tid : Z) (p : terms) (m : biases) : result biases :=
  if unbiased_ o then
    let p_cost :=
      (log (1 / (1 - p_lambda p)) * delta_pair_NDCG p)%float in
    jb ← rd v_j_biases_pow (j_biases_pow_ m) (low_rank p);
    row ← rd v_i_costs_buffer (i_costs_buffer_ m) tid;
    c ← rd v_i_costs_buffer row (high_rank p);
    row ← wr v_i_costs_buffer row (high_rank p) (to_label_t (c + p_cost / jb));
    i_costs_buffer ← wr v_i_costs_buffer (i_costs_buffer_ m) tid row;
    ib ← rd v_i_biases_pow (i_biases_pow_ m) (high_rank p);
    row ← rd v_j_costs_buffer (j_costs_buffer_ m) tid;
    c ← rd v_j_costs_buffer row (low_rank p);
    row ← wr v_j_costs_buffer row (low_rank p) (to_label_t (c + p_cost / ib));
    j_costs_buffer ← wr v_j_costs_buffer (j_costs_buffer_ m) tid row;
    Ok {| i_biases_pow_ := i_biases_pow_ m;
          j_biases_pow_ := j_biases_pow_ m;
          i_costs_ := i_costs_ m; i_costs_buffer_ := i_costs_buffer;
          j_costs_ := j_costs_ m; j_costs_buffer_ := j_costs_buffer |}
  else Ok m.

(** The two updates [p_lambda *= ...] and [p_hessian *= ...]: the lambda and
    the hessian that the pair contributes. *)
Definition debiased (o : t) (m : biases) (p : terms) : result (float * float) :=
  ib ← rd v_i_biases_pow (i_biases_pow_ m) (high_rank p);
  jb ← rd v_j_biases_pow (j_biases_pow_ m) (low_rank p);
  let lambda :=
    (p_lambda p * (- sigmoid_ o * delta_pair_NDCG p / ib / jb))%float in
  ib ← rd v_i_biases_pow (i_biases_pow_ m) (high_rank p);
  jb ← rd v_j_biases_pow (j_biases_pow_ m) (low_rank p);
  let hessian :=
    (p_hessian p * (sigmoid_ o * sigmoid_ o * delta_pair_NDCG p / ib / jb))%float in
  Ok (lambda, hessian).

(** The body of the loop over [j], for the ranks [i < j]. *)
Definition pair (o : t) (tid : Z) (inverse_max_dcg best_score worst_score : float)
    (label score : list float) (sorted_idx : list Z) (i j : Z) (a : pairs)
  : result pairs :=
  p ← pair_terms o inverse_max_dcg best_score worst_score
        label score sorted_idx i j;
  match p with
  | None => Ok a
  | Some p =>
      m ← charge o tid p (acc_costs a);
      '(p_lambda, p_hessian) ← debiased o m p;
      x ← rd v_lambdas (acc_lambdas a) (low p);
      lambdas ← wr v_lambdas (acc_lambdas a) (low p)
                   (to_score_t (x - to_score_t p_lambda));
      x ← rd v_hessians (acc_hessians a) (low p);
      hessians ← wr v_hessians (acc_hessians a) (low p)
                    (to_score_t (x + to_score_t p_hessian));
      x ← rd v_lambdas lambdas (high p);
      lambdas ← wr v_lambdas lambdas (high p)
                   (to_score_t (x + to_score_t p_lambda));
      x ← rd v_hessians hessians (high p);
      hessians ← wr v_hessians hessians (high p)
                    (to_score_t (x + to_score_t p_hessian));
      (* lambda is negative, so use minus to accumulate *)
      Ok {| acc_lambdas := lambdas; acc_hessians := hessians;
            acc_sum_lambdas := (acc_sum_lambdas a - 2 * p_lambda)%float;
            acc_costs := m |}
  end.

(** [score[a] > score[b]], the comparison of the sort. *)
Definition by_score (score : list float) (a b : Z) : result bool :=
  x ← rd v_score score a;
  y ← rd v_score score b;
  Ok (y <? x)%float.

(** The function up to the end of the loop over the pairs: the sort, the
    best and the worst score, and the accumulation of the pairs. *)
Definition accumulate (o : t) (query_id cnt : Z)
    (label score lambdas hessians : list float) (m : biases)
  : result pairs :=
  let tid := omp_get_thread_num query_id in
  inverse_max_dcg ← rd v_inverse_max_dcgs (inverse_max_dcgs_ o) query_id;
  (* initialize with zero *)
  '(lambdas, hessians) ←
    for_range 0 cnt (fun i '(lambdas, hessians) =>
      lambdas ← wr v_lambdas lambdas i 0%float;
      hessians ← wr v_hessians hessians i 0%float;
      Ok (lambdas, hessians)) (lambdas, hessians);
  (* get sorted indices for scores *)
  sorted_idx ← vector cnt 0;
  sorted_idx ← for_range 0 cnt (fun i sorted_idx =>
                 wr v_sorted_idx sorted_idx i i) sorted_idx;
  sorted_idx ← stable_sort (by_score score) sorted_idx;
  (* get best and worst score *)
  best ← rd v_sorted_idx sorted_idx 0;
  best_score ← rd v_score score best;
  let worst_idx := cnt - 1 in
  worst_idx ←
    (if 0 <? worst_idx then
       w ← rd v_sorted_idx sorted_idx worst_idx;
       s ← rd v_score score w;
       Ok (if (s =? kMinScore)%float then worst_idx - 1 else worst_idx)
     else Ok worst_idx);
  w ← rd v_sorted_idx sorted_idx worst_idx;
  worst_score ← rd v_score score w;
  for_range 0 (Z.min (cnt - 1) (truncation_level_ o)) (fun i a =>
    si ← rd v_sorted_idx sorted_idx i;
    score_i ← rd v_score score si;
    if (score_i =? kMinScore)%float then Ok a else
    for_range (i + 1) cnt
      (pair o tid inverse_max_dcg best_score worst_score
            label score sorted_idx i) a)
    {| acc_lambdas := lambdas; acc_hessians := hessians;
       acc_sum_lambdas := 0%float; acc_costs := m |}.

(** The rescaling that ends the function. *)
Definition normalize (cnt : Z) (a : pairs) : result (list float * list float) :=
  let sum_lambdas := acc_sum_lambdas a in
  let norm_factor := (log2 (1 + sum_lambdas) / sum_lambdas)%float in
  for_range 0 cnt (fun i '(lambdas, hessians) =>
    x ← rd v_lambdas lambdas i;
    lambdas ← wr v_lambdas lambdas i (to_score_t (x * norm_factor));
    x ← rd v_hessians hessians i;
    hessians ← wr v_hessians hessians i (to_score_t (x * norm_factor));
    Ok (lambdas, hessians)) (acc_lambdas a, acc_hessians a).

Definition GetGradientsForOneQuery (o : t) (query_id cnt : Z)
    (label score lambdas hessians : list float) (m : biases)
  : result (list float * list float * biases) :=
  a ← accumulate o query_id cnt label score lambdas hessians m;
  if norm_ o && (0 <? acc_sum_lambdas a)%float then
    '(lambdas, hessians) ← normalize cnt a;
    Ok (lambdas, hessians, acc_costs a)
  else Ok (acc_lambdas a, acc_hessians a, acc_costs a).

Definition Init (o : t) (metadata : Metadata) (num_data : Z) : result t :=
  r ← RankingObjective.Init (ranking o) metadata num_data;
  _ ← CheckLabel (RankingObjective.label_ r) (RankingObjective.num_data_ r);
  inverse_max_dcgs ←
    resize (RankingObjective.num_queries_ r) 0%float (inverse_max_dcgs_ o);
  inverse_max_dcgs ←
    for_range 0 (RankingObjective.num_queries_ r) (fun i dcgs =>
      qb ← deref v_query_boundaries (RankingObjective.query_boundaries_ r);
      start ← rd v_query_boundaries qb i;
      stop ← rd v_query_boundaries qb (i + 1);
      let d := CalMaxDCGAtK (truncation_level_ o)
                 (from start (RankingObjective.label_ r)) (stop - start) in
      wr v_inverse_max_dcgs dcgs i
         (if (0 <? d)%float then (1 / d)%float else d)) inverse_max_dcgs;
  o ← ConstructSigmoidTable
        {| ranking := r; sigmoid_ := sigmoid_ o; norm_ := norm_ o;
           truncation_level_ := truncation_level_ o;
           inverse_max_dcgs_ := inverse_max_dcgs;
           sigmoid_table_ := sigmoid_table_ o; label_gain_ := label_gain_ o;
           _sigmoid_bins := _sigmoid_bins o;
           min_sigmoid_input_ := min_sigmoid_input_ o;
           max_sigmoid_input_ := max_sigmoid_input_ o;
           sigmoid_table_idx_factor_ := sigmoid_table_idx_factor_ o;
           mut := mut o; unbiased_ := unbiased_ o; eta_ := eta_ o;
           num_threads_ := num_threads_ o |};
  InitPositionBiasesAndGradients o.

(** [GetGradients] is [const]: what changes is the [mutable] part of the
    object, returned with the two arrays. *)
Definition GetGradients (o : t) (score gradients hessians : list float)
  : result (list float * list float * biases) :=
  '(gradients, hessians, m) ←
    RankingObjective.GetGradients (ranking o) (GetGradientsForOneQuery o)
      score gradients hessians (mut o);
  if unbiased_ o then
    m ← UpdatePositionBiasesAndGradients o m;
    Ok (gradients, hessians, m)
  else Ok (gradients, hessians, m).

End LambdarankNDCG.
End LambdarankNDCG.

(** ** class RankXENDCG *)

Module RankXENDCG.
Section RankXENDCG.
Context `{Meta, Common}.

Record t := {
  ranking : RankingObjective.t;
  rands_ : list Random;   (* mutable *)
}.

Definition new (config : Config) : t :=
  {| ranking := RankingObjective.new config; rands_ := [] |}.

Definition Init (o : t) (metadata : Metadata) (num_data : Z) : result t :=
  r ← RankingObjective.Init (ranking o) metadata num_data;
  rands ← for_range 0 (RankingObjective.num_queries_ r) (fun i rands =>
            Ok (rands ++ [Random_seed (RankingObjective.seed_ r + i)]))
            (rands_ o);
  Ok {| ranking := r; rands_ := rands |}.

Definition Phi (l : float) (g : float) : result float :=
  n ← to_int l;
  Ok (Pow 2 n - g)%float.

Definition GetGradientsForOneQuery (o : t) (query_id cnt : Z)
    (label score lambdas hessians : list float) (rands : list Random)
  : result (list float * list float * list Random) :=
  (* Skip groups with too few items. *)
  if cnt <=? 1 then
    '(lambdas, hessians) ←
      for_range 0 cnt (fun i '(lambdas, hessians) =>
        lambdas ← wr v_lambdas lambdas i 0%float;
        hessians ← wr v_hessians hessians i 0%float;
        Ok (lambdas, hessians)) (lambdas, hessians);
    Ok (lambdas, hessians, rands)
  else
  (* Turn scores into a probability distribution using Softmax. *)
  let rho := Softmax score cnt in
  params ← vector cnt 0%float;
  '(params, inv_denominator, rands) ←
    for_range 0 cnt (fun i '(params, inv_denominator, rands) =>
      l ← rd v_label label i;
      r ← rd v_rands rands query_id;
      let '(g, r) := NextFloat r in
      rands ← wr v_rands rands query_id r;
      x ← Phi l g;
      params ← wr v_params params i x;
      x ← rd v_params params i;
      Ok (params, (inv_denominator + x)%float, rands))
      (params, 0%float, rands);
  let inv_denominator := (1 / Ieee.max kEpsilon inv_denominator)%float in
  (* First order terms. *)
  '(lambdas, params, sum_l1) ←
    for_range 0 cnt (fun i '(lambdas, params, sum_l1) =>
      x ← rd v_params params i;
      r ← rd v_rho rho i;
      let term := (- x * inv_denominator + r)%float in
      lambdas ← wr v_lambdas lambdas i (to_score_t term);
      r ← rd v_rho rho i;
      params ← wr v_params params i (term / (1 - r))%float;
      x ← rd v_params params i;
      Ok (lambdas, params, (sum_l1 + x)%float))
      (lambdas, params, 0%float);
  (* Second order terms. *)
  '(lambdas, params, sum_l2) ←
    for_range 0 cnt (fun i '(lambdas, params, sum_l2) =>
      r ← rd v_rho rho i;
      x ← rd v_params params i;
      let term := (r * (sum_l1 - x))%float in
      y ← rd v_lambdas lambdas i;
      lambdas ← wr v_lambdas lambdas i (to_score_t (y + to_score_t term));
      r ← rd v_rho rho i;
      params ← wr v_params params i (term / (1 - r))%float;
      x ← rd v_params params i;
      Ok (lambdas, params, (sum_l2 + x)%float))
      (lambdas, params, 0%float);
  '(lambdas, hessians) ←
    for_range 0 cnt (fun i '(lambdas, hessians) =>
      r ← rd v_rho rho i;
      x ← rd v_params params i;
      y ← rd v_lambdas lambdas i;
      lambdas ← wr v_lambdas lambdas i
                   (to_score_t (y + to_score_t (r * (sum_l2 - x))));
      r ← rd v_rho rho i;
      r' ← rd v_rho rho i;
      hessians ← wr v_hessians hessians i (to_score_t (r * (1 - r')));
      Ok (lambdas, hessians)) (lambdas, hessians);
  Ok (lambdas, hessians, rands).

Definition GetGradients (o : t) (score gradients hessians : list float)
  : result (list float * list float * list Random) :=
  RankingObjective.GetGradients (ranking o) (GetGradientsForOneQuery o)
    score gradients hessians (rands_ o).

End RankXENDCG.
End RankXENDCG.

(** ** One instance of the interfaces

    The properties below hold for every [Libm], [Meta], [Dcg], [Common] and
    [OpenMP], or say which behaviour of theirs they rest on. The instance of
    this section serves to run the objectives on sample inputs. Its math
    library returns the values that Annex F of ISO C fixes (zeros,
    infinities, NaN, [pow(1, y)], [pow(x, 0)]) and sums a series elsewhere;
    its [score_t] and [label_t] are single precision. *)

Module Ref.

Definition ln2 : float := 0x1.62e42fefa39efp-1%float.

(** [1 + r/i (1 + r/(i+1) (1 + ...))], [k] levels deep. *)
Fixpoint exp_series (k : nat) (i r : float) : float :=
  match k with
  | O => 1
  | S k => 1 + r / i * exp_series k (i + 1) r
  end%float.

Definition exp (x : float) : float :=
  if is_nan x then nan
  else if (710 <? x)%float then infinity
  else if (x <? -746)%float then 0%float
  else
    let q := (x / ln2)%float in
    match Ieee.trunc (if (q <? 0) then q - 0.5 else q + 0.5)%float with
    | Some n => Z.ldexp (exp_series 18 1 (x - Ieee.of_Z n * ln2)) n
    | None => nan
    end.

(** [1/d + t2 (1/(d+2) + t2 (...))], [k] levels deep. *)
Fixpoint atanh_series (k : nat) (d t2 : float) : float :=
  match k with
  | O => 1 / d
  | S k => 1 / d + t2 * atanh_series k (d + 2) t2
  end%float.

Definition log (x : float) : float :=
  if is_nan x || (x <? 0)%float then nan
  else if is_zero x then neg_infinity
  else if (x =? infinity)%float then infinity
  else
    let '(m, e) := Z.frexp x in
    let '(m, e) :=
      if (m <? 0x1.6a09e667f3bcdp-1)%float then ((2 * m)%float, e - 1)
      else (m, e) in
    let t := ((m - 1) / (m + 1))%float in
    (Ieee.of_Z e * ln2 + 2 * t * atanh_series 14 1 (t * t))%float.

Definition log2 (x : float) : float := (log x / ln2)%float.

(** [y] is an odd integer. *)
Definition odd_integer (y : float) : bool :=
  match Ieee.trunc y with
  | Some n => (Ieee.of_Z n =? y)%float && Z.odd n
  | None => false
  end.

(** [y] is an integer (every [double] beyond [2^53] is one). *)
Definition integer (y : float) : bool :=
  match Ieee.trunc y with
  | Some n => (Ieee.of_Z n =? y)%float
  | None => false
  end.

Definition pow (x y : float) : float :=
  if is_zero y || (x =? 1)%float then 1%float
  else if is_nan x || is_nan y then nan
  else if is_zero x then
    let z := if odd_integer y then x else 0%float in
    if (0 <? y)%float then z else (1 / z)%float
  else if (x <? 0)%float then
    if is_infinity y then
      if (x =? -1)%float then 1%float else exp (y * log (- x))
    else if integer y then
      if odd_integer y then (- exp (y * log (- x)))%float
      else exp (y * log (- x))
    else nan
  else exp (y * log x).

Definition libm : Libm := Build_Libm exp log log2 pow.

(** Modelled from the spec: [score_t] and [label_t] (the "fixed-width
    numeric" types of [meta.h]) as single precision; [kMinScore], the
    "sentinel minimum score", as the [-inf] of the comment of the source;
    [kEpsilon], the "small epsilon", as [1e-15f]. *)
Definition meta : Meta :=
  Build_Meta Ieee.to_binary32 Ieee.to_binary32 neg_infinity
             0x1.203afap-50%float.

(** Modelled from the spec: the label gain "defaults to [2^label - 1]". *)
Definition gain (l : float) : float :=
  match Ieee.trunc l with
  | Some n => Ieee.of_Z (2 ^ n - 1)
  | None => nan
  end.

(** Modelled from the spec: the position discount, [1/log2(2 + i)] in the
    comments of the source. *)
Definition discount (i : Z) : float := (1 / log2 (Ieee.of_Z (2 + i)))%float.

(** Insertion into a list sorted from the largest to the smallest. *)
Fixpoint insert_desc (x : float) (l : list float) : list float :=
  match l with
  | [] => [x]
  | y :: l' => if (y <? x)%float then x :: l else y :: insert_desc x l'
  end.

Fixpoint dcg (gains : list float) (i : Z) : float :=
  match gains with
  | [] => 0
  | g :: gains => g * discount i + dcg gains (i + 1)
  end%float.

(** Modelled from the spec: the "ideal (label-sorted) DCG at the truncation
    level"; the gain table, when unset, is the default one for the labels
    [0 .. 30]; the check of the labels accepts them. *)
Definition dcg_calculator : Dcg :=
  Build_Dcg
    (fun label_gain =>
       match label_gain with
       | [] => (fun n => Ieee.of_Z (2 ^ n - 1)) <$> iota 31 0
       | _ => label_gain
       end)
    (fun _ _ => Ok ())
    (fun k label num_data =>
       dcg (take (Z.to_nat k)
              (foldr insert_desc [] (gain <$> take (Z.to_nat num_data) label)))
           0)
    discount.

(** Modelled from the spec: the softmax of the scores, an integer power,
    and a "persistent random stream (uniform, advanced each call)", here a
    linear congruential generator on 32 bits. *)
Definition softmax (score : list float) (len : Z) : list float :=
  let s := take (Z.to_nat len) score in
  let wmax := foldr (fun x m => if (m <? x)%float then x else m)
                    neg_infinity s in
  let e := (fun x => exp (x - wmax)%float) <$> s in
  let wsum := foldl add 0%float e in
  (fun x => (x / wsum)%float) <$> e.

Fixpoint powi (b : float) (n : nat) : float :=
  match n with O => 1 | S n => b * powi b n end%float.

Definition next_float (x : Z) : float * Z :=
  let x := (214013 * x + 2531011) mod 2 ^ 32 in
  ((Ieee.of_Z (Z.land (Z.shiftr x 16) 32767) / 32768)%float, x).

Definition common : Common :=
  Build_Common softmax
    (fun b n => if n <? 0 then (1 / powi b (Z.to_nat (- n)))%float
                else powi b (Z.to_nat n))
    Z (fun seed => seed mod 2 ^ 32) next_float.

(** A team of one thread. *)
Definition openmp : OpenMP := Build_OpenMP 1 (fun _ => 0).

End Ref.

(** ** Vocabulary of the properties *)

(** [wp r Q E]: [r] returns a value that satisfies [Q], or stops on a fault
    that satisfies [E]. *)
Definition wp {A} (r : result A) (Q : A → Prop) (E : fault → Prop) : Prop :=
  match r with
  | Ok a => Q a
  | Fault f => E f
  end.

(** [r] is not a [Log::Fatal]. *)
Definition no_fatal {A} (r : result A) : Prop := ∀ msg, r ≠ Fault (Fatal msg).


Section Vocabulary.
Context `{Libm, Meta, Dcg, OpenMP}.

(** The abscissa of bin [k] of the sigmoid table, and the expression that
    [ConstructSigmoidTable] evaluates there. *)
Definition bin_abscissa (o : LambdarankNDCG.t) (k : Z) : float :=
  (Ieee.of_Z k / LambdarankNDCG.sigmoid_table_idx_factor_ o
   + LambdarankNDCG.min_sigmoid_input_ o)%float.

Definition direct_sigmoid (o : LambdarankNDCG.t) (x : float) : float :=
  (1 / (1 + exp (x * LambdarankNDCG.sigmoid_ o)))%float.

(** The table of [o] is the one [ConstructSigmoidTable] builds. *)
Definition table_built (o : LambdarankNDCG.t) : Prop :=
  Z.of_nat (length (LambdarankNDCG.sigmoid_table_ o))
  = LambdarankNDCG._sigmoid_bins o
  ∧ ∀ k, 0 ≤ k < LambdarankNDCG._sigmoid_bins o →
      LambdarankNDCG.sigmoid_table_ o !! Z.to_nat k
      = Some (direct_sigmoid o (bin_abscissa o k)).

(** The object that [ConstructSigmoidTable] makes of [o], [table] being
    the table that it filled. *)
Definition with_sigmoid_table (o : LambdarankNDCG.t) (table : list float)
  : LambdarankNDCG.t :=
  let min_sigmoid_input :=
    (LambdarankNDCG.min_sigmoid_input_ o / LambdarankNDCG.sigmoid_ o / 2)%float in
  let max_sigmoid_input := (- min_sigmoid_input)%float in
  {| LambdarankNDCG.ranking := LambdarankNDCG.ranking o;
     LambdarankNDCG.sigmoid_ := LambdarankNDCG.sigmoid_ o;
     LambdarankNDCG.norm_ := LambdarankNDCG.norm_ o;
     LambdarankNDCG.truncation_level_ := LambdarankNDCG.truncation_level_ o;
     LambdarankNDCG.inverse_max_dcgs_ := LambdarankNDCG.inverse_max_dcgs_ o;
     LambdarankNDCG.sigmoid_table_ := table;
     LambdarankNDCG.label_gain_ := LambdarankNDCG.label_gain_ o;
     LambdarankNDCG._sigmoid_bins := LambdarankNDCG._sigmoid_bins o;
     LambdarankNDCG.min_sigmoid_input_ := min_sigmoid_input;
     LambdarankNDCG.max_sigmoid_input_ := max_sigmoid_input;
     LambdarankNDCG.sigmoid_table_idx_factor_ :=
       (Ieee.of_Z (LambdarankNDCG._sigmoid_bins o)
        / (max_sigmoid_input - min_sigmoid_input))%float;
     LambdarankNDCG.mut := LambdarankNDCG.mut o;
     LambdarankNDCG.unbiased_ := LambdarankNDCG.unbiased_ o;
     LambdarankNDCG.eta_ := LambdarankNDCG.eta_ o;
     LambdarankNDCG.num_threads_ := LambdarankNDCG.num_threads_ o |}.

(** The vectors of the position-bias model have the sizes that
    [InitPositionBiasesAndGradients] gives them. *)
Definition shaped (o : LambdarankNDCG.t) (m : LambdarankNDCG.biases) : Prop :=
  let n := LambdarankNDCG.truncation_level_ o in
  Z.of_nat (length (LambdarankNDCG.i_biases_pow_ m)) = n
  ∧ Z.of_nat (length (LambdarankNDCG.j_biases_pow_ m)) = n
  ∧ Z.of_nat (length (LambdarankNDCG.i_costs_ m)) = n
  ∧ Z.of_nat (length (LambdarankNDCG.j_costs_ m)) = n
  ∧ Z.of_nat (length (LambdarankNDCG.i_costs_buffer_ m))
    = LambdarankNDCG.num_threads_ o
  ∧ Z.of_nat (length (LambdarankNDCG.j_costs_buffer_ m))
    = LambdarankNDCG.num_threads_ o
  ∧ Forall (fun row => Z.of_nat (length row) = n)
           (LambdarankNDCG.i_costs_buffer_ m)
  ∧ Forall (fun row => Z.of_nat (length row) = n)
           (LambdarankNDCG.j_costs_buffer_ m).

(** The sum, vector by vector, of the per-thread buffers into the cost
    accumulator, in [label_t] arithmetic. *)
Definition addl (c b : float) : float := to_label_t (c + b).

Definition sum_rows (costs : list float) (buffer : list (list float))
  : list float :=
  foldl (zip_with addl) costs buffer.

(** The bias powers that [UpdatePositionBiasesAndGradients] derives from
    the accumulated costs: [pow(costs[i] / costs[0], eta)]. *)
Definition bias_pow (eta : float) (costs : list float) : list float :=
  (fun c => to_label_t (pow (to_label_t (c / hd 0%float costs)) eta))
    <$> costs.

(** The arrays of [GetGradientsForOneQuery] that are indexed by a document
    or by a rank of the query. *)
Definition guarded (v : vec) : bool :=
  match v with
  | v_sorted_idx | v_score | v_label | v_lambdas | v_hessians => true
  | _ => false
  end.

(** The fault is not an access outside one of these arrays. *)
Definition safe (f : fault) : Prop :=
  match f with
  | OutOfBounds v _ => guarded v = false
  | _ => True
  end.

(** Document [d] carries the sentinel score. *)
Definition sentinel (score : list float) (d : nat) : Prop :=
  ∃ s, score !! d = Some s ∧ (s =? kMinScore)%float = true.

(** The first [cnt] entries of [l] multiplied by [factor], in [score_t]. *)
Definition rescaled (cnt : Z) (factor : float) (l : list float) : list float :=
  ((fun x => to_score_t (x * factor)) <$> take (Z.to_nat cnt) l)
  ++ drop (Z.to_nat cnt) l.

(** The factor of the normalization, [log2(1 + sum_lambdas) / sum_lambdas]. *)
Definition norm_factor (sum_lambdas : float) : float :=
  (log2 (1 + sum_lambdas) / sum_lambdas)%float.

(** What keeps the accesses of the loop over the pairs in bounds:
    [sorted_idx] holds [cnt] documents of the query, and the four arrays
    have [cnt] entries at least. *)
Definition in_bounds (cnt : Z) (sorted_idx : list Z) (label score : list float)
    (nl nh : nat) : Prop :=
  Forall (fun x => 0 ≤ x < cnt) sorted_idx
  ∧ Z.of_nat (length sorted_idx) = cnt
  ∧ cnt ≤ Z.of_nat (length label)
  ∧ cnt ≤ Z.of_nat (length score)
  ∧ cnt ≤ Z.of_nat nl
  ∧ cnt ≤ Z.of_nat nh.

(** The query has a document, and the four arrays have [cnt] entries at
    least. *)
Definition fits (cnt : Z) (label score lambdas hessians : list float) : Prop :=
  1 ≤ cnt
  ∧ cnt ≤ Z.of_nat (length label)
  ∧ cnt ≤ Z.of_nat (length score)
  ∧ cnt ≤ Z.of_nat (length lambdas)
  ∧ cnt ≤ Z.of_nat (length hessians).

(** The score at rank [i] is not the sentinel. *)
Definition ranked (sorted_idx : list Z) (score : list float) (i : Z) : Prop :=
  ∀ si s, sorted_idx !! Z.to_nat i = Some si → score !! Z.to_nat si = Some s →
          (s =? kMinScore)%float = false.

(** [a'] has the sizes of [a], and the entries of [a] for the documents that
    carry the sentinel. *)
Definition kept (score : list float) (a a' : LambdarankNDCG.pairs) : Prop :=
  length (LambdarankNDCG.acc_lambdas a') = length (LambdarankNDCG.acc_lambdas a)
  ∧ length (LambdarankNDCG.acc_hessians a') = length (LambdarankNDCG.acc_hessians a)
  ∧ ∀ d, sentinel score d →
      LambdarankNDCG.acc_lambdas a' !! d = LambdarankNDCG.acc_lambdas a !! d
      ∧ LambdarankNDCG.acc_hessians a' !! d = LambdarankNDCG.acc_hessians a !! d.

(** Faults of a computation that touches no guarded array. *)
Definition free {A} (P : Prop) (r : result A) : Prop :=
  wp r (fun _ => True) (fun f => P → safe f).

(** What [GetSigmoid] returns on a table that [ConstructSigmoidTable] built,
    in terms of the expression stored in the bins. *)
Definition tabulated (o : LambdarankNDCG.t) (score : float) : result float :=
  let entry k := Ok (direct_sigmoid o (bin_abscissa o k)) in
  if (score <=? LambdarankNDCG.min_sigmoid_input_ o)%float then entry 0
  else if (LambdarankNDCG.max_sigmoid_input_ o <=? score)%float
  then entry (LambdarankNDCG._sigmoid_bins o - 1)
  else
    idx ← to_int ((score - LambdarankNDCG.min_sigmoid_input_ o)
                   * LambdarankNDCG.sigmoid_table_idx_factor_ o)%float;
    if (0 <=? idx) && (idx <? LambdarankNDCG._sigmoid_bins o) then entry idx
    else Fault (OutOfBounds v_sigmoid_table idx).

(** The array [l] with the entries [a] and [b] exchanged. *)
Definition swapped {A} (a b : Z) (l : list A) : list A :=
  match l !! Z.to_nat a, l !! Z.to_nat b with
  | Some x, Some y => <[Z.to_nat a := y]> (<[Z.to_nat b := x]> l)
  | _, _ => l
  end.

(** A finite [double] is an integer multiple of [2^-1074]: that integer. *)
Definition dyadic (x : float) : option Z :=
  match Prim2SF x with
  | S754_zero _ => Some 0
  | S754_finite s m e => Some (cond_Zopp s (Zpos m * 2 ^ (e + 1074)))
  | S754_infinity _ | S754_nan => None
  end.

(** The sum of the entries of [l], without rounding, in units of
    [2^-1074]. *)
Definition exact_sum (l : list float) : option Z :=
  foldr (fun x acc => a ← dyadic x; b ← acc; Some (a + b)) (Some 0) l.


End Vocabulary.

(** ** Vocabulary of the properties of whole calls *)

(** The arrays of the data set and of the call, and the ranking of a
    query. *)
Definition watched (v : vec) : bool :=
  match v with
  | v_sorted_idx | v_score | v_label | v_lambdas | v_hessians
  | v_gradients | v_weights | v_query_boundaries => true
  | _ => false
  end.

(** The fault is not an access outside one of these arrays, nor a null
    pointer in their place. *)
Definition sound (f : fault) : Prop :=
  match f with
  | OutOfBounds v _ | NullPointer v => watched v = false
  | _ => True
  end.

(** The fault is no null pointer and no access to an array of the data set
    that the computation of one query does not see. *)
Definition apart (f : fault) : Prop :=
  match f with
  | OutOfBounds v _ =>
      match v with
      | v_gradients | v_weights | v_query_boundaries => False
      | _ => True
      end
  | NullPointer _ => False
  | _ => True
  end.

(** The faults of [r] all satisfy [P]. *)
Definition faults (P : fault → Prop) {A} (r : result A) : Prop :=
  wp r (fun _ => True) P.

(** [l'] has the entries of [l] below [cnt]. *)
Definition agree {A} (cnt : Z) (l l' : list A) : Prop :=
  ∀ k : nat, Z.of_nat k < cnt → l' !! k = l !! k.

(** When [r] returns [a], [r'] returns some [b] that [R] relates to [a]. *)
Definition sim {A B} (R : A → B → Prop) (r : result A) (r' : result B)
  : Prop :=
  wp r (fun a => ∃ b, r' = Ok b ∧ R a b) (fun _ => True).

(** Entry [d] of the arrays belongs to a query of the data set. *)
Definition in_query (r : RankingObjective.t) (d : nat) : Prop :=
  ∃ qb q a b,
    RankingObjective.query_boundaries_ r = Some qb
    ∧ 0 ≤ q < RankingObjective.num_queries_ r
    ∧ qb !! Z.to_nat q = Some a ∧ qb !! Z.to_nat (q + 1) = Some b
    ∧ a ≤ Z.of_nat d < b.

(** [l'] has the size of [l], and the entries of [l] that belong to no
    query of the data set. *)
Definition outside_queries {A} (r : RankingObjective.t) (l l' : list A)
  : Prop :=
  length l' = length l ∧ ∀ d : nat, ¬ in_query r d → l' !! d = l !! d.

(** What two runs of the computation of one query return: the two arrays
    agree below [cnt], and what the method mutates is the same. *)
Definition results_alike {M} (cnt : Z)
    (r r' : list float * list float * M) : Prop :=
  agree cnt r.1.1 r'.1.1 ∧ agree cnt r.1.2 r'.1.2 ∧ r'.2 = r.2.

(** The data set [r] with the weights [w]. *)
Definition reweighted (r : RankingObjective.t) (w : list float)
  : RankingObjective.t :=
  {| RankingObjective.seed_ := RankingObjective.seed_ r;
     RankingObjective.num_queries_ := RankingObjective.num_queries_ r;
     RankingObjective.num_data_ := RankingObjective.num_data_ r;
     RankingObjective.label_ := RankingObjective.label_ r;
     RankingObjective.weights_ := Some w;
     RankingObjective.query_boundaries_ :=
       RankingObjective.query_boundaries_ r |}.

Section Calls.
Context `{Meta, Common}.



(** [l] with its first [cnt] entries set to zero. *)
Definition cleared (cnt : Z) (l : list float) : list float :=
  replicate (Z.to_nat cnt) 0%float ++ drop (Z.to_nat cnt) l.

(** [l'] has the entries of [l] from [cnt] on. *)
Definition same_beyond {A} (cnt : Z) (l l' : list A) : Prop :=
  ∀ d : nat, cnt ≤ Z.of_nat d → l' !! d = l !! d.

(** [l'] has the size of [l] and its entries from [cnt] on. *)
Definition within {A} (cnt : Z) (l l' : list A) : Prop :=
  length l' = length l ∧ same_beyond cnt l l'.

(** The generator of a query after [n] draws. *)
Definition drawn (n : nat) (r : Random) : Random :=
  Nat.iter n (fun r => (NextFloat r).2) r.

(** The labels of the query convert to an integer. *)
Definition convertible (cnt : Z) (label : list float) : Prop :=
  ∀ i l, 0 ≤ i < cnt → label !! Z.to_nat i = Some l →
         is_Some (Ieee.trunc l).

(** The labels of the query truncate to a value of [int]. *)
Definition int_labels (cnt : Z) (label : list float) : Prop :=
  ∀ i l, 0 ≤ i < cnt → label !! Z.to_nat i = Some l →
         ∃ n, Ieee.trunc l = Some n ∧ - 2 ^ 31 ≤ n < 2 ^ 31.




(** The data set and the arrays of a call of [GetGradients]: the query
    boundaries do not decrease, start at 0 or above and end within the
    [num_data] entries that the labels, the scores, the two output arrays
    and the weights have at least. *)
Definition well_formed (o : RankingObjective.t)
    (score gradients hessians : list float) : Prop :=
  ∃ qb,
    RankingObjective.query_boundaries_ o = Some qb
    ∧ 0 ≤ RankingObjective.num_data_ o
    ∧ (∀ q, 0 ≤ q < RankingObjective.num_queries_ o →
         ∃ a b, qb !! Z.to_nat q = Some a ∧ qb !! Z.to_nat (q + 1) = Some b
                ∧ 0 ≤ a ≤ b ∧ b ≤ RankingObjective.num_data_ o)
    ∧ RankingObjective.num_data_ o
      ≤ Z.of_nat (length (RankingObjective.label_ o))
    ∧ RankingObjective.num_data_ o ≤ Z.of_nat (length score)
    ∧ RankingObjective.num_data_ o ≤ Z.of_nat (length gradients)
    ∧ RankingObjective.num_data_ o ≤ Z.of_nat (length hessians)
    ∧ match RankingObjective.weights_ o with
      | Some w => RankingObjective.num_data_ o ≤ Z.of_nat (length w)
      | None => True
      end.

(** Every query of the data set has a document. *)
Definition populated (o : RankingObjective.t) : Prop :=
  ∀ qb q a b, RankingObjective.query_boundaries_ o = Some qb →
              0 ≤ q < RankingObjective.num_queries_ o →
              qb !! Z.to_nat q = Some a → qb !! Z.to_nat (q + 1) = Some b →
              a < b.

(** The two arrays of two runs after the loop that clears them. *)
Definition cleared_alike (cnt : Z) (lambdas' hessians' : list float)
    (s s' : list float * list float) : Prop :=
  agree cnt s.1 s'.1 ∧ agree cnt s.2 s'.2
  ∧ length s'.1 = length lambdas' ∧ length s'.2 = length hessians'.

(** The state of the loop over the pairs in two runs: the arrays agree
    below [cnt], the rest is the same. *)
Definition pairs_alike (cnt : Z) (a a' : LambdarankNDCG.pairs) : Prop :=
  agree cnt (LambdarankNDCG.acc_lambdas a) (LambdarankNDCG.acc_lambdas a')
  ∧ agree cnt (LambdarankNDCG.acc_hessians a) (LambdarankNDCG.acc_hessians a')
  ∧ cnt ≤ Z.of_nat (length (LambdarankNDCG.acc_lambdas a'))
  ∧ cnt ≤ Z.of_nat (length (LambdarankNDCG.acc_hessians a'))
  ∧ LambdarankNDCG.acc_sum_lambdas a' = LambdarankNDCG.acc_sum_lambdas a
  ∧ LambdarankNDCG.acc_costs a' = LambdarankNDCG.acc_costs a.

(** The two arrays in two runs: they agree below [cnt], and those of the
    second run have [cnt] entries. *)
Definition arrays_alike (cnt : Z) (s s' : list float * list float) : Prop :=
  agree cnt s.1 s'.1 ∧ agree cnt s.2 s'.2
  ∧ cnt ≤ Z.of_nat (length s'.1) ∧ cnt ≤ Z.of_nat (length s'.2).

(** [g'] has the size of [g], and at every entry of a query the entry of
    [g] times the weight of the document. *)
Definition weighted (r : RankingObjective.t) (w g g' : list float) : Prop :=
  length g' = length g
  ∧ ∀ (d : nat) x y, in_query r d → g !! d = Some x → w !! d = Some y →
      g' !! d = Some (to_score_t (x * y)).

(** [g'] is [g] with the entries from [a] to [a + cnt] multiplied by the
    weights. *)
Definition scaled_slice (a cnt : Z) (w g g' : list float) : Prop :=
  length g' = length g
  ∧ (∀ d : nat, ¬ (a ≤ Z.of_nat d < a + cnt) → g' !! d = g !! d)
  ∧ ∀ (d : nat) x y, a ≤ Z.of_nat d < a + cnt →
      g !! d = Some x → w !! d = Some y →
      g' !! d = Some (to_score_t (x * y)).

(** The pairwise objective on the data set with the weights [w]. *)
Definition pairwise_reweighted (o : LambdarankNDCG.t) (w : list float)
  : LambdarankNDCG.t :=
  {| LambdarankNDCG.ranking := reweighted (LambdarankNDCG.ranking o) w;
     LambdarankNDCG.sigmoid_ := LambdarankNDCG.sigmoid_ o;
     LambdarankNDCG.norm_ := LambdarankNDCG.norm_ o;
     LambdarankNDCG.truncation_level_ := LambdarankNDCG.truncation_level_ o;
     LambdarankNDCG.inverse_max_dcgs_ := LambdarankNDCG.inverse_max_dcgs_ o;
     LambdarankNDCG.sigmoid_table_ := LambdarankNDCG.sigmoid_table_ o;
     LambdarankNDCG.label_gain_ := LambdarankNDCG.label_gain_ o;
     LambdarankNDCG._sigmoid_bins := LambdarankNDCG._sigmoid_bins o;
     LambdarankNDCG.min_sigmoid_input_ := LambdarankNDCG.min_sigmoid_input_ o;
     LambdarankNDCG.max_sigmoid_input_ := LambdarankNDCG.max_sigmoid_input_ o;
     LambdarankNDCG.sigmoid_table_idx_factor_ :=
       LambdarankNDCG.sigmoid_table_idx_factor_ o;
     LambdarankNDCG.mut := LambdarankNDCG.mut o;
     LambdarankNDCG.unbiased_ := LambdarankNDCG.unbiased_ o;
     LambdarankNDCG.eta_ := LambdarankNDCG.eta_ o;
     LambdarankNDCG.num_threads_ := LambdarankNDCG.num_threads_ o |}.

(** The listwise objective on the data set with the weights [w]. *)
Definition listwise_reweighted (x : RankXENDCG.t) (w : list float)
  : RankXENDCG.t :=
  {| RankXENDCG.ranking := reweighted (RankXENDCG.ranking x) w;
     RankXENDCG.rands_ := RankXENDCG.rands_ x |}.

End Calls.

(** ** Samples

    The configurations, data sets and objects of the sample runs, with the
    interfaces of [Ref]. *)

Module Sample.

#[local] Existing Instance Ref.libm.
#[local] Existing Instance Ref.meta.
#[local] Existing Instance Ref.dcg_calculator.
#[local] Existing Instance Ref.common.
#[local] Existing Instance Ref.openmp.

(** Unbiased LambdaRank at truncation level 2, [eta = 0.5]. *)
Definition config : Config :=
  {| objective_seed := 0; sigmoid := 1%float; lambdarank_norm := true;
     lambdarank_truncation_level := 2; lambdarank_unbiased := true;
     lambdarank_eta := 0.5%float; label_gain := [] |}.

(** The object after the constructor and
    [InitPositionBiasesAndGradients]. *)
Definition seeded : result LambdarankNDCG.t :=
  o ← LambdarankNDCG.new config;
  LambdarankNDCG.InitPositionBiasesAndGradients o.

(** The position-bias model of [o] once the pairs of an iteration have
    charged the costs [i] and [j] to the buffers of the one thread. With
    [i = [c; 0]] and [j = [0; c]], rank 0 was the higher-labelled side and
    rank 1 the lower-labelled side of every pair, which is what queries
    ranked in the order of their labels give. *)
Definition charged (i j : list float) (o : LambdarankNDCG.t)
  : LambdarankNDCG.biases :=
  let m := LambdarankNDCG.mut o in
  {| LambdarankNDCG.i_biases_pow_ := LambdarankNDCG.i_biases_pow_ m;
     LambdarankNDCG.j_biases_pow_ := LambdarankNDCG.j_biases_pow_ m;
     LambdarankNDCG.i_costs_ := LambdarankNDCG.i_costs_ m;
     LambdarankNDCG.i_costs_buffer_ := [i];
     LambdarankNDCG.j_costs_ := LambdarankNDCG.j_costs_ m;
     LambdarankNDCG.j_costs_buffer_ := [j] |}.

(** [seeded], written out. *)
Definition object : LambdarankNDCG.t :=
  LambdarankNDCG.with_mut (LambdarankNDCG.members config)
    {| LambdarankNDCG.i_biases_pow_ := [1; 1]%float;
       LambdarankNDCG.j_biases_pow_ := [1; 1]%float;
       LambdarankNDCG.i_costs_ := [0; 0]%float;
       LambdarankNDCG.i_costs_buffer_ := [[0; 0]%float];
       LambdarankNDCG.j_costs_ := [0; 0]%float;
       LambdarankNDCG.j_costs_buffer_ := [[0; 0]%float] |}.

(** The same configuration with a sigmoid of steepness 8. *)
Definition steep : Config :=
  {| objective_seed := 0; sigmoid := 8%float; lambdarank_norm := true;
     lambdarank_truncation_level := 2; lambdarank_unbiased := true;
     lambdarank_eta := 0.5%float; label_gain := [] |}.

(** One query of three documents: two with the same score and the labels 0
    and 1, and between them one that carries the sentinel score. *)
Definition metadata : Metadata :=
  {| label := [0; 1; 1]%float; weights := None;
     query_boundaries := Some [0; 3]; num_queries := 1 |}.

(** The scores of the three documents; stably sorted from the best score
    on, the documents are 0, 2, 1. *)
Definition score : list float := [0.5; neg_infinity; 0.5]%float.

(** The object when [Init] reaches [ConstructSigmoidTable]. *)
Definition loaded (config : Config) (metadata : Metadata) (num_data : Z)
    (inverse_max_dcgs : list float) : LambdarankNDCG.t :=
  let o := LambdarankNDCG.members config in
  {| LambdarankNDCG.ranking :=
       {| RankingObjective.seed_ := objective_seed config;
          RankingObjective.num_queries_ := num_queries metadata;
          RankingObjective.num_data_ := num_data;
          RankingObjective.label_ := label metadata;
          RankingObjective.weights_ := weights metadata;
          RankingObjective.query_boundaries_ := query_boundaries metadata |};
     LambdarankNDCG.sigmoid_ := LambdarankNDCG.sigmoid_ o;
     LambdarankNDCG.norm_ := LambdarankNDCG.norm_ o;
     LambdarankNDCG.truncation_level_ := LambdarankNDCG.truncation_level_ o;
     LambdarankNDCG.inverse_max_dcgs_ := inverse_max_dcgs;
     LambdarankNDCG.sigmoid_table_ := LambdarankNDCG.sigmoid_table_ o;
     LambdarankNDCG.label_gain_ := LambdarankNDCG.label_gain_ o;
     LambdarankNDCG._sigmoid_bins := LambdarankNDCG._sigmoid_bins o;
     LambdarankNDCG.min_sigmoid_input_ := LambdarankNDCG.min_sigmoid_input_ o;
     LambdarankNDCG.max_sigmoid_input_ := LambdarankNDCG.max_sigmoid_input_ o;
     LambdarankNDCG.sigmoid_table_idx_factor_ :=
       LambdarankNDCG.sigmoid_table_idx_factor_ o;
     LambdarankNDCG.mut := LambdarankNDCG.mut o;
     LambdarankNDCG.unbiased_ := LambdarankNDCG.unbiased_ o;
     LambdarankNDCG.eta_ := LambdarankNDCG.eta_ o;
     LambdarankNDCG.num_threads_ := LambdarankNDCG.num_threads_ o |}.

(** The object that [Init] returns, [table] being the sigmoid table. *)
Definition ready (config : Config) (metadata : Metadata) (num_data : Z)
    (inverse_max_dcgs : list float) (table : list float) : LambdarankNDCG.t :=
  let n := Z.to_nat (lambdarank_truncation_level config) in
  LambdarankNDCG.with_mut
    (with_sigmoid_table (loaded config metadata num_data inverse_max_dcgs)
       table)
    {| LambdarankNDCG.i_biases_pow_ := replicate n 1%float;
       LambdarankNDCG.j_biases_pow_ := replicate n 1%float;
       LambdarankNDCG.i_costs_ := replicate n 0%float;
       LambdarankNDCG.i_costs_buffer_ := [replicate n 0%float];
       LambdarankNDCG.j_costs_ := replicate n 0%float;
       LambdarankNDCG.j_costs_buffer_ := [replicate n 0%float] |}.

(** [1 / maxDCG] of the query of [metadata]. *)
Definition inverse_max_dcg : float :=
  (1 / CalMaxDCGAtK 2 (label metadata) 3)%float.

(** What [Init] makes of [config] on [metadata]. *)
Definition trained (table : list float) : LambdarankNDCG.t :=
  ready config metadata 3 [inverse_max_dcg] table.

(** LambdaRank at truncation level 3, without normalization and without
    the position-bias correction, on one query of three documents. *)
Definition plain : Config :=
  {| objective_seed := 0; sigmoid := 1%float; lambdarank_norm := false;
     lambdarank_truncation_level := 3; lambdarank_unbiased := false;
     lambdarank_eta := 0.5%float; label_gain := [] |}.

(** One query of three documents of labels 2, 1 and 0, without weights. *)
Definition graded : Metadata :=
  {| label := [2; 1; 0]%float; weights := None;
     query_boundaries := Some [0; 3]; num_queries := 1 |}.

(** What [Init] makes of [plain] on [graded]. *)
Definition plain_trained (table : list float) : LambdarankNDCG.t :=
  ready plain graded 3 [(1 / CalMaxDCGAtK 3 (label graded) 3)%float] table.

(** The listwise objective after [Init] on [metadata]: one query, one
    generator. *)
Definition listwise : RankXENDCG.t :=
  {| RankXENDCG.ranking :=
       {| RankingObjective.seed_ := 0;
          RankingObjective.num_queries_ := 1;
          RankingObjective.num_data_ := 3;
          RankingObjective.label_ := label metadata;
          RankingObjective.weights_ := None;
          RankingObjective.query_boundaries_ := Some [0; 3] |};
     RankXENDCG.rands_ := [Random_seed 0] |}.

(** Three scores, and output arrays of four entries. *)
Definition scores : list float := [0.5; 0.25; 0.75]%float.
Definition output : list float := [9; 9; 9; 7]%float.

(** Unbiased LambdaRank at truncation level 3. *)
Definition deep : Config :=
  {| objective_seed := 0; sigmoid := 1%float; lambdarank_norm := true;
     lambdarank_truncation_level := 3; lambdarank_unbiased := true;
     lambdarank_eta := 0.5%float; label_gain := [] |}.

(** One query of three documents of labels 1, 0 and 2. *)
Definition mixed : Metadata :=
  {| label := [1; 0; 2]%float; weights := None;
     query_boundaries := Some [0; 3]; num_queries := 1 |}.

(** What [Init] makes of [deep] on [mixed]. *)
Definition deep_trained (table : list float) : LambdarankNDCG.t :=
  ready deep mixed 3 [(1 / CalMaxDCGAtK 3 (label mixed) 3)%float] table.

(** Two queries of two documents each, of labels 1 and 0. *)
Definition paired : Metadata :=
  {| label := [1; 0; 1; 0]%float; weights := None;
     query_boundaries := Some [0; 2; 4]; num_queries := 2 |}.

(** [paired] with the two documents of the first query exchanged. *)
Definition exchanged : Metadata :=
  {| label := [0; 1; 1; 0]%float; weights := None;
     query_boundaries := Some [0; 2; 4]; num_queries := 2 |}.

(** [1 / maxDCG] of a query of two documents of labels 1 and 0, at
    truncation level 2. *)
Definition paired_inverse_max_dcg : float :=
  (1 / CalMaxDCGAtK 2 [1; 0]%float 2)%float.

(** What [Init] makes of [config] on [paired] and on [exchanged]. *)
Definition paired_trained (table : list float) : LambdarankNDCG.t :=
  ready config paired 4 [paired_inverse_max_dcg; paired_inverse_max_dcg] table.

Definition exchanged_trained (table : list float) : LambdarankNDCG.t :=
  ready config exchanged 4 [paired_inverse_max_dcg; paired_inverse_max_dcg]
    table.


End Sample.

(** * Properties *)

(** ** IEEE facts *)

Module IeeeFacts.

Lemma SFabs_round_aux s m e l :
  SFabs (binary_round_aux prec emax s m e l)
  = SFabs (binary_round_aux prec emax (negb s) m e l).
Proof.
  unfold binary_round_aux.
  destruct (shr_fexp prec emax m e l) as [mrs' e'].
  destruct (shr_fexp prec emax _ e' loc_Exact) as [mrs'' e''].
  destruct (shr_m mrs''); try reflexivity.
  destruct (e'' <=? emax - prec); reflexivity.
Qed.

Lemma SFabs_normalize_opp m e sz :
  SFabs (binary_normalize prec emax (- m) e sz)
  = SFabs (binary_normalize prec emax m e sz).
Proof.
  destruct m as [|p|p]; simpl; try reflexivity; unfold binary_round;
    destruct (shl_align _ _ _) as [mz ez].
  - apply (SFabs_round_aux true).
  - apply (SFabs_round_aux false).
Qed.

Lemma SFabs_sub_comm x y : SFabs (SF64sub x y) = SFabs (SF64sub y x).
Proof.
  destruct x as [sx|sx| |sx mx ex], y as [sy|sy| |sy my ey];
    try reflexivity; try (destruct sx, sy; reflexivity).
  unfold SF64sub, SFsub.
  rewrite (Z.min_comm ey ex), <- SFabs_normalize_opp.
  f_equal. f_equal. lia.
Qed.

(** [fabs(x - y) == fabs(y - x)], bit for bit. *)
Lemma abs_sub_comm (x y : float) : abs (x - y) = abs (y - x).
Proof.
  apply Prim2SF_inj. rewrite !abs_spec, !sub_spec. apply SFabs_sub_comm.
Qed.

(** A zero times a finite number is a zero. *)
Lemma mul_zero_finite (z x : float) :
  is_zero z = true → Ieee.finite x = true → is_zero (z * x) = true.
Proof.
  unfold Ieee.finite, is_zero. rewrite !eqb_spec, mul_spec.
  change (Prim2SF zero) with (S754_zero false).
  destruct (Prim2SF z) as [[]|[]| |[] mz ez]; intros Hz; try discriminate Hz;
    destruct (Prim2SF x) as [[]|[]| |[] m e]; intros Hx;
    try discriminate Hx; reflexivity.
Qed.

(** A zero times anything else is a NaN. *)
Lemma mul_zero_not_finite (z x : float) :
  is_zero z = true → Ieee.finite x = false → (z * x)%float = nan.
Proof.
  unfold Ieee.finite, is_zero. rewrite !eqb_spec. intros Hz Hx.
  apply Prim2SF_inj. rewrite mul_spec. revert Hz Hx.
  change (Prim2SF zero) with (S754_zero false).
  change (Prim2SF nan) with S754_nan.
  destruct (Prim2SF z) as [[]|[]| |[] mz ez]; intros Hz; try discriminate Hz;
    destruct (Prim2SF x) as [[]|[]| |[] m e]; intros Hx;
    try discriminate Hx; reflexivity.
Qed.

(** Rounding to single precision keeps the zeros. *)
Lemma to_binary32_zero (x : float) :
  is_zero x = true → is_zero (Ieee.to_binary32 x) = true.
Proof.
  unfold is_zero, Ieee.to_binary32. rewrite eqb_spec.
  change (Prim2SF zero) with (S754_zero false).
  destruct (Prim2SF x) as [[]|[]| |[] m e]; intros Hx;
    try discriminate Hx; reflexivity.
Qed.

(** A zero is not above zero. *)
Lemma zero_not_positive (x : float) :
  (x =? 0)%float = true → (0 <? x)%float = false.
Proof.
  rewrite eqb_spec, ltb_spec. change (Prim2SF 0) with (S754_zero false).
  destruct (Prim2SF x) as [[]|[]| |[] m e]; intros Hx;
    try discriminate Hx; reflexivity.
Qed.

Lemma SFcompare_antisym x y :
  SFcompare y x = option_map CompOpp (SFcompare x y).
Proof.
  destruct x as [sx|sx| |sx mx ex], y as [sy|sy| |sy my ey];
    try reflexivity; try (destruct sx; reflexivity);
    try (destruct sy; reflexivity); try (destruct sx, sy; reflexivity).
  simpl. change (PosDef.Pos.compare_cont Eq my mx) with (my ?= mx)%positive.
  change (PosDef.Pos.compare_cont Eq mx my) with (mx ?= my)%positive.
  rewrite (Z.compare_antisym ex ey), (Pos.compare_antisym mx my).
  destruct sx, sy; try reflexivity;
    destruct (ex ?= ey); simpl; try reflexivity;
    destruct (mx ?= my)%positive; reflexivity.
Qed.

Lemma eqb_sym (x y : float) : (x =? y)%float = (y =? x)%float.
Proof.
  rewrite !eqb_spec. unfold SFeqb.
  rewrite (SFcompare_antisym (Prim2SF x) (Prim2SF y)).
  destruct (SFcompare (Prim2SF x) (Prim2SF y)) as [[]|]; reflexivity.
Qed.

(** Of two numbers that are not equal, one is below the other. *)
Lemma ltb_flip (x y : float) a b :
  Ieee.trunc x = Some a → Ieee.trunc y = Some b →
  (x =? y)%float = false → (y <? x)%float = negb (x <? y)%float.
Proof.
  unfold Ieee.trunc. rewrite !eqb_spec, !ltb_spec. unfold SFeqb, SFltb.
  rewrite (SFcompare_antisym (Prim2SF x) (Prim2SF y)).
  destruct (Prim2SF x) as [sx|sx| |sx mx ex]; try discriminate;
    destruct (Prim2SF y) as [sy|sy| |sy my ey]; try discriminate;
    intros _ _;
    match goal with
    | |- context [SFcompare ?u ?v] =>
        assert (Hc : ∃ c, SFcompare u v = Some c) by (simpl; eauto);
        destruct Hc as [c ->]
    end; destruct c; simpl; congruence.
Qed.
End IeeeFacts.

(** ** Reasoning on fallible computations *)

Lemma wp_bind {A B} (m : result A) (k : A → result B) Q E :
  wp m (fun a => wp (k a) Q E) E → wp (m ≫= k) Q E.
Proof. destruct m; simpl; auto. Qed.

Lemma wp_mono {A} (r : result A) (Q Q' : A → Prop) (E E' : fault → Prop) :
  wp r Q E → (∀ a, Q a → Q' a) → (∀ f, E f → E' f) → wp r Q' E'.
Proof. destruct r; simpl; auto. Qed.


Lemma wp_ok {A} (r : result A) (Q : A → Prop) E :
  wp r Q E → ∀ a, r = Ok a → Q a.
Proof. intros Hr a ->. exact Hr. Qed.

Lemma wp_intro {A} (r : result A) (Q : A → Prop) (E : fault → Prop) :
  (∀ a, r = Ok a → Q a) → (∀ f, r = Fault f → E f) → wp r Q E.
Proof. destruct r; simpl; auto. Qed.

Lemma bind_Ok {A B} (m : result A) (k : A → result B) b :
  m ≫= k = Ok b ↔ ∃ a, m = Ok a ∧ k a = Ok b.
Proof.
  destruct m as [a|f]; simpl; split.
  - eauto.
  - intros (a' & [= <-] & Hk). exact Hk.
  - discriminate.
  - intros (a' & [=] & _).
Qed.

Lemma item_lookup {A} (l : list A) i : 0 ≤ i → item l i = l !! Z.to_nat i.
Proof.
  revert i. induction l as [|x l IH]; intros i Hi; simpl; [reflexivity|].
  destruct (Z.eqb_spec i 0) as [->|Hne]; [reflexivity|].
  rewrite IH by lia. replace (Z.to_nat i) with (S (Z.to_nat (i - 1))) by lia.
  reflexivity.
Qed.

Lemma rd_Ok {A} v (l : list A) i x :
  rd v l i = Ok x ↔ 0 ≤ i ∧ l !! Z.to_nat i = Some x.
Proof.
  unfold rd. destruct (Z.ltb_spec i 0).
  - split; [discriminate | lia].
  - rewrite item_lookup by assumption. destruct (l !! Z.to_nat i); split.
    + intros [= <-]. auto.
    + intros [_ [= <-]]. reflexivity.
    + discriminate.
    + intros [_ [=]].
Qed.

Lemma rd_lt {A} v (l : list A) i :
  0 ≤ i < Z.of_nat (length l) → ∃ x, rd v l i = Ok x ∧ l !! Z.to_nat i = Some x.
Proof.
  intros Hi. destruct (lookup_lt_is_Some_2 l (Z.to_nat i)) as [x Hx]; [lia|].
  exists x. split; [apply rd_Ok; split; [lia | exact Hx] | exact Hx].
Qed.

Lemma rd_fault {A} v (l : list A) i f :
  rd v l i = Fault f → f = OutOfBounds v i ∧ ¬ (0 ≤ i < Z.of_nat (length l)).
Proof.
  unfold rd. destruct (Z.ltb_spec i 0).
  - intros [= <-]. split; [reflexivity | lia].
  - rewrite item_lookup by assumption.
    destruct (l !! Z.to_nat i) eqn:E; [discriminate|].
    intros [= <-]. split; [reflexivity|].
    apply lookup_ge_None in E. lia.
Qed.

Lemma wr_Ok {A} v (l : list A) i x l' :
  wr v l i x = Ok l' ↔ 0 ≤ i < Z.of_nat (length l) ∧ l' = <[Z.to_nat i := x]> l.
Proof.
  unfold wr. destruct (Z.ltb_spec i 0).
  - split; [discriminate | lia].
  - destruct (Nat.ltb_spec (Z.to_nat i) (length l)); split.
    + intros [= <-]. split; [lia | reflexivity].
    + intros [_ ->]. reflexivity.
    + discriminate.
    + lia.
Qed.

Lemma wr_lt {A} v (l : list A) i x :
  0 ≤ i < Z.of_nat (length l) → wr v l i x = Ok (<[Z.to_nat i := x]> l).
Proof. intros Hi. apply wr_Ok. auto. Qed.

Lemma wr_fault {A} v (l : list A) i x f :
  wr v l i x = Fault f → f = OutOfBounds v i ∧ ¬ (0 ≤ i < Z.of_nat (length l)).
Proof.
  unfold wr. destruct (Z.ltb_spec i 0).
  - intros [= <-]. split; [reflexivity | lia].
  - destruct (Nat.ltb_spec (Z.to_nat i) (length l)); [discriminate|].
    intros [= <-]. split; [reflexivity | lia].
Qed.

Lemma ret_bind {A B} (a : A) (k : A → result B) : (Ok a ≫= k) = k a.
Proof. reflexivity. Qed.

Lemma bind_run {A B} (m : result A) (k : A → result B) a r :
  m = Ok a → k a = r → m ≫= k = r.
Proof. intros -> <-. reflexivity. Qed.

Lemma to_int_Ok x z : to_int x = Ok z → Ieee.trunc x = Some z.
Proof. unfold to_int. destruct (Ieee.trunc x); intros [= <-]; reflexivity. Qed.


Lemma rd_swapped {A} v (l : list A) a b x y :
  rd v l a = Ok x → rd v l b = Ok y →
  rd v (swapped a b l) a = Ok y ∧ rd v (swapped a b l) b = Ok x.
Proof.
  intros [Ha Hx]%rd_Ok [Hb Hy]%rd_Ok. unfold swapped. rewrite Hx, Hy.
  pose proof (lookup_lt_Some _ _ _ Hx). pose proof (lookup_lt_Some _ _ _ Hy).
  split; apply rd_Ok; (split; [assumption|]).
  - apply list_lookup_insert_eq. rewrite length_insert. assumption.
  - destruct (decide (Z.to_nat a = Z.to_nat b)) as [E|E].
    + rewrite E in *. rewrite list_lookup_insert_eq
        by (rewrite length_insert; assumption). congruence.
    + rewrite list_lookup_insert_ne by exact E.
      apply list_lookup_insert_eq. assumption.
Qed.

Lemma swapped_tie {A} v (l : list A) a b x :
  rd v l a = Ok x → rd v l b = Ok x → swapped a b l = l.
Proof.
  intros [Ha Hx]%rd_Ok [Hb Hy]%rd_Ok. unfold swapped. rewrite Hx, Hy.
  rewrite (list_insert_id l (Z.to_nat b) x Hy).
  apply list_insert_id, Hx.
Qed.

Lemma wp_rd_step {A B} v (l : list A) i x (k : A → result B) Q E :
  0 ≤ i → l !! Z.to_nat i = Some x → wp (k x) Q E → wp (rd v l i ≫= k) Q E.
Proof. intros Hi Hx Hk. rewrite (proj2 (rd_Ok v l i x)) by auto. exact Hk. Qed.

Lemma wp_wr_step {A B} v (l : list A) i x (k : list A → result B) Q E :
  0 ≤ i < Z.of_nat (length l) →
  wp (k (<[Z.to_nat i := x]> l)) Q E → wp (wr v l i x ≫= k) Q E.
Proof. intros Hi Hk. rewrite wr_lt by auto. exact Hk. Qed.

(** A read that is known to return [x], and a write that is known to be in
    bounds, at the head of a computation. *)
Ltac step_rd x :=
  lazymatch goal with
  | |- wp (rd ?v ?l ?i ≫= _) _ _ =>
      apply (wp_rd_step v l i x); [lia | | cbv beta]
  end.

Ltac step_wr :=
  lazymatch goal with
  | |- wp (wr ?v ?l ?i ?x ≫= _) _ _ =>
      apply (wp_wr_step v l i x); [ | cbv beta]
  end.

(** The rule of the loop: an invariant [I i s] that holds on entry and is
    carried by the body from [i] to [i + 1] holds on exit. *)
Lemma wp_for_loop {St} (I : Z → St → Prop) E n lo body (s : St) :
  I lo s →
  (∀ i s, lo ≤ i < lo + Z.of_nat n → I i s → wp (body i s) (I (i + 1)) E) →
  wp (for_loop n lo body s) (I (lo + Z.of_nat n)) E.
Proof.
  revert lo s. induction n as [|n IH]; intros lo s H0 Hbody.
  - simpl. replace (lo + Z.of_nat 0) with lo by lia. exact H0.
  - simpl for_loop. apply wp_bind.
    eapply wp_mono; [apply (Hbody lo s); [lia | exact H0] | | auto].
    intros s' Hs'. simpl.
    replace (lo + Z.of_nat (S n)) with ((lo + 1) + Z.of_nat n) by lia.
    apply IH; [exact Hs'|].
    intros i s0 Hi. apply Hbody. lia.
Qed.

Lemma wp_for_range {S} (I : Z → S → Prop) E lo hi body (s : S) :
  lo ≤ hi →
  I lo s →
  (∀ i s, lo ≤ i < hi → I i s → wp (body i s) (I (i + 1)) E) →
  wp (for_range lo hi body s) (I hi) E.
Proof.
  intros Hle H0 Hbody. unfold for_range.
  replace hi with (lo + Z.of_nat (Z.to_nat (hi - lo))) at 2 by lia.
  apply wp_for_loop; [exact H0|].
  intros i s0 Hi. apply Hbody. lia.
Qed.

(** A loop whose bounds are in the wrong order does not run. *)
Lemma for_range_empty {S} lo hi body (s : S) :
  hi ≤ lo → for_range lo hi body s = Ok s.
Proof.
  intros Hle. unfold for_range.
  replace (Z.to_nat (hi - lo)) with 0%nat by lia. reflexivity.
Qed.

(** The rule of the loop for an invariant that does not mention [i]. *)
Lemma wp_for_range_inv {S} (I : S → Prop) E lo hi body (s : S) :
  I s →
  (∀ i s, lo ≤ i < hi → I s → wp (body i s) I E) →
  wp (for_range lo hi body s) I E.
Proof.
  intros H0 Hbody. destruct (Z.le_gt_cases lo hi) as [Hle|Hgt].
  - apply (wp_for_range (fun _ => I)); auto.
  - rewrite for_range_empty by lia. exact H0.
Qed.

Lemma wp_total {A} (r : result A) (Q : A → Prop) :
  wp r Q (fun _ => False) ↔ ∃ a, r = Ok a ∧ Q a.
Proof.
  destruct r as [a|f]; simpl; split.
  - eauto.
  - intros (a' & [= <-] & Ha). exact Ha.
  - intros [].
  - intros (a' & [=] & _).
Qed.

(** A loop that stores [f i] in [t[i]] for every [i] below the size of [t]. *)
Lemma for_range_fill {A} v (f : Z → A) (n : Z) (l : list A) :
  Z.of_nat (length l) = n →
  ∃ l', for_range 0 n (fun i t => wr v t i (f i)) l = Ok l'
        ∧ Z.of_nat (length l') = n
        ∧ ∀ k, 0 ≤ k < n → l' !! Z.to_nat k = Some (f k).
Proof.
  intros Hlen.
  apply (wp_total _ (fun l' => Z.of_nat (length l') = n
           ∧ ∀ k, 0 ≤ k < n → l' !! Z.to_nat k = Some (f k))).
  eapply wp_mono;
    [apply (wp_for_range
              (fun i t => Z.of_nat (length t) = n
                 ∧ ∀ k, 0 ≤ k < i → t !! Z.to_nat k = Some (f k))
              (fun _ => False) 0 n); [lia | split; [exact Hlen | lia] |]
    | auto | auto].
  intros i t Hi [Ht Hk]. rewrite wr_lt by lia. simpl. split.
  - rewrite length_insert. exact Ht.
  - intros k Hki. destruct (Z.eq_dec k i) as [->|Hne].
    + apply list_lookup_insert_eq. lia.
    + rewrite list_lookup_insert_ne by lia. apply Hk. lia.
Qed.

(** Reads and writes of which nothing is known beforehand. *)
Lemma wp_rd {A B} v (l : list A) i (k : A → result B) Q (E : fault → Prop) :
  (¬ (0 ≤ i < Z.of_nat (length l)) → E (OutOfBounds v i)) →
  (∀ x, 0 ≤ i < Z.of_nat (length l) → l !! Z.to_nat i = Some x → wp (k x) Q E) →
  wp (rd v l i ≫= k) Q E.
Proof.
  intros Hout Hin. destruct (rd v l i) as [x|f] eqn:Er.
  - apply rd_Ok in Er as [Hi Hx]. apply Hin; [|exact Hx].
    apply lookup_lt_Some in Hx. lia.
  - apply rd_fault in Er as [-> Hn]. apply Hout, Hn.
Qed.

Lemma wp_wr {A B} v (l : list A) i x (k : list A → result B) Q (E : fault → Prop) :
  (¬ (0 ≤ i < Z.of_nat (length l)) → E (OutOfBounds v i)) →
  (0 ≤ i < Z.of_nat (length l) → wp (k (<[Z.to_nat i := x]> l)) Q E) →
  wp (wr v l i x ≫= k) Q E.
Proof.
  intros Hout Hin. destruct (wr v l i x) as [l'|f] eqn:Er.
  - apply wr_Ok in Er as [Hi ->]. apply Hin, Hi.
  - apply wr_fault in Er as [-> Hn]. apply Hout, Hn.
Qed.

Lemma wp_to_int {B} x (k : Z → result B) Q (E : fault → Prop) :
  E (BadCast x) → (∀ z, wp (k z) Q E) → wp (to_int x ≫= k) Q E.
Proof. intros He Hk. unfold to_int. destruct (Ieee.trunc x); simpl; auto. Qed.

Lemma wp_bind_free {A B} (m : result A) (k : A → result B) Q (E : fault → Prop) :
  wp m (fun _ => True) E → (∀ a, wp (k a) Q E) → wp (m ≫= k) Q E.
Proof. intros Hm Hk. destruct m; simpl; auto. Qed.

Lemma free_Ok {A} P (a : A) : free P (Ok a).
Proof. exact I. Qed.
Lemma free_bind {A B} P (m : result A) (k : A → result B) :
  free P m → (∀ a, free P (k a)) → free P (m ≫= k).
Proof. intros. apply wp_bind_free; auto. Qed.
Lemma free_rd {A} P v (l : list A) i : guarded v = false → free P (rd v l i).
Proof.
  intros Hv. unfold free. destruct (rd v l i) eqn:E; simpl; [exact I|].
  apply rd_fault in E as [-> _]. intros _. exact Hv.
Qed.
Lemma free_wr {A} P v (l : list A) i x : guarded v = false → free P (wr v l i x).
Proof.
  intros Hv. unfold free. destruct (wr v l i x) eqn:E; simpl; [exact I|].
  apply wr_fault in E as [-> _]. intros _. exact Hv.
Qed.
Lemma free_to_int P x : free P (to_int x).
Proof. unfold free, to_int. destruct (Ieee.trunc x); simpl; auto. Qed.

Ltac free_step :=
  lazymatch goal with
  | |- free _ (Ok _) => apply free_Ok
  | |- free _ (_ ≫= _) => apply free_bind; [|intros ?]
  | |- free _ (rd _ _ _) => apply free_rd; reflexivity
  | |- free _ (wr _ _ _ _) => apply free_wr; reflexivity
  | |- free _ (to_int _) => apply free_to_int
  | |- free _ (if ?c then _ else _) => destruct c
  end.
Ltac free := repeat free_step.

(** ** No fatal error outside construction and initialization *)

Lemma no_fatal_Ok {A} (a : A) : no_fatal (Ok a).
Proof. intros msg. discriminate. Qed.

Lemma no_fatal_bind {A B} (m : result A) (k : A → result B) :
  no_fatal m → (∀ a, no_fatal (k a)) → no_fatal (m ≫= k).
Proof.
  intros Hm Hk msg. destruct m as [a|f]; simpl.
  - apply Hk.
  - intros [= ->]. exact (Hm msg eq_refl).
Qed.

Lemma no_fatal_rd {A} v (l : list A) i : no_fatal (rd v l i).
Proof. intros msg. unfold rd. repeat case_match; discriminate. Qed.

Lemma no_fatal_wr {A} v (l : list A) i x : no_fatal (wr v l i x).
Proof. intros msg. unfold wr. repeat case_match; discriminate. Qed.

Lemma no_fatal_vector {A} n (x : A) : no_fatal (vector n x).
Proof. intros msg. unfold vector. case_match; discriminate. Qed.

Lemma no_fatal_resize {A} n (x : A) l : no_fatal (resize n x l).
Proof. intros msg. unfold resize. case_match; discriminate. Qed.

Lemma no_fatal_to_int x : no_fatal (to_int x).
Proof. intros msg. unfold to_int. case_match; discriminate. Qed.

Lemma no_fatal_deref {A} v (p : option (list A)) : no_fatal (deref v p).
Proof. intros msg. destruct p; discriminate. Qed.

Lemma no_fatal_for_loop {St} n lo (body : Z → St → result St) s :
  (∀ i s, no_fatal (body i s)) → no_fatal (for_loop n lo body s).
Proof.
  intros Hbody. revert lo s. induction n as [|n IH]; intros lo s; simpl.
  - apply no_fatal_Ok.
  - apply no_fatal_bind; [apply Hbody | intros s'; apply IH].
Qed.

Lemma no_fatal_for_range {St} lo hi (body : Z → St → result St) s :
  (∀ i s, no_fatal (body i s)) → no_fatal (for_range lo hi body s).
Proof. apply no_fatal_for_loop. Qed.

Lemma no_fatal_insert_sorted comp a l :
  (∀ x y, no_fatal (comp x y)) → no_fatal (insert_sorted comp a l).
Proof.
  intros Hc. induction l as [|b l IH]; simpl.
  - apply no_fatal_Ok.
  - apply no_fatal_bind; [apply Hc|]. intros [].
    + apply no_fatal_bind; [exact IH | intros; apply no_fatal_Ok].
    + apply no_fatal_Ok.
Qed.

Lemma no_fatal_stable_sort comp l :
  (∀ x y, no_fatal (comp x y)) → no_fatal (stable_sort comp l).
Proof.
  intros Hc. induction l as [|a l IH]; simpl.
  - apply no_fatal_Ok.
  - apply no_fatal_bind; [exact IH|]. intros r.
    apply no_fatal_insert_sorted, Hc.
Qed.

(** One step of the search for a fatal error in a computation. *)
Ltac no_fatal_step :=
  lazymatch goal with
  | |- no_fatal (Ok _) => apply no_fatal_Ok
  | |- no_fatal (mret _) => apply no_fatal_Ok
  | |- no_fatal (_ ≫= _) => apply no_fatal_bind; [|intros ?]
  | |- no_fatal (rd _ _ _) => apply no_fatal_rd
  | |- no_fatal (wr _ _ _ _) => apply no_fatal_wr
  | |- no_fatal (vector _ _) => apply no_fatal_vector
  | |- no_fatal (resize _ _ _) => apply no_fatal_resize
  | |- no_fatal (to_int _) => apply no_fatal_to_int
  | |- no_fatal (deref _ _) => apply no_fatal_deref
  | |- no_fatal (for_range _ _ _ _) => apply no_fatal_for_range; intros ? ?
  | |- no_fatal (stable_sort _ _) => apply no_fatal_stable_sort; intros ? ?
  | |- no_fatal (if ?c then _ else _) => destruct c
  | |- no_fatal (match ?x with _ => _ end) => destruct x
  end.

Ltac no_fatal := repeat no_fatal_step.

Section NoFatal.
Context `{Libm, Meta, Dcg, Common, OpenMP}.










End NoFatal.

(** ** Construction and initialization *)

Section Init.
Context `{Libm, Meta, Dcg, Common, OpenMP}.

Lemma ConstructSigmoidTable_Ok (o : LambdarankNDCG.t) :
  0 ≤ LambdarankNDCG._sigmoid_bins o →
  ∃ table,
    LambdarankNDCG.ConstructSigmoidTable o = Ok (with_sigmoid_table o table)
    ∧ table_built (with_sigmoid_table o table).
Proof.
  intros Hbins. unfold LambdarankNDCG.ConstructSigmoidTable.
  unfold resize at 1. destruct (Z.ltb_spec (LambdarankNDCG._sigmoid_bins o) 0);
    [lia|]. rewrite ret_bind.
  match goal with
  | |- context [for_range 0 ?n (fun i t => wr ?v t i (@?f i)) ?l] =>
      destruct (for_range_fill v f n l) as (table & -> & Hlen & Hk)
  end.
  { rewrite length_app, length_take, length_replicate. lia. }
  rewrite ret_bind. exists table. split; [reflexivity|].
  split; [exact Hlen | exact Hk].
Qed.

Lemma all_of_lookup {A} (l : list A) (n : Z) (x : A) :
  Z.of_nat (length l) = n →
  (∀ k, 0 ≤ k < n → l !! Z.to_nat k = Some x) →
  l = replicate (Z.to_nat n) x.
Proof.
  intros Hlen Hk. apply list_eq. intros i.
  destruct (Nat.lt_ge_cases i (length l)) as [Hi|Hi].
  - rewrite lookup_replicate_2 by lia.
    rewrite <- (Nat2Z.id i). apply Hk. lia.
  - rewrite !(proj2 (lookup_ge_None _ _)); [reflexivity | |exact Hi].
    rewrite length_replicate. lia.
Qed.

Lemma InitPositionBiasesAndGradients_Ok (o : LambdarankNDCG.t) :
  let n := LambdarankNDCG.truncation_level_ o in
  let m := LambdarankNDCG.mut o in
  0 ≤ n →
  LambdarankNDCG.InitPositionBiasesAndGradients o =
  Ok (LambdarankNDCG.with_mut o
        {| LambdarankNDCG.i_biases_pow_ := replicate (Z.to_nat n) 1%float;
           LambdarankNDCG.j_biases_pow_ := replicate (Z.to_nat n) 1%float;
           LambdarankNDCG.i_costs_ := replicate (Z.to_nat n) 0%float;
           LambdarankNDCG.i_costs_buffer_ :=
             LambdarankNDCG.i_costs_buffer_ m
             ++ replicate (Z.to_nat (LambdarankNDCG.num_threads_ o))
                  (replicate (Z.to_nat n) 0%float);
           LambdarankNDCG.j_costs_ := replicate (Z.to_nat n) 0%float;
           LambdarankNDCG.j_costs_buffer_ :=
             LambdarankNDCG.j_costs_buffer_ m
             ++ replicate (Z.to_nat (LambdarankNDCG.num_threads_ o))
                  (replicate (Z.to_nat n) 0%float) |}).
Proof.
  intros n m Hn. unfold LambdarankNDCG.InitPositionBiasesAndGradients.
  fold n m. unfold resize.
  destruct (Z.ltb_spec n 0); [lia|]. simpl.
  set (sized := fun l : list float => Z.of_nat (length l) = n).
  set (body1 := fun (i : Z) (pat : list float * list float * list float * list float) => _).
  assert (Hloop1 : wp (for_range 0 n body1
                     (take (Z.to_nat n) (LambdarankNDCG.i_biases_pow_ m)
                        ++ replicate (Z.to_nat n - length (LambdarankNDCG.i_biases_pow_ m)) 0%float,
                      take (Z.to_nat n) (LambdarankNDCG.j_biases_pow_ m)
                        ++ replicate (Z.to_nat n - length (LambdarankNDCG.j_biases_pow_ m)) 0%float,
                      take (Z.to_nat n) (LambdarankNDCG.i_costs_ m)
                        ++ replicate (Z.to_nat n - length (LambdarankNDCG.i_costs_ m)) 0%float,
                      take (Z.to_nat n) (LambdarankNDCG.j_costs_ m)
                        ++ replicate (Z.to_nat n - length (LambdarankNDCG.j_costs_ m)) 0%float))
                 (fun '(ib, jb, ic, jc) =>
                    (sized ib ∧ sized jb ∧ sized ic ∧ sized jc)
                    ∧ ∀ k, 0 ≤ k < n →
                        ib !! Z.to_nat k = Some 1%float
                        ∧ jb !! Z.to_nat k = Some 1%float
                        ∧ ic !! Z.to_nat k = Some 0%float
                        ∧ jc !! Z.to_nat k = Some 0%float)
                 (fun _ => False)).
  { apply (wp_for_range
             (fun i '(ib, jb, ic, jc) =>
                (sized ib ∧ sized jb ∧ sized ic ∧ sized jc)
                ∧ ∀ k, 0 ≤ k < i →
                    ib !! Z.to_nat k = Some 1%float
                    ∧ jb !! Z.to_nat k = Some 1%float
                    ∧ ic !! Z.to_nat k = Some 0%float
                    ∧ jc !! Z.to_nat k = Some 0%float)); [lia | |].
    - unfold sized. rewrite !length_app, !length_take, !length_replicate.
      split; [lia | intros; lia].
    - intros i [[[ib jb] ic] jc] Hi [(Hib & Hjb & Hic & Hjc) Hk].
      unfold sized in *. unfold body1.
      rewrite !wr_lt by lia. simpl.
      rewrite !length_insert. split; [auto|].
      intros k Hki. destruct (Z.eq_dec k i) as [->|Hne].
      + rewrite !list_lookup_insert_eq by lia. auto.
      + rewrite !list_lookup_insert_ne by lia. apply Hk. lia. }
  apply wp_total in Hloop1 as ([[[ib jb] ic] jc] & -> & (Hib & Hjb & Hic & Hjc) & Hk).
  unfold sized in *. simpl.
  rewrite (all_of_lookup ib n 1%float), (all_of_lookup jb n 1%float),
    (all_of_lookup ic n 0%float), (all_of_lookup jc n 0%float);
    try assumption; try (intros k Hkn; apply Hk; assumption).
  set (row := replicate (Z.to_nat n) 0%float).
  set (body2 := fun (i : Z) (pat : list (list float) * list (list float)) => _).
  assert (Hloop2 : ∀ t, wp (for_range 0 t body2
                     (LambdarankNDCG.i_costs_buffer_ m,
                      LambdarankNDCG.j_costs_buffer_ m))
                 (fun '(icb, jcb) =>
                    icb = LambdarankNDCG.i_costs_buffer_ m
                          ++ replicate (Z.to_nat t) row
                    ∧ jcb = LambdarankNDCG.j_costs_buffer_ m
                            ++ replicate (Z.to_nat t) row)
                 (fun _ => False)).
  { intros t. destruct (Z.le_gt_cases 0 t) as [Ht|Ht].
    - apply (wp_for_range
               (fun i '(icb, jcb) =>
                  icb = LambdarankNDCG.i_costs_buffer_ m
                        ++ replicate (Z.to_nat i) row
                  ∧ jcb = LambdarankNDCG.j_costs_buffer_ m
                          ++ replicate (Z.to_nat i) row)); [lia | |].
      + simpl. rewrite !app_nil_r. auto.
      + intros i [icb jcb] Hi [-> ->]. unfold body2, vector.
        destruct (Z.ltb_spec n 0); [lia|]. simpl. fold row.
        replace (Z.to_nat (i + 1)) with (S (Z.to_nat i)) by lia.
        rewrite replicate_S_end, !app_assoc. auto.
    - rewrite for_range_empty by lia.
      replace (Z.to_nat t) with 0%nat by lia. simpl.
      rewrite !app_nil_r. auto. }
  specialize (Hloop2 (LambdarankNDCG.num_threads_ o)).
  apply wp_total in Hloop2 as ([icb jcb] & -> & -> & ->). reflexivity.
Qed.









End Init.

(** ** The position-bias model *)

Section PositionBias.
Context `{Libm, Meta, Dcg, OpenMP}.

Lemma zero_prefix_lookup {A} (z : A) (row : list A) (j : nat) b :
  row !! j = Some b → (replicate j z ++ drop j row) !! j = Some b.
Proof.
  intros Hb. rewrite lookup_app_r; rewrite length_replicate; [|lia].
  rewrite Nat.sub_diag, lookup_drop, Nat.add_0_r. exact Hb.
Qed.

Lemma zero_prefix_step {A} (z : A) (row : list A) (j : nat) :
  (j < length row)%nat →
  <[j := z]> (replicate j z ++ drop j row)
  = replicate (S j) z ++ drop (S j) row.
Proof.
  intros Hj. rewrite insert_app_r_alt by (rewrite length_replicate; lia).
  rewrite length_replicate, Nat.sub_diag, replicate_S_end, <- app_assoc.
  destruct (lookup_lt_is_Some_2 row j Hj) as [x Hx].
  rewrite (drop_S _ _ _ Hx). reflexivity.
Qed.

Lemma zip_prefix_lookup {A B} (f : A → B → A) (l : list A) (r : list B) j x :
  (j ≤ length r)%nat → l !! j = Some x →
  (zip_with f (take j l) (take j r) ++ drop j l) !! j = Some x.
Proof.
  intros Hr Hx. pose proof (lookup_lt_Some _ _ _ Hx).
  rewrite lookup_app_r; rewrite length_zip_with, !length_take; [|lia].
  replace (j - _)%nat with 0%nat by lia.
  rewrite lookup_drop, Nat.add_0_r. exact Hx.
Qed.

Lemma zip_prefix_step {A B} (f : A → B → A) (l : list A) (r : list B) j x y :
  l !! j = Some x → r !! j = Some y →
  <[j := f x y]> (zip_with f (take j l) (take j r) ++ drop j l)
  = zip_with f (take (S j) l) (take (S j) r) ++ drop (S j) l.
Proof.
  intros Hx Hy.
  pose proof (lookup_lt_Some _ _ _ Hx). pose proof (lookup_lt_Some _ _ _ Hy).
  rewrite insert_app_r_alt; rewrite length_zip_with, !length_take; [|lia].
  replace (j - _)%nat with 0%nat by lia.
  rewrite (drop_S _ _ _ Hx), (take_S_r _ _ _ Hx), (take_S_r _ _ _ Hy).
  rewrite zip_with_app by (rewrite !length_take; lia).
  rewrite <- app_assoc. reflexivity.
Qed.

(** The loop over [j] of the reduction, for the thread [i]: the row of the
    thread is added to the accumulators and cleared. *)
Lemma reduce_row (o : LambdarankNDCG.t) (i : Z)
    (ic jc : list float) (icb jcb : list (list float)) (ri rj : list float) :
  let n := LambdarankNDCG.truncation_level_ o in
  Z.of_nat (length ic) = n → Z.of_nat (length jc) = n →
  0 ≤ i →
  icb !! Z.to_nat i = Some ri → jcb !! Z.to_nat i = Some rj →
  Z.of_nat (length ri) = n → Z.of_nat (length rj) = n →
  for_range 0 n (fun j '(ic, jc, icb, jcb) =>
        c ← rd v_i_costs ic j;
        row ← rd v_i_costs_buffer icb i;
        b ← rd v_i_costs_buffer row j;
        ic ← wr v_i_costs ic j (to_label_t (c + b));
        c ← rd v_j_costs jc j;
        row ← rd v_j_costs_buffer jcb i;
        b ← rd v_j_costs_buffer row j;
        jc ← wr v_j_costs jc j (to_label_t (c + b));
        row ← rd v_i_costs_buffer icb i;
        row ← wr v_i_costs_buffer row j 0%float;
        icb ← wr v_i_costs_buffer icb i row;
        row ← rd v_j_costs_buffer jcb i;
        row ← wr v_j_costs_buffer row j 0%float;
        jcb ← wr v_j_costs_buffer jcb i row;
        Ok (ic, jc, icb, jcb)) (ic, jc, icb, jcb)
  = Ok (zip_with addl ic ri, zip_with addl jc rj,
        <[Z.to_nat i := replicate (Z.to_nat n) 0%float]> icb,
        <[Z.to_nat i := replicate (Z.to_nat n) 0%float]> jcb).
Proof.
  intros n Hic Hjc Hi Hri Hrj Hlri Hlrj.
  assert (Hn : 0 ≤ n) by lia.
  set (body := fun (j : Z) (pat : list float * list float
                                  * list (list float) * list (list float)) => _).
  assert (Hii : (Z.to_nat i < length icb)%nat)
    by (eapply lookup_lt_Some; eauto).
  assert (Hij : (Z.to_nat i < length jcb)%nat)
    by (eapply lookup_lt_Some; eauto).
  pose (Inv := fun (j : Z) '(ic', jc', icb', jcb') =>
    ic' = zip_with addl (take (Z.to_nat j) ic) (take (Z.to_nat j) ri)
          ++ drop (Z.to_nat j) ic
    ∧ jc' = zip_with addl (take (Z.to_nat j) jc) (take (Z.to_nat j) rj)
            ++ drop (Z.to_nat j) jc
    ∧ icb' = <[Z.to_nat i := replicate (Z.to_nat j) 0%float
                             ++ drop (Z.to_nat j) ri]> icb
    ∧ jcb' = <[Z.to_nat i := replicate (Z.to_nat j) 0%float
                             ++ drop (Z.to_nat j) rj]> jcb).
  assert (Hloop : wp (for_range 0 n body (ic, jc, icb, jcb)) (Inv n)
                     (fun _ => False)).
  { apply (wp_for_range Inv); [lia | |].
    - simpl. rewrite !drop_0, !list_insert_id by assumption. auto.
    - intros j [[[ic' jc'] icb'] jcb'] Hj (-> & -> & -> & ->).
      unfold body. cbv beta iota.
      destruct (lookup_lt_is_Some_2 ic (Z.to_nat j)) as [cj Hcj]; [lia|].
      destruct (lookup_lt_is_Some_2 jc (Z.to_nat j)) as [dj Hdj]; [lia|].
      destruct (lookup_lt_is_Some_2 ri (Z.to_nat j)) as [bj Hbj]; [lia|].
      destruct (lookup_lt_is_Some_2 rj (Z.to_nat j)) as [ej Hej]; [lia|].
      step_rd cj; [apply zip_prefix_lookup; [lia|exact Hcj]|].
      step_rd (replicate (Z.to_nat j) 0%float ++ drop (Z.to_nat j) ri);
        [apply list_lookup_insert_eq; exact Hii|].
      step_rd bj; [apply zero_prefix_lookup; exact Hbj|].
      step_wr; [rewrite length_app, length_zip_with, !length_take, length_drop; lia|].
      step_rd dj; [apply zip_prefix_lookup; [lia|exact Hdj]|].
      step_rd (replicate (Z.to_nat j) 0%float ++ drop (Z.to_nat j) rj);
        [apply list_lookup_insert_eq; exact Hij|].
      step_rd ej; [apply zero_prefix_lookup; exact Hej|].
      step_wr; [rewrite length_app, length_zip_with, !length_take, length_drop; lia|].
      step_rd (replicate (Z.to_nat j) 0%float ++ drop (Z.to_nat j) ri);
        [apply list_lookup_insert_eq; exact Hii|].
      step_wr; [rewrite length_app, length_replicate, length_drop; lia|].
      step_wr; [rewrite length_insert; lia|].
      step_rd (replicate (Z.to_nat j) 0%float ++ drop (Z.to_nat j) rj);
        [apply list_lookup_insert_eq; exact Hij|].
      step_wr; [rewrite length_app, length_replicate, length_drop; lia|].
      step_wr; [rewrite length_insert; lia|].
      simpl wp. unfold Inv.
      replace (Z.to_nat (j + 1)) with (S (Z.to_nat j)) by lia.
      rewrite !list_insert_insert_eq.
      change (to_label_t (cj + bj)) with (addl cj bj).
      change (to_label_t (dj + ej)) with (addl dj ej).
      rewrite (zip_prefix_step addl ic ri _ cj bj Hcj Hbj).
      rewrite (zip_prefix_step addl jc rj _ dj ej Hdj Hej).
      rewrite !zero_prefix_step by lia. auto. }
  apply wp_total in Hloop
    as ([[[ic' jc'] icb'] jcb'] & -> & -> & -> & -> & ->).
  rewrite !take_ge, !drop_ge, !app_nil_r by lia. reflexivity.
Qed.

Lemma length_sum_rows (n : Z) (costs : list float) (buffer : list (list float)) :
  Z.of_nat (length costs) = n →
  Forall (fun row => Z.of_nat (length row) = n) buffer →
  Z.of_nat (length (sum_rows costs buffer)) = n.
Proof.
  intros Hc Hb. revert costs Hc. unfold sum_rows.
  induction Hb as [|row buffer Hrow _ IH]; intros costs Hc; simpl;
    [exact Hc|].
  apply IH. rewrite length_zip_with. lia.
Qed.

Lemma sum_rows_snoc costs buffer row :
  sum_rows costs (buffer ++ [row]) = zip_with addl (sum_rows costs buffer) row.
Proof. unfold sum_rows. rewrite foldl_app. reflexivity. Qed.

(** What [UpdatePositionBiasesAndGradients] returns. *)
Lemma Update_spec (o : LambdarankNDCG.t) (m : LambdarankNDCG.biases) :
  let n := Z.to_nat (LambdarankNDCG.truncation_level_ o) in
  let t := Z.to_nat (LambdarankNDCG.num_threads_ o) in
  shaped o m →
  LambdarankNDCG.UpdatePositionBiasesAndGradients o m =
  Ok {| LambdarankNDCG.i_biases_pow_ :=
          bias_pow (LambdarankNDCG.eta_ o)
            (sum_rows (LambdarankNDCG.i_costs_ m)
                      (LambdarankNDCG.i_costs_buffer_ m));
        LambdarankNDCG.j_biases_pow_ :=
          bias_pow (LambdarankNDCG.eta_ o)
            (sum_rows (LambdarankNDCG.j_costs_ m)
                      (LambdarankNDCG.j_costs_buffer_ m));
        LambdarankNDCG.i_costs_ := replicate n 0%float;
        LambdarankNDCG.i_costs_buffer_ := replicate t (replicate n 0%float);
        LambdarankNDCG.j_costs_ := replicate n 0%float;
        LambdarankNDCG.j_costs_buffer_ := replicate t (replicate n 0%float) |}.
Proof.
  intros n t (Hib & Hjb & Hic & Hjc & Hicb & Hjcb & Hri & Hrj).
  destruct m as [ib0 jb0 ic0 icb0 jc0 jcb0]. simpl in *.
  set (N := LambdarankNDCG.truncation_level_ o) in *.
  set (T := LambdarankNDCG.num_threads_ o) in *.
  assert (HN : 0 ≤ N) by lia. assert (HT : 0 ≤ T) by lia.
  unfold LambdarankNDCG.UpdatePositionBiasesAndGradients. simpl. fold N T.
  set (zeros := replicate n 0%float).
  (* the reduction of the buffers *)
  pose (Inv1 := fun (i : Z) '(ic, jc, icb, jcb) =>
    ic = sum_rows ic0 (take (Z.to_nat i) icb0)
    ∧ jc = sum_rows jc0 (take (Z.to_nat i) jcb0)
    ∧ icb = replicate (Z.to_nat i) zeros ++ drop (Z.to_nat i) icb0
    ∧ jcb = replicate (Z.to_nat i) zeros ++ drop (Z.to_nat i) jcb0).
  match goal with
  | |- context [for_range 0 T ?body ?s ≫= _] =>
      assert (Hloop : wp (for_range 0 T body s) (Inv1 T) (fun _ => False))
  end.
  { apply (wp_for_range Inv1); [lia | simpl; auto |].
    intros i [[[ic jc] icb] jcb] Hi (-> & -> & -> & ->).
    destruct (lookup_lt_is_Some_2 icb0 (Z.to_nat i)) as [ri Eri]; [lia|].
    destruct (lookup_lt_is_Some_2 jcb0 (Z.to_nat i)) as [rj Erj]; [lia|].
    pose proof (proj1 (Forall_lookup _ _) Hri _ _ Eri) as Hlri.
    pose proof (proj1 (Forall_lookup _ _) Hrj _ _ Erj) as Hlrj.
    simpl in Hlri, Hlrj.
    rewrite (reduce_row o i _ _ _ _ ri rj); fold N;
      [ | apply length_sum_rows; [exact Hic | apply Forall_take; exact Hri]
        | apply length_sum_rows; [exact Hjc | apply Forall_take; exact Hrj]
        | lia
        | apply zero_prefix_lookup; exact Eri
        | apply zero_prefix_lookup; exact Erj
        | exact Hlri | exact Hlrj ].
    simpl. replace (Z.to_nat (i + 1)) with (S (Z.to_nat i)) by lia.
    rewrite (take_S_r _ _ _ Eri), (take_S_r _ _ _ Erj), !sum_rows_snoc.
    fold n zeros.
    rewrite !zero_prefix_step by lia. auto. }
  apply wp_total in Hloop
    as ([[[ic jc] icb] jcb] & -> & -> & -> & -> & ->).
  rewrite ret_bind. cbv beta iota.
  rewrite !take_ge, !drop_ge, !app_nil_r by lia.
  set (ic := sum_rows ic0 icb0). set (jc := sum_rows jc0 jcb0).
  assert (Hlic : Z.of_nat (length ic) = N)
    by (apply length_sum_rows; assumption).
  assert (Hljc : Z.of_nat (length jc) = N)
    by (apply length_sum_rows; assumption).
  (* the bias powers *)
  pose (Inv2 := fun (i : Z) '(ib, jb) =>
    (Z.of_nat (length ib) = N ∧ Z.of_nat (length jb) = N)
    ∧ ∀ k, 0 ≤ k < i →
        ib !! Z.to_nat k
        = bias_pow (LambdarankNDCG.eta_ o) ic !! Z.to_nat k
        ∧ jb !! Z.to_nat k
          = bias_pow (LambdarankNDCG.eta_ o) jc !! Z.to_nat k).
  match goal with
  | |- context [for_range 0 N ?body ?s ≫= _] =>
      assert (Hloop : wp (for_range 0 N body s)
                (fun '(ib, jb) =>
                   ib = bias_pow (LambdarankNDCG.eta_ o) ic
                   ∧ jb = bias_pow (LambdarankNDCG.eta_ o) jc)
                (fun _ => False))
  end.
  { eapply wp_mono;
      [apply (wp_for_range Inv2 (fun _ => False) 0 N);
         [lia | split; [auto | intros; lia] |]
      | | auto].
    - intros i [ib jb] Hi [[Hlib Hljb] Hk].
      destruct (lookup_lt_is_Some_2 ic (Z.to_nat i)) as [ci Eci]; [lia|].
      destruct (lookup_lt_is_Some_2 jc (Z.to_nat i)) as [di Edi]; [lia|].
      destruct (lookup_lt_is_Some_2 ic (Z.to_nat 0)) as [c0 Ec0]; [lia|].
      destruct (lookup_lt_is_Some_2 jc (Z.to_nat 0)) as [d0 Ed0]; [lia|].
      step_rd ci; [exact Eci|]. step_rd c0; [exact Ec0|].
      step_wr; [lia|].
      step_rd di; [exact Edi|]. step_rd d0; [exact Ed0|].
      step_wr; [lia|].
      simpl. rewrite !length_insert. split; [auto|].
      intros k Hki. destruct (Z.eq_dec k i) as [->|Hne].
      + rewrite !list_lookup_insert_eq by lia.
        unfold bias_pow. rewrite !list_lookup_fmap, Eci, Edi. simpl.
        destruct ic as [|x ic']; [discriminate|].
        destruct jc as [|y jc']; [discriminate|].
        simpl in Ec0, Ed0. injection Ec0 as ->. injection Ed0 as ->.
        auto.
      + rewrite !list_lookup_insert_ne by lia. apply Hk. lia.
    - intros [ib jb] [[Hlib Hljb] Hk]. split; apply list_eq; intros k.
      + destruct (Nat.lt_ge_cases k (Z.to_nat N)) as [Hlt|Hge].
        * rewrite <- (Nat2Z.id k). apply Hk. lia.
        * rewrite !(proj2 (lookup_ge_None _ _)); [reflexivity | |lia].
          unfold bias_pow. rewrite length_fmap. lia.
      + destruct (Nat.lt_ge_cases k (Z.to_nat N)) as [Hlt|Hge].
        * rewrite <- (Nat2Z.id k). apply Hk. lia.
        * rewrite !(proj2 (lookup_ge_None _ _)); [reflexivity | |lia].
          unfold bias_pow. rewrite length_fmap. lia. }
  apply wp_total in Hloop as ([ib jb] & -> & -> & ->).
  rewrite ret_bind. cbv beta iota.
  (* the accumulators are cleared *)
  pose (Inv3 := fun (i : Z) '(ic', jc') =>
    (Z.of_nat (length ic') = N ∧ Z.of_nat (length jc') = N)
    ∧ ∀ k, 0 ≤ k < i →
        ic' !! Z.to_nat k = Some 0%float ∧ jc' !! Z.to_nat k = Some 0%float).
  match goal with
  | |- context [for_range 0 N ?body ?s ≫= _] =>
      assert (Hloop : wp (for_range 0 N body s)
                (fun '(ic', jc') => ic' = zeros ∧ jc' = zeros)
                (fun _ => False))
  end.
  { eapply wp_mono;
      [apply (wp_for_range Inv3 (fun _ => False) 0 N);
         [lia | split; [auto | intros; lia] |]
      | | auto].
    - intros i [ic' jc'] Hi [[Hl1 Hl2] Hk].
      step_wr; [lia|]. step_wr; [lia|].
      simpl. rewrite !length_insert. split; [auto|].
      intros k Hki. destruct (Z.eq_dec k i) as [->|Hne].
      + rewrite !list_lookup_insert_eq by lia. auto.
      + rewrite !list_lookup_insert_ne by lia. apply Hk. lia.
    - intros [ic' jc'] [[Hl1 Hl2] Hk]. unfold zeros, n. fold N.
      split; apply all_of_lookup; try assumption;
        intros k Hkn; apply Hk; lia. }
  apply wp_total in Hloop as ([ic' jc'] & -> & -> & ->).
  reflexivity.
Qed.

(** C1, as the code has it. [InitPositionBiasesAndGradients] leaves 1.0 in
    every entry of the two arrays of bias powers. An update overwrites
    entry [r] with [pow(c[r] / c[0], eta)], [c] being the cost accumulator
    once the buffers of the threads are added to it, and nothing guards
    that value: the updated array has no zero entry exactly when none of
    these powers is zero. *)
Theorem C1_bias_powers (o : LambdarankNDCG.t) (m : LambdarankNDCG.biases) :
  let eta := LambdarankNDCG.eta_ o in
  let ic := sum_rows (LambdarankNDCG.i_costs_ m)
                     (LambdarankNDCG.i_costs_buffer_ m) in
  let jc := sum_rows (LambdarankNDCG.j_costs_ m)
                     (LambdarankNDCG.j_costs_buffer_ m) in
  let power c0 c := to_label_t (pow (to_label_t (c / c0)) eta) in
  (0 ≤ LambdarankNDCG.truncation_level_ o →
   ∃ o', LambdarankNDCG.InitPositionBiasesAndGradients o = Ok o'
         ∧ Forall (fun x => x = 1%float)
             (LambdarankNDCG.i_biases_pow_ (LambdarankNDCG.mut o'))
         ∧ Forall (fun x => x = 1%float)
             (LambdarankNDCG.j_biases_pow_ (LambdarankNDCG.mut o')))
  ∧ (shaped o m →
     ∃ m', LambdarankNDCG.UpdatePositionBiasesAndGradients o m = Ok m'
           ∧ LambdarankNDCG.i_biases_pow_ m' = power (hd 0%float ic) <$> ic
           ∧ LambdarankNDCG.j_biases_pow_ m' = power (hd 0%float jc) <$> jc
           ∧ (Forall (fun x => is_zero x = false)
                     (LambdarankNDCG.i_biases_pow_ m')
              ↔ Forall (fun c => is_zero (power (hd 0%float ic) c) = false) ic)
           ∧ (Forall (fun x => is_zero x = false)
                     (LambdarankNDCG.j_biases_pow_ m')
              ↔ Forall (fun c => is_zero (power (hd 0%float jc) c) = false) jc)).
Proof.
  intros eta ic jc power. split.
  - intros Hn. rewrite InitPositionBiasesAndGradients_Ok by exact Hn.
    eexists. split; [reflexivity|].
    split; simpl; apply Forall_replicate; reflexivity.
  - intros Hm. rewrite Update_spec by exact Hm.
    eexists. split; [reflexivity|]. simpl.
    repeat split; try reflexivity;
      unfold bias_pow; fold eta ic jc; rewrite Forall_fmap; auto.
Qed.

(** C2, as the code has it. After an update the two cost accumulators and
    every buffer of every thread hold zeros; the bias power of rank 0 is
    [pow(c / c, eta)] for the cost [c] accumulated at rank 0, which is 1.0
    as soon as [c / c] is, the [pow] of the platform returning 1 for a
    base of 1. *)
Theorem C2_update_resets (o : LambdarankNDCG.t) (m : LambdarankNDCG.biases)
    (Hshaped : shaped o m)
    (Hlevel : 0 < LambdarankNDCG.truncation_level_ o)
    (Hpow : ∀ y, pow 1 y = 1%float)
    (Hone : to_label_t 1 = 1%float) :
  let n := Z.to_nat (LambdarankNDCG.truncation_level_ o) in
  let t := Z.to_nat (LambdarankNDCG.num_threads_ o) in
  let eta := LambdarankNDCG.eta_ o in
  let ic := hd 0%float (sum_rows (LambdarankNDCG.i_costs_ m)
                                 (LambdarankNDCG.i_costs_buffer_ m)) in
  let jc := hd 0%float (sum_rows (LambdarankNDCG.j_costs_ m)
                                 (LambdarankNDCG.j_costs_buffer_ m)) in
  ∃ m', LambdarankNDCG.UpdatePositionBiasesAndGradients o m = Ok m'
        ∧ LambdarankNDCG.i_costs_ m' = replicate n 0%float
        ∧ LambdarankNDCG.j_costs_ m' = replicate n 0%float
        ∧ LambdarankNDCG.i_costs_buffer_ m' = replicate t (replicate n 0%float)
        ∧ LambdarankNDCG.j_costs_buffer_ m' = replicate t (replicate n 0%float)
        ∧ LambdarankNDCG.i_biases_pow_ m' !! 0%nat
          = Some (to_label_t (pow (to_label_t (ic / ic)) eta))
        ∧ LambdarankNDCG.j_biases_pow_ m' !! 0%nat
          = Some (to_label_t (pow (to_label_t (jc / jc)) eta))
        ∧ (to_label_t (ic / ic) = 1%float →
           LambdarankNDCG.i_biases_pow_ m' !! 0%nat = Some 1%float)
        ∧ (to_label_t (jc / jc) = 1%float →
           LambdarankNDCG.j_biases_pow_ m' !! 0%nat = Some 1%float).
Proof.
  intros n t eta ic jc. rewrite Update_spec by exact Hshaped.
  eexists. split; [reflexivity|]. simpl. fold n t eta.
  destruct Hshaped as (_ & _ & Hic & Hjc & _ & _ & Hri & Hrj).
  pose proof (length_sum_rows _ _ _ Hic Hri) as Hli.
  pose proof (length_sum_rows _ _ _ Hjc Hrj) as Hlj.
  assert (Ei : bias_pow eta (sum_rows (LambdarankNDCG.i_costs_ m)
                               (LambdarankNDCG.i_costs_buffer_ m)) !! 0%nat
               = Some (to_label_t (pow (to_label_t (ic / ic)) eta))).
  { unfold ic, bias_pow. clear ic jc. revert Hli.
    destruct (sum_rows (LambdarankNDCG.i_costs_ m) _) as [|c l]; simpl;
      intros Hli; [lia | reflexivity]. }
  assert (Ej : bias_pow eta (sum_rows (LambdarankNDCG.j_costs_ m)
                               (LambdarankNDCG.j_costs_buffer_ m)) !! 0%nat
               = Some (to_label_t (pow (to_label_t (jc / jc)) eta))).
  { unfold jc, bias_pow. clear Ei ic jc. revert Hlj.
    destruct (sum_rows (LambdarankNDCG.j_costs_ m) _) as [|c l]; simpl;
      intros Hlj; [lia | reflexivity]. }
  repeat split; try assumption.
  - intros E1. rewrite Ei, E1, Hpow, Hone. reflexivity.
  - intros E1. rewrite Ej, E1, Hpow, Hone. reflexivity.
Qed.

End PositionBias.

(** ** The sigmoid table *)

Section Sigmoid.
Context `{Libm, Meta, Dcg, OpenMP}.

Lemma rd_table (o : LambdarankNDCG.t) (k : Z) :
  table_built o →
  0 ≤ k < LambdarankNDCG._sigmoid_bins o →
  rd v_sigmoid_table (LambdarankNDCG.sigmoid_table_ o) k
  = Ok (direct_sigmoid o (bin_abscissa o k)).
Proof. intros [_ Hk] Hin. apply rd_Ok. split; [lia | apply Hk, Hin]. Qed.

Lemma rd_past_table (o : LambdarankNDCG.t) (k : Z) :
  table_built o →
  LambdarankNDCG._sigmoid_bins o ≤ k →
  rd v_sigmoid_table (LambdarankNDCG.sigmoid_table_ o) k
  = Fault (OutOfBounds v_sigmoid_table k).
Proof.
  intros [Hlen _] Hk.
  destruct (rd v_sigmoid_table (LambdarankNDCG.sigmoid_table_ o) k)
    as [x|f] eqn:E.
  - apply rd_Ok in E as [_ E]. apply lookup_lt_Some in E. lia.
  - apply rd_fault in E as [-> _]. reflexivity.
Qed.

Lemma GetSigmoid_low (o : LambdarankNDCG.t) (score : float) :
  table_built o → 0 < LambdarankNDCG._sigmoid_bins o →
  (score <=? LambdarankNDCG.min_sigmoid_input_ o)%float = true →
  LambdarankNDCG.GetSigmoid o score = Ok (direct_sigmoid o (bin_abscissa o 0)).
Proof.
  intros Ht Hb Hlow. unfold LambdarankNDCG.GetSigmoid. rewrite Hlow.
  apply rd_table; [exact Ht | lia].
Qed.

Lemma GetSigmoid_high (o : LambdarankNDCG.t) (score : float) :
  table_built o → 0 < LambdarankNDCG._sigmoid_bins o →
  (score <=? LambdarankNDCG.min_sigmoid_input_ o)%float = false →
  (LambdarankNDCG.max_sigmoid_input_ o <=? score)%float = true →
  LambdarankNDCG.GetSigmoid o score
  = Ok (direct_sigmoid o (bin_abscissa o (LambdarankNDCG._sigmoid_bins o - 1))).
Proof.
  intros Ht Hb Hlow Hhigh. unfold LambdarankNDCG.GetSigmoid.
  rewrite Hlow, Hhigh. apply rd_table; [exact Ht | lia].
Qed.

Lemma GetSigmoid_inside (o : LambdarankNDCG.t) (score : float) (k : Z) :
  table_built o →
  (score <=? LambdarankNDCG.min_sigmoid_input_ o)%float = false →
  (LambdarankNDCG.max_sigmoid_input_ o <=? score)%float = false →
  Ieee.trunc ((score - LambdarankNDCG.min_sigmoid_input_ o)
              * LambdarankNDCG.sigmoid_table_idx_factor_ o) = Some k →
  0 ≤ k < LambdarankNDCG._sigmoid_bins o →
  LambdarankNDCG.GetSigmoid o score = Ok (direct_sigmoid o (bin_abscissa o k)).
Proof.
  intros Ht Hlow Hhigh Hk Hin. unfold LambdarankNDCG.GetSigmoid, to_int.
  rewrite Hlow, Hhigh, Hk, ret_bind. apply rd_table; assumption.
Qed.

(** The bin computed for a score below the upper bound can be the first one
    past the table. *)
Lemma GetSigmoid_past (o : LambdarankNDCG.t) (score : float) (k : Z) :
  table_built o →
  (score <=? LambdarankNDCG.min_sigmoid_input_ o)%float = false →
  (LambdarankNDCG.max_sigmoid_input_ o <=? score)%float = false →
  Ieee.trunc ((score - LambdarankNDCG.min_sigmoid_input_ o)
              * LambdarankNDCG.sigmoid_table_idx_factor_ o) = Some k →
  LambdarankNDCG._sigmoid_bins o ≤ k →
  LambdarankNDCG.GetSigmoid o score = Fault (OutOfBounds v_sigmoid_table k).
Proof.
  intros Ht Hlow Hhigh Hk Hin. unfold LambdarankNDCG.GetSigmoid, to_int.
  rewrite Hlow, Hhigh, Hk, ret_bind. apply rd_past_table; assumption.
Qed.

(** C3, as the code has it. On the object that [ConstructSigmoidTable]
    returns, [GetSigmoid] gives the first entry of the table for a score at
    or below [min_sigmoid_input_], the last one for a score at or above
    [max_sigmoid_input_], and otherwise the entry of the bin
    [(score - min_sigmoid_input_) * sigmoid_table_idx_factor_], truncated,
    when that bin is one of the table; the entry of bin [k] is
    [1 / (1 + exp(x * sigmoid_))] at the abscissa [x] of the bin,
    [k / sigmoid_table_idx_factor_ + min_sigmoid_input_], without
    interpolation. *)
Theorem C3_sigmoid_lookup (o o' : LambdarankNDCG.t) (score : float)
    (Hbins : 0 < LambdarankNDCG._sigmoid_bins o)
    (Hbuilt : LambdarankNDCG.ConstructSigmoidTable o = Ok o') :
  let bins := LambdarankNDCG._sigmoid_bins o' in
  let lowest := LambdarankNDCG.min_sigmoid_input_ o' in
  let highest := LambdarankNDCG.max_sigmoid_input_ o' in
  let factor := LambdarankNDCG.sigmoid_table_idx_factor_ o' in
  let entry k := (1 / (1 + exp ((Ieee.of_Z k / factor + lowest)
                               * LambdarankNDCG.sigmoid_ o')))%float in
  (∀ k, 0 ≤ k < bins →
        rd v_sigmoid_table (LambdarankNDCG.sigmoid_table_ o') k = Ok (entry k))
  ∧ ((score <=? lowest)%float = true →
     LambdarankNDCG.GetSigmoid o' score = Ok (entry 0))
  ∧ ((score <=? lowest)%float = false → (highest <=? score)%float = true →
     LambdarankNDCG.GetSigmoid o' score = Ok (entry (bins - 1)))
  ∧ ((score <=? lowest)%float = false → (highest <=? score)%float = false →
     ∀ k, Ieee.trunc ((score - lowest) * factor) = Some k → 0 ≤ k < bins →
          LambdarankNDCG.GetSigmoid o' score = Ok (entry k)).
Proof.
  destruct (ConstructSigmoidTable_Ok o) as (table & E & Ht); [lia|].
  rewrite E in Hbuilt. injection Hbuilt as <-.
  intros bins lowest highest factor entry.
  assert (Hb : 0 < LambdarankNDCG._sigmoid_bins (with_sigmoid_table o table))
    by exact Hbins.
  split; [|split; [|split]].
  - intros k Hk. apply rd_table; assumption.
  - intros Hlow. apply GetSigmoid_low; assumption.
  - intros Hlow Hhigh. apply GetSigmoid_high; assumption.
  - intros Hlow Hhigh k Hk Hin. apply GetSigmoid_inside; assumption.
Qed.

Lemma GetSigmoid_tabulated o score :
  table_built o → 0 < LambdarankNDCG._sigmoid_bins o →
  LambdarankNDCG.GetSigmoid o score = tabulated o score.
Proof.
  intros Ht Hb. unfold tabulated.
  destruct (score <=? LambdarankNDCG.min_sigmoid_input_ o)%float eqn:Hlow;
    [apply GetSigmoid_low; assumption|].
  destruct (LambdarankNDCG.max_sigmoid_input_ o <=? score)%float eqn:Hhigh;
    [apply GetSigmoid_high; assumption|].
  unfold to_int.
  destruct (Ieee.trunc _) as [k|] eqn:Hk.
  - rewrite ret_bind.
    destruct (Z.leb_spec 0 k); [destruct (Z.ltb_spec k (LambdarankNDCG._sigmoid_bins o))|]; simpl.
    + apply (GetSigmoid_inside o score k); try assumption. lia.
    + apply (GetSigmoid_past o score k); assumption.
    + unfold LambdarankNDCG.GetSigmoid, to_int. rewrite Hlow, Hhigh, Hk, ret_bind.
      unfold rd. destruct (Z.ltb_spec k 0); [reflexivity | lia].
  - unfold LambdarankNDCG.GetSigmoid, to_int. rewrite Hlow, Hhigh, Hk. reflexivity.
Qed.

End Sigmoid.

(** ** The gradients of one query *)

Section Query.
Context `{Libm, Meta, Dcg, OpenMP}.

Lemma free_GetSigmoid P o x : free P (LambdarankNDCG.GetSigmoid o x).
Proof. unfold LambdarankNDCG.GetSigmoid. free. Qed.

Lemma kept_refl score a : kept score a a.
Proof. repeat split. Qed.

Lemma kept_trans score a b c : kept score a b → kept score b c → kept score a c.
Proof.
  intros (Hl1 & Hh1 & Hs1) (Hl2 & Hh2 & Hs2). split; [congruence|].
  split; [congruence|]. intros d Hd.
  destruct (Hs1 d Hd) as [E1 E2]. destruct (Hs2 d Hd) as [E3 E4].
  split; congruence.
Qed.

(** The bounds that [in_bounds] gives for what was read from [sorted_idx]. *)
Ltac ranks Hpre :=
  lazymatch type of Hpre with
  | in_bounds ?c ?idx _ _ _ _ =>
      let Hall := fresh "Hall" in
      destruct Hpre as (Hall & ? & ? & ? & ? & ?);
      repeat match goal with
             | Hx : idx !! _ = Some ?x |- _ =>
                 lazymatch goal with
                 | _ : 0 ≤ x < c |- _ => fail
                 | _ => let Hr := fresh "Hr" in
                        pose proof (proj1 (Forall_lookup _ _) Hall _ _ Hx) as Hr;
                        simpl in Hr
                 end
             end
  end.

(** A read or a write in one of the guarded arrays, at the head of the
    computation. *)
Ltac guarded_rd x Hx :=
  apply wp_rd;
  [ let Hout := fresh "Hout" in
    let Hpre := fresh "Hpre" in
    intros Hout Hpre; exfalso; apply Hout; ranks Hpre;
    rewrite ?length_insert; lia
  | let Hin := fresh "Hin" in intros x Hin Hx ].

Ltac guarded_wr :=
  apply wp_wr;
  [ let Hout := fresh "Hout" in
    let Hpre := fresh "Hpre" in
    intros Hout Hpre; exfalso; apply Hout; ranks Hpre;
    rewrite ?length_insert; lia
  | let Hin := fresh "Hin" in intros Hin ].

Ltac free_rd x :=
  apply wp_rd; [ intros _ _; reflexivity | intros x _ _ ].

(** The pair that [pair_terms] returns: the two documents are those of the
    ranks [i] and [j], in one order or the other, and the one of rank [j]
    does not carry the sentinel. *)
Lemma pair_terms_wp o cnt inverse_max_dcg best_score worst_score
    label score sorted_idx nl nh (i j : Z) :
  0 ≤ i < j → j < cnt →
  wp (LambdarankNDCG.pair_terms o inverse_max_dcg best_score worst_score
        label score sorted_idx i j)
     (fun p =>
        match p with
        | None => True
        | Some p =>
            ∃ si sj s,
              sorted_idx !! Z.to_nat i = Some si
              ∧ sorted_idx !! Z.to_nat j = Some sj
              ∧ score !! Z.to_nat sj = Some s
              ∧ (s =? kMinScore)%float = false
              ∧ 0 ≤ si ∧ 0 ≤ sj
              ∧ ((LambdarankNDCG.high p = si ∧ LambdarankNDCG.low p = sj)
                 ∨ (LambdarankNDCG.high p = sj ∧ LambdarankNDCG.low p = si))
        end)
     (fun f => in_bounds cnt sorted_idx label score nl nh → safe f).
Proof.
  intros Hij Hj. unfold LambdarankNDCG.pair_terms.
  guarded_rd sj Hsj. guarded_rd score_j Hscore_j.
  destruct (score_j =? kMinScore)%float eqn:Ej; [exact I|].
  guarded_rd si Hsi. guarded_rd label_i Hlabel_i. guarded_rd label_j Hlabel_j.
  destruct (label_i =? label_j)%float; [exact I|].
  assert (Hends : ∀ hr lr,
            (hr = i ∧ lr = j) ∨ (hr = j ∧ lr = i) →
            ∀ high low, sorted_idx !! Z.to_nat hr = Some high →
                        sorted_idx !! Z.to_nat lr = Some low →
                        (high = si ∧ low = sj) ∨ (high = sj ∧ low = si)).
  { intros hr lr [[-> ->]|[-> ->]] high low Hh Hl;
      [left | right]; split; congruence. }
  assert (Hranks : ∀ hr lr, (hr = i ∧ lr = j) ∨ (hr = j ∧ lr = i) →
                            0 ≤ hr < cnt ∧ 0 ≤ lr < cnt).
  { intros hr lr [[-> ->]|[-> ->]]; lia. }
  set (ranks := if (label_j <? label_i)%float then (i, j) else (j, i)).
  assert (Hcase : (ranks.1 = i ∧ ranks.2 = j) ∨ (ranks.1 = j ∧ ranks.2 = i)).
  { unfold ranks. destruct (label_j <? label_i)%float; simpl; auto. }
  destruct ranks as [high_rank low_rank]. simpl in Hcase.
  destruct (Hranks _ _ Hcase) as [Hhr Hlr].
  guarded_rd high Hhigh. guarded_rd lh Hlh.
  apply wp_to_int; [intros _; exact I | intros high_label].
  guarded_rd high_score Hhs. free_rd high_label_gain.
  guarded_rd low Hlow. guarded_rd ll Hll.
  apply wp_to_int; [intros _; exact I | intros low_label].
  guarded_rd low_score Hls. free_rd low_label_gain.
  apply wp_bind_free; [apply free_GetSigmoid | intros p_lambda].
  simpl. exists si, sj, score_j.
  repeat split; try assumption; try lia.
  apply (Hends _ _ Hcase _ _ Hhigh Hlow).
Qed.

Lemma free_charge P o tid p m : free P (LambdarankNDCG.charge o tid p m).
Proof. unfold LambdarankNDCG.charge. free. Qed.

Lemma free_debiased P o m p : free P (LambdarankNDCG.debiased o m p).
Proof. unfold LambdarankNDCG.debiased. free. Qed.

(** The body of the loop over [j] keeps the sizes of the output slice and
    the entries of the documents that carry the sentinel, provided the
    document of rank [i] does not; its faults are not accesses outside the
    five arrays of the query. *)
Lemma pair_wp o tid cnt inverse_max_dcg best_score worst_score
    label score sorted_idx nl nh (i j : Z) (a : LambdarankNDCG.pairs) :
  0 ≤ i < j → j < cnt →
  length (LambdarankNDCG.acc_lambdas a) = nl →
  length (LambdarankNDCG.acc_hessians a) = nh →
  wp (LambdarankNDCG.pair o tid inverse_max_dcg best_score worst_score
        label score sorted_idx i j a)
     (fun a' => ranked sorted_idx score i → kept score a a')
     (fun f => in_bounds cnt sorted_idx label score nl nh → safe f).
Proof.
  intros Hij Hj Hnl Hnh. unfold LambdarankNDCG.pair.
  apply wp_bind.
  eapply wp_mono;
    [apply (pair_terms_wp o cnt _ _ _ label score sorted_idx nl nh i j Hij Hj)
    | | auto].
  intros [p|]; [|intros _ _; apply kept_refl].
  intros (si & sj & s & Hsi & Hsj & Hs & Hns & Hsi0 & Hsj0 & Hends).
  apply wp_bind_free; [apply free_charge | intros m].
  apply wp_bind_free; [apply free_debiased | intros [p_lambda p_hessian]].
  guarded_rd x Hx. guarded_wr. guarded_rd y Hy. guarded_wr.
  guarded_rd x' Hx'. guarded_wr. guarded_rd y' Hy'. guarded_wr.
  simpl. intros Hi. unfold kept. simpl.
  rewrite !length_insert. split; [reflexivity|]. split; [reflexivity|].
  intros d (s' & Hd & Hs').
  assert (Hdl : d ≠ Z.to_nat si ∧ d ≠ Z.to_nat sj).
  { split; intros ->.
    - rewrite (Hi si s' Hsi Hd) in Hs'. discriminate.
    - congruence. }
  destruct Hdl as [Hdi Hdj].
  rewrite !list_lookup_insert_ne
    by (destruct Hends as [[E1 E2]|[E1 E2]]; congruence).
  auto.
Qed.

(** The loop that clears the output slice. *)
Lemma zero_init_wp (cnt : Z) (lambdas hessians : list float) :
  wp (for_range 0 cnt (fun i '(lambdas, hessians) =>
        lambdas ← wr v_lambdas lambdas i 0%float;
        hessians ← wr v_hessians hessians i 0%float;
        Ok (lambdas, hessians)) (lambdas, hessians))
     (fun '(l, h) =>
        length l = length lambdas ∧ length h = length hessians
        ∧ cnt ≤ Z.of_nat (length lambdas) ∧ cnt ≤ Z.of_nat (length hessians)
        ∧ ∀ d, 0 ≤ d < cnt →
            l !! Z.to_nat d = Some 0%float ∧ h !! Z.to_nat d = Some 0%float)
     (fun f => ¬ (cnt ≤ Z.of_nat (length lambdas)
                  ∧ cnt ≤ Z.of_nat (length hessians))).
Proof.
  destruct (Z.le_gt_cases 0 cnt) as [Hc|Hc].
  - eapply wp_mono;
      [apply (wp_for_range
                (fun i '(l, h) =>
                   length l = length lambdas ∧ length h = length hessians
                   ∧ i ≤ Z.of_nat (length lambdas)
                   ∧ i ≤ Z.of_nat (length hessians)
                   ∧ ∀ d, 0 ≤ d < i →
                       l !! Z.to_nat d = Some 0%float
                       ∧ h !! Z.to_nat d = Some 0%float)
                (fun f => ¬ (cnt ≤ Z.of_nat (length lambdas)
                             ∧ cnt ≤ Z.of_nat (length hessians)))
                0 cnt); [exact Hc | | ]
      | | auto].
    + repeat split; try lia.
    + intros i [l h] Hi (Hl & Hh & Hil & Hih & Hz).
      apply wp_wr; [intros Hout; lia | intros Hin].
      apply wp_wr; [intros Hout; lia | intros Hin'].
      simpl. rewrite !length_insert.
      repeat split; try lia; destruct (Z.eq_dec d i) as [->|Hne];
        try (rewrite list_lookup_insert_eq by lia; reflexivity);
        rewrite list_lookup_insert_ne by lia; apply Hz; lia.
    + intros [l h] (Hl & Hh & Hil & Hih & Hz). auto.
  - rewrite for_range_empty by lia. simpl.
    repeat split; try lia.
Qed.

Lemma by_score_wp (cnt : Z) (score : list float) (a b : Z) :
  wp (LambdarankNDCG.by_score score a b) (fun _ => True)
     (fun f => ¬ (0 ≤ a < cnt ∧ 0 ≤ b < cnt ∧ cnt ≤ Z.of_nat (length score))).
Proof.
  unfold LambdarankNDCG.by_score.
  apply wp_rd; [intros Hout; lia | intros x _ _].
  apply wp_rd; [intros Hout; lia | intros y _ _]. exact I.
Qed.

Lemma insert_sorted_wp (cnt : Z) (score : list float) (a : Z) (l : list Z) :
  wp (insert_sorted (LambdarankNDCG.by_score score) a l)
     (fun r => r ≡ₚ a :: l)
     (fun f => ¬ (0 ≤ a < cnt ∧ Forall (fun x => 0 ≤ x < cnt) l
                  ∧ cnt ≤ Z.of_nat (length score))).
Proof.
  induction l as [|b l IH]; simpl; [reflexivity|].
  apply wp_bind.
  eapply wp_mono; [apply (by_score_wp cnt score b a) | | ].
  - intros [] _.
    + apply wp_bind. eapply wp_mono; [exact IH | | ].
      * intros r Hr. simpl. rewrite Hr. apply Permutation_swap.
      * intros f Hf (Ha & Hl & Hs). apply Hf.
        apply Forall_cons in Hl as [_ Hl]. auto.
    + simpl. reflexivity.
  - intros f Hf (Ha & Hl & Hs). apply Hf.
    apply Forall_cons in Hl as [Hb _]. auto.
Qed.

Lemma stable_sort_wp (cnt : Z) (score : list float) (l : list Z) :
  wp (stable_sort (LambdarankNDCG.by_score score) l)
     (fun r => r ≡ₚ l)
     (fun f => ¬ (Forall (fun x => 0 ≤ x < cnt) l
                  ∧ cnt ≤ Z.of_nat (length score))).
Proof.
  induction l as [|a l IH]; simpl; [reflexivity|].
  apply wp_bind. eapply wp_mono; [exact IH | | ].
  - intros r Hr.
    eapply wp_mono; [apply (insert_sorted_wp cnt score a r) | | ].
    + intros r' Hr'. rewrite Hr', Hr. reflexivity.
    + intros f Hf (Hl & Hs). apply Hf.
      apply Forall_cons in Hl as [Ha Hl]. rewrite Hr. auto.
  - intros f Hf (Hl & Hs). apply Hf.
    apply Forall_cons in Hl as [_ Hl]. auto.
Qed.

(** The ranks of a query: the documents [0 .. cnt - 1] in some order. *)
Lemma sorted_idx_wp (cnt : Z) (score : list float) :
  wp (sorted_idx ← vector cnt 0;
      sorted_idx ← for_range 0 cnt (fun i sorted_idx =>
                     wr v_sorted_idx sorted_idx i i) sorted_idx;
      stable_sort (LambdarankNDCG.by_score score) sorted_idx)
     (fun r => 0 ≤ cnt ∧ Forall (fun x => 0 ≤ x < cnt) r
               ∧ Z.of_nat (length r) = cnt)
     (fun f => ¬ (0 ≤ cnt ∧ cnt ≤ Z.of_nat (length score))).
Proof.
  unfold vector. destruct (Z.ltb_spec cnt 0) as [Hc|Hc]; [simpl; lia|].
  rewrite ret_bind.
  destruct (for_range_fill v_sorted_idx (fun i => i) cnt
              (replicate (Z.to_nat cnt) 0)) as (l & -> & Hlen & Hk).
  { rewrite length_replicate. lia. }
  rewrite ret_bind.
  assert (Hall : Forall (fun x => 0 ≤ x < cnt) l).
  { apply Forall_lookup. intros k x Hx.
    pose proof (lookup_lt_Some _ _ _ Hx) as Hlt.
    rewrite <- (Nat2Z.id k), Hk in Hx by lia. injection Hx as <-. lia. }
  eapply wp_mono; [apply (stable_sort_wp cnt score l) | | ].
  - intros r Hr. split; [exact Hc|]. rewrite Hr. auto.
  - intros f Hf [_ Hs]. apply Hf. auto.
Qed.

Lemma rescaled_lookup (cnt : nat) (factor : float) (l : list float) x :
  l !! cnt = Some x →
  (((fun x => to_score_t (x * factor)) <$> take cnt l) ++ drop cnt l) !! cnt
  = Some x.
Proof.
  intros Hx. pose proof (lookup_lt_Some _ _ _ Hx).
  rewrite lookup_app_r; rewrite length_fmap, length_take; [|lia].
  replace (cnt - _)%nat with 0%nat by lia.
  rewrite lookup_drop, Nat.add_0_r. exact Hx.
Qed.

Lemma rescaled_step (cnt : nat) (factor : float) (l : list float) x :
  l !! cnt = Some x →
  <[cnt := to_score_t (x * factor)]>
    (((fun x => to_score_t (x * factor)) <$> take cnt l) ++ drop cnt l)
  = ((fun x => to_score_t (x * factor)) <$> take (S cnt) l) ++ drop (S cnt) l.
Proof.
  intros Hx. pose proof (lookup_lt_Some _ _ _ Hx).
  rewrite insert_app_r_alt; rewrite length_fmap, length_take; [|lia].
  replace (cnt - _)%nat with 0%nat by lia.
  rewrite (drop_S _ _ _ Hx), (take_S_r _ _ _ Hx), fmap_app, <- app_assoc.
  reflexivity.
Qed.

Lemma length_rescaled cnt factor l : length (rescaled cnt factor l) = length l.
Proof.
  unfold rescaled. rewrite length_app, length_fmap, length_take, length_drop.
  lia.
Qed.

(** The loop of the normalization. *)
Lemma normalize_wp (cnt : Z) (a : LambdarankNDCG.pairs) :
  let factor := norm_factor (LambdarankNDCG.acc_sum_lambdas a) in
  wp (LambdarankNDCG.normalize cnt a)
     (fun '(l, h) =>
        l = rescaled cnt factor (LambdarankNDCG.acc_lambdas a)
        ∧ h = rescaled cnt factor (LambdarankNDCG.acc_hessians a))
     (fun f => ¬ (cnt ≤ Z.of_nat (length (LambdarankNDCG.acc_lambdas a))
                  ∧ cnt ≤ Z.of_nat (length (LambdarankNDCG.acc_hessians a)))).
Proof.
  intros factor. unfold LambdarankNDCG.normalize. fold (norm_factor (LambdarankNDCG.acc_sum_lambdas a)).
  fold factor.
  set (l0 := LambdarankNDCG.acc_lambdas a).
  set (h0 := LambdarankNDCG.acc_hessians a).
  destruct (Z.le_gt_cases 0 cnt) as [Hc|Hc].
  - apply (wp_for_range
             (fun i '(l, h) => l = rescaled i factor l0 ∧ h = rescaled i factor h0)
             _ 0 cnt); [exact Hc | split; unfold rescaled; simpl; rewrite drop_0; reflexivity |].
    intros i [l h] Hi [-> ->].
    apply wp_rd; [rewrite length_rescaled; intros Hout; lia | intros x Hin Hx].
    apply wp_wr; [rewrite length_rescaled; intros Hout; lia | intros _].
    apply wp_rd; [rewrite length_rescaled; intros Hout; lia | intros y Hin' Hy].
    apply wp_wr; [rewrite length_rescaled; intros Hout; lia | intros _].
    simpl. rewrite length_rescaled in Hin, Hin'.
    destruct (lookup_lt_is_Some_2 l0 (Z.to_nat i)) as [x0 Hx0]; [lia|].
    destruct (lookup_lt_is_Some_2 h0 (Z.to_nat i)) as [y0 Hy0]; [lia|].
    unfold rescaled in Hx, Hy |- *.
    rewrite (rescaled_lookup _ _ _ _ Hx0) in Hx. injection Hx as <-.
    rewrite (rescaled_lookup _ _ _ _ Hy0) in Hy. injection Hy as <-.
    replace (Z.to_nat (i + 1)) with (S (Z.to_nat i)) by lia.
    rewrite (rescaled_step _ _ _ _ Hx0), (rescaled_step _ _ _ _ Hy0). auto.
  - rewrite for_range_empty by lia. simpl. unfold rescaled.
    replace (Z.to_nat cnt) with 0%nat by lia. simpl. rewrite !drop_0. auto.
Qed.


(** The pairs of a query, accumulated: the sizes of the output slice are
    those on entry, the query had a document, and the documents that carry
    the sentinel have the zeros of the initialization; no fault is an access
    outside the five arrays of the query when these have [cnt >= 1] entries
    at least. *)
Lemma accumulate_wp o (query_id cnt : Z) (label score lambdas hessians : list float)
    (m : LambdarankNDCG.biases) :
  wp (LambdarankNDCG.accumulate o query_id cnt label score lambdas hessians m)
     (fun a =>
        length (LambdarankNDCG.acc_lambdas a) = length lambdas
        ∧ length (LambdarankNDCG.acc_hessians a) = length hessians
        ∧ 1 ≤ cnt
        ∧ cnt ≤ Z.of_nat (length lambdas)
        ∧ cnt ≤ Z.of_nat (length hessians)
        ∧ ∀ d, 0 ≤ d < cnt → sentinel score (Z.to_nat d) →
            LambdarankNDCG.acc_lambdas a !! Z.to_nat d = Some 0%float
            ∧ LambdarankNDCG.acc_hessians a !! Z.to_nat d = Some 0%float)
     (fun f => fits cnt label score lambdas hessians → safe f).
Proof.
  unfold LambdarankNDCG.accumulate.
  apply wp_rd; [intros _ _; reflexivity | intros inverse_max_dcg _ _].
  apply wp_bind.
  eapply wp_mono; [apply zero_init_wp | | intros f Hf Hfits; exfalso; apply Hf;
                                        unfold fits in Hfits; lia].
  intros [l h] (Hl & Hh & Hcl & Hch & Hzero).
  unfold vector. destruct (Z.ltb_spec cnt 0) as [Hc|Hc]; [simpl; intros _; exact I|].
  rewrite ret_bind.
  destruct (for_range_fill v_sorted_idx (fun i => i) cnt
              (replicate (Z.to_nat cnt) 0)) as (l0 & -> & Hlen0 & Hk).
  { rewrite length_replicate. lia. }
  rewrite ret_bind.
  assert (Hall0 : Forall (fun x => 0 ≤ x < cnt) l0).
  { apply Forall_lookup. intros k x Hx.
    pose proof (lookup_lt_Some _ _ _ Hx) as Hlt.
    rewrite <- (Nat2Z.id k), Hk in Hx by lia. injection Hx as <-. lia. }
  apply wp_bind.
  eapply wp_mono; [apply (stable_sort_wp cnt score l0) | |
                   intros f Hf Hfits; exfalso; apply Hf;
                   unfold fits in Hfits; split; [exact Hall0 | lia]].
  intros sorted_idx Hperm.
  assert (Hall : Forall (fun x => 0 ≤ x < cnt) sorted_idx)
    by (rewrite Hperm; exact Hall0).
  assert (Hlen : Z.of_nat (length sorted_idx) = cnt)
    by (rewrite Hperm; exact Hlen0).
  clear l0 Hlen0 Hk Hall0 Hperm.
  assert (Hrank : ∀ k x, sorted_idx !! k = Some x → 0 ≤ x < cnt).
  { intros k x Hx. exact (proj1 (Forall_lookup _ _) Hall _ _ Hx). }
  (* best and worst score *)
  apply wp_rd; [intros Hout Hfits; exfalso; apply Hout; unfold fits in Hfits; lia
               | intros best Hone Hbest].
  apply wp_rd; [intros Hout Hfits; exfalso; apply Hout; unfold fits in Hfits;
                pose proof (Hrank _ _ Hbest); lia
               | intros best_score _ _].
  apply wp_bind.
  apply (wp_mono _ (fun w => 0 ≤ w < cnt) _ (fun f => fits cnt label score lambdas hessians → safe f)).
  { destruct (Z.ltb_spec 0 (cnt - 1)) as [Hw|Hw].
    - apply wp_rd; [intros Hout Hfits; exfalso; apply Hout; lia | intros w _ Hw'].
      apply wp_rd; [intros Hout Hfits; exfalso; apply Hout; unfold fits in Hfits;
                    pose proof (Hrank _ _ Hw'); lia
                   | intros s _ _].
      simpl. destruct (s =? kMinScore)%float; lia.
    - simpl. lia. }
  2: auto.
  intros worst_idx Hworst.
  apply wp_rd; [intros Hout Hfits; exfalso; apply Hout; lia | intros w _ Hw].
  apply wp_rd; [intros Hout Hfits; exfalso; apply Hout; unfold fits in Hfits;
                pose proof (Hrank _ _ Hw); lia
               | intros worst_score _ _].
  (* the pairs *)
  set (a0 := {| LambdarankNDCG.acc_lambdas := l; LambdarankNDCG.acc_hessians := h;
                LambdarankNDCG.acc_sum_lambdas := 0%float;
                LambdarankNDCG.acc_costs := m |}).
  eapply wp_mono;
    [apply (wp_for_range_inv (kept score a0)
              (fun f => fits cnt label score lambdas hessians → safe f));
       [apply kept_refl|] | | auto].
  - intros i a Hi Ha.
    apply wp_rd; [intros Hout Hfits; exfalso; apply Hout; lia | intros si _ Hsi].
    apply wp_rd; [intros Hout Hfits; exfalso; apply Hout; unfold fits in Hfits;
                  pose proof (Hrank _ _ Hsi); lia
                 | intros score_i _ Hscore_i].
    destruct (score_i =? kMinScore)%float eqn:Ei; [exact Ha|].
    apply wp_for_range_inv; [exact Ha|].
    intros j a' Hj Ha'.
    pose proof Ha' as (Hl' & Hh' & Hs').
    eapply wp_mono;
      [apply (pair_wp o _ cnt _ _ _ label score sorted_idx
                (length l) (length h) i j a');
         [lia | lia | rewrite Hl'; reflexivity | rewrite Hh'; reflexivity]
      | | ].
    + intros a'' Hkept. apply (kept_trans _ _ a'); [exact Ha'|].
      apply Hkept. intros si' s' Hsi' Hs''.
      rewrite Hsi in Hsi'. injection Hsi' as <-.
      rewrite Hscore_i in Hs''. injection Hs'' as <-. exact Ei.
    + intros f Hf Hfits. apply Hf. unfold fits in Hfits. unfold in_bounds.
      repeat split; try assumption; lia.
  - intros a (Hla & Hha & Hsa). simpl in Hla, Hha.
    split; [lia|]. split; [lia|]. split; [lia|]. split; [lia|].
    split; [lia|]. intros d Hd Hsent.
    destruct (Hsa _ Hsent) as [-> ->]. simpl. apply Hzero, Hd.
Qed.

Lemma rescaled_lt (cnt : Z) (factor : float) (l : list float) (d : Z) x :
  0 ≤ d < cnt → l !! Z.to_nat d = Some x →
  rescaled cnt factor l !! Z.to_nat d = Some (to_score_t (x * factor)).
Proof.
  intros Hd Hx. pose proof (lookup_lt_Some _ _ _ Hx). unfold rescaled.
  rewrite lookup_app_l by (rewrite length_fmap, length_take; lia).
  rewrite list_lookup_fmap, lookup_take_lt by lia. rewrite Hx. reflexivity.
Qed.

(** What [GetGradientsForOneQuery] returns once the pairs are accumulated. *)
Lemma pairwise_query_spec o (query_id cnt : Z)
    (label score lambdas hessians : list float) (m : LambdarankNDCG.biases) a :
  LambdarankNDCG.accumulate o query_id cnt label score lambdas hessians m
  = Ok a →
  let sum_lambdas := LambdarankNDCG.acc_sum_lambdas a in
  LambdarankNDCG.GetGradientsForOneQuery
    o query_id cnt label score lambdas hessians m
  = Ok (if LambdarankNDCG.norm_ o && (0 <? sum_lambdas)%float
        then (rescaled cnt (norm_factor sum_lambdas)
                (LambdarankNDCG.acc_lambdas a),
              rescaled cnt (norm_factor sum_lambdas)
                (LambdarankNDCG.acc_hessians a),
              LambdarankNDCG.acc_costs a)
        else (LambdarankNDCG.acc_lambdas a, LambdarankNDCG.acc_hessians a,
              LambdarankNDCG.acc_costs a)).
Proof.
  intros Hacc sum_lambdas.
  pose proof (accumulate_wp o query_id cnt label score lambdas hessians m)
    as Hwp.
  rewrite Hacc in Hwp. simpl in Hwp.
  destruct Hwp as (Hl & Hh & Hc & Hcl & Hch & _).
  unfold LambdarankNDCG.GetGradientsForOneQuery. rewrite Hacc, ret_bind.
  fold sum_lambdas.
  destruct (LambdarankNDCG.norm_ o && (0 <? sum_lambdas)%float);
    [|reflexivity].
  pose proof (normalize_wp cnt a) as Hn.
  destruct (LambdarankNDCG.normalize cnt a) as [[l h]|f].
  - destruct Hn as [-> ->]. reflexivity.
  - exfalso. apply Hn. lia.
Qed.

(** C5. Once the pairs of the query are accumulated: with the normalization
    enabled and a [sum_lambdas] above zero, the lambda and the hessian of
    every document of the query are the accumulated ones times
    [log2(1 + sum_lambdas) / sum_lambdas], converted to [score_t]; with the
    normalization disabled, or a [sum_lambdas] equal to zero, they are the
    accumulated ones. *)
Theorem C5_normalization o (query_id cnt : Z)
    (label score lambdas hessians : list float) (m : LambdarankNDCG.biases) a
    (Hacc : LambdarankNDCG.accumulate
              o query_id cnt label score lambdas hessians m = Ok a) :
  let sum_lambdas := LambdarankNDCG.acc_sum_lambdas a in
  let factor := (log2 (1 + sum_lambdas) / sum_lambdas)%float in
  ∃ lambdas' hessians',
    LambdarankNDCG.GetGradientsForOneQuery
      o query_id cnt label score lambdas hessians m
    = Ok (lambdas', hessians', LambdarankNDCG.acc_costs a)
    ∧ (LambdarankNDCG.norm_ o = true → (0 <? sum_lambdas)%float = true →
       ∀ d, 0 ≤ d < cnt →
         ∃ x y,
           LambdarankNDCG.acc_lambdas a !! Z.to_nat d = Some x
           ∧ LambdarankNDCG.acc_hessians a !! Z.to_nat d = Some y
           ∧ lambdas' !! Z.to_nat d = Some (to_score_t (x * factor))
           ∧ hessians' !! Z.to_nat d = Some (to_score_t (y * factor)))
    ∧ (LambdarankNDCG.norm_ o = false ∨ (sum_lambdas =? 0)%float = true →
       lambdas' = LambdarankNDCG.acc_lambdas a
       ∧ hessians' = LambdarankNDCG.acc_hessians a).
Proof.
  intros sum_lambdas factor.
  pose proof (accumulate_wp o query_id cnt label score lambdas hessians m)
    as Hwp.
  rewrite Hacc in Hwp. simpl in Hwp.
  destruct Hwp as (Hl & Hh & Hc & Hcl & Hch & _).
  rewrite (pairwise_query_spec _ _ _ _ _ _ _ _ _ Hacc). fold sum_lambdas.
  destruct (LambdarankNDCG.norm_ o) eqn:En;
    destruct (0 <? sum_lambdas)%float eqn:Es; simpl;
    eexists _, _; (split; [reflexivity|]); split;
    try (intros; discriminate);
    try (intros [?| Hz]; [discriminate|];
         apply IeeeFacts.zero_not_positive in Hz;
         rewrite Hz in Es; discriminate);
    try (intros _; split; reflexivity).
  intros _ _ d Hd.
  destruct (lookup_lt_is_Some_2 (LambdarankNDCG.acc_lambdas a) (Z.to_nat d))
    as [x Hx]; [lia|].
  destruct (lookup_lt_is_Some_2 (LambdarankNDCG.acc_hessians a) (Z.to_nat d))
    as [y Hy]; [lia|].
  exists x, y. split; [exact Hx|]. split; [exact Hy|].
  split; apply rescaled_lt; assumption.
Qed.

(** C10. With at least one document, and [cnt] entries at least in [label],
    [score], [lambdas] and [hessians], [GetGradientsForOneQuery] makes no
    access outside [sorted_idx], [score], [label], [lambdas] and [hessians];
    with no document it reads [sorted_idx[0]] in an empty vector. *)
Theorem C10_bounds o (query_id cnt : Z)
    (label score lambdas hessians : list float) (m : LambdarankNDCG.biases) :
  (1 ≤ cnt →
   cnt ≤ Z.of_nat (length label) → cnt ≤ Z.of_nat (length score) →
   cnt ≤ Z.of_nat (length lambdas) → cnt ≤ Z.of_nat (length hessians) →
   ∀ v i, guarded v = true →
     LambdarankNDCG.GetGradientsForOneQuery
       o query_id cnt label score lambdas hessians m
     ≠ Fault (OutOfBounds v i))
  ∧ (cnt = 0 →
     ∀ d, rd v_inverse_max_dcgs (LambdarankNDCG.inverse_max_dcgs_ o) query_id
          = Ok d →
       LambdarankNDCG.GetGradientsForOneQuery
         o query_id cnt label score lambdas hessians m
       = Fault (OutOfBounds v_sorted_idx 0)).
Proof.
  split.
  - intros Hc Hlabel Hscore Hlambdas Hhessians v i Hv Hrun.
    assert (Hfits : fits cnt label score lambdas hessians)
      by (repeat split; assumption).
    pose proof (accumulate_wp o query_id cnt label score lambdas hessians m)
      as Hwp.
    destruct (LambdarankNDCG.accumulate
                o query_id cnt label score lambdas hessians m)
      as [a|f] eqn:Hacc.
    + rewrite (pairwise_query_spec _ _ _ _ _ _ _ _ _ Hacc) in Hrun.
      discriminate.
    + unfold LambdarankNDCG.GetGradientsForOneQuery in Hrun.
      rewrite Hacc in Hrun. injection Hrun as ->.
      specialize (Hwp Hfits). simpl in Hwp. congruence.
  - intros -> d Hd.
    unfold LambdarankNDCG.GetGradientsForOneQuery, LambdarankNDCG.accumulate.
    rewrite Hd. reflexivity.
Qed.

(** C7, as the code has it. In what [GetGradientsForOneQuery] returns, a
    document that carries the sentinel score has the lambda and the hessian
    with which it left the loop over the pairs, an exact zero each (the
    document is skipped as [i] and as [j]), multiplied by the factor of the
    normalization when the function rescales: a zero again for a finite
    factor, a NaN otherwise. *)
Theorem C7_sentinel o (query_id cnt : Z)
    (label score lambdas hessians : list float) (m : LambdarankNDCG.biases)
    lambdas' hessians' m' (d : Z)
    (Hcast : ∀ x, is_zero x = true → is_zero (to_score_t x) = true)
    (Hrun : LambdarankNDCG.GetGradientsForOneQuery
              o query_id cnt label score lambdas hessians m
            = Ok (lambdas', hessians', m'))
    (Hd : 0 ≤ d < cnt)
    (Hsentinel : sentinel score (Z.to_nat d)) :
  ∃ a, LambdarankNDCG.accumulate o query_id cnt label score lambdas hessians m
       = Ok a
       ∧ LambdarankNDCG.acc_lambdas a !! Z.to_nat d = Some 0%float
       ∧ LambdarankNDCG.acc_hessians a !! Z.to_nat d = Some 0%float
       ∧ let sum_lambdas := LambdarankNDCG.acc_sum_lambdas a in
         let rescaling :=
           LambdarankNDCG.norm_ o && (0 <? sum_lambdas)%float in
         let factor := (log2 (1 + sum_lambdas) / sum_lambdas)%float in
         ∃ x y, lambdas' !! Z.to_nat d = Some x
                ∧ hessians' !! Z.to_nat d = Some y
                ∧ (rescaling = false ∨ Ieee.finite factor = true →
                   is_zero x = true ∧ is_zero y = true)
                ∧ (rescaling = true → Ieee.finite factor = false →
                   x = to_score_t nan ∧ y = to_score_t nan).
Proof.
  pose proof (accumulate_wp o query_id cnt label score lambdas hessians m)
    as Hwp.
  destruct (LambdarankNDCG.accumulate
              o query_id cnt label score lambdas hessians m)
    as [a|f] eqn:Hacc;
    [|unfold LambdarankNDCG.GetGradientsForOneQuery in Hrun;
      rewrite Hacc in Hrun; discriminate].
  simpl in Hwp. destruct Hwp as (Hl & Hh & Hc & Hcl & Hch & Hzero).
  destruct (Hzero d Hd Hsentinel) as [Hx Hy].
  exists a. split; [reflexivity|]. split; [exact Hx|]. split; [exact Hy|].
  intros sum_lambdas rescaling factor.
  rewrite (pairwise_query_spec _ _ _ _ _ _ _ _ _ Hacc) in Hrun.
  fold sum_lambdas rescaling in Hrun.
  destruct rescaling; injection Hrun as <- <- <-.
  - exists (to_score_t (0 * factor)), (to_score_t (0 * factor)).
    split; [apply rescaled_lt; assumption|].
    split; [apply rescaled_lt; assumption|]. split.
    + intros [?|Hfinite]; [discriminate|].
      assert (Hz : is_zero (0 * factor) = true)
        by (apply IeeeFacts.mul_zero_finite; [reflexivity | exact Hfinite]).
      split; apply Hcast, Hz.
    + intros _ Hfinite.
      rewrite (IeeeFacts.mul_zero_not_finite 0 factor eq_refl Hfinite). auto.
  - exists 0%float, 0%float. split; [exact Hx|]. split; [exact Hy|].
    split; [intros _; split; reflexivity | discriminate].
Qed.

(** C4, as the code has it. Two documents of a query have the same score and
    are the two sides of a pair. Exchanging their positions leaves the scores,
    and so the ranks, as they are, and exchanges the labels of the two ranks:
    the pair is again one, with [high_rank] and [low_rank] exchanged, and its
    lambda and hessian are the same ones, provided that the two ranks have
    the same bias powers ([i_biases_pow_] and [j_biases_pow_] divide by
    rank). *)
Theorem C4_tie_symmetry o (m : LambdarankNDCG.biases)
    (inverse_max_dcg best_score worst_score : float)
    (label score : list float) (sorted_idx : list Z) (i j si sj : Z)
    (s : float) p (lambda hessian : float)
    (Hi : rd v_sorted_idx sorted_idx i = Ok si)
    (Hj : rd v_sorted_idx sorted_idx j = Ok sj)
    (Hsi : rd v_score score si = Ok s)
    (Hsj : rd v_score score sj = Ok s)
    (Hib : rd v_i_biases_pow (LambdarankNDCG.i_biases_pow_ m) i
           = rd v_i_biases_pow (LambdarankNDCG.i_biases_pow_ m) j)
    (Hjb : rd v_j_biases_pow (LambdarankNDCG.j_biases_pow_ m) i
           = rd v_j_biases_pow (LambdarankNDCG.j_biases_pow_ m) j)
    (Hterms : LambdarankNDCG.pair_terms o inverse_max_dcg best_score
                worst_score label score sorted_idx i j = Ok (Some p))
    (Hpair : LambdarankNDCG.debiased o m p = Ok (lambda, hessian)) :
  swapped si sj score = score
  ∧ ∃ p', LambdarankNDCG.pair_terms o inverse_max_dcg best_score worst_score
            (swapped si sj label) (swapped si sj score) sorted_idx i j
          = Ok (Some p')
          ∧ LambdarankNDCG.high_rank p' = LambdarankNDCG.low_rank p
          ∧ LambdarankNDCG.low_rank p' = LambdarankNDCG.high_rank p
          ∧ LambdarankNDCG.high p' = LambdarankNDCG.low p
          ∧ LambdarankNDCG.low p' = LambdarankNDCG.high p
          ∧ LambdarankNDCG.debiased o m p' = Ok (lambda, hessian).
Proof.
  rewrite (swapped_tie v_score score si sj s Hsi Hsj).
  split; [reflexivity|].
  unfold LambdarankNDCG.pair_terms in Hterms |- *.
  rewrite Hj, ret_bind, Hsj, ret_bind in Hterms |- *.
  destruct (s =? kMinScore)%float; [discriminate Hterms|].
  rewrite Hi, ret_bind in Hterms |- *.
  destruct (rd v_label label si) as [label_i|] eqn:Eli;
    [rewrite ret_bind in Hterms | discriminate Hterms].
  destruct (rd v_label label sj) as [label_j|] eqn:Elj;
    [rewrite ret_bind in Hterms | discriminate Hterms].
  destruct (rd_swapped v_label label si sj label_i label_j Eli Elj)
    as [Eli' Elj'].
  rewrite Eli', ret_bind, Elj', ret_bind.
  destruct (label_i =? label_j)%float eqn:Hne; [discriminate Hterms|].
  rewrite (IeeeFacts.eqb_sym label_j label_i), Hne.
  assert (Hflip : ∀ a b, Ieee.trunc label_i = Some a →
                         Ieee.trunc label_j = Some b →
            (label_i <? label_j)%float = negb (label_j <? label_i)%float).
  { intros a b Ha Hb. apply (IeeeFacts.ltb_flip label_j label_i b a Hb Ha).
    rewrite IeeeFacts.eqb_sym. exact Hne. }
  destruct (label_j <? label_i)%float eqn:Hlt.
  - rewrite Hi, ret_bind, Eli, ret_bind in Hterms.
    destruct (to_int label_i) as [hl|] eqn:Ehl;
      [rewrite ret_bind in Hterms | discriminate Hterms].
    rewrite Hsi, ret_bind in Hterms.
    destruct (rd v_label_gain (LambdarankNDCG.label_gain_ o) hl)
      as [hg|] eqn:Ehg; [rewrite ret_bind in Hterms | discriminate Hterms].
    rewrite Hj, ret_bind, Elj, ret_bind in Hterms.
    destruct (to_int label_j) as [ll|] eqn:Ell;
      [rewrite ret_bind in Hterms | discriminate Hterms].
    rewrite Hsj, ret_bind in Hterms.
    destruct (rd v_label_gain (LambdarankNDCG.label_gain_ o) ll)
      as [lg|] eqn:Elg; [rewrite ret_bind in Hterms | discriminate Hterms].
    destruct (LambdarankNDCG.GetSigmoid o (s - s)) as [pl|] eqn:Epl;
      [rewrite ret_bind in Hterms | discriminate Hterms].
    injection Hterms as <-.
    rewrite (Hflip hl ll (to_int_Ok _ _ Ehl) (to_int_Ok _ _ Ell)). simpl negb.
    cbv iota.
    rewrite Hj, ret_bind, Elj', ret_bind, Ehl, ret_bind, Hsj, ret_bind,
      Ehg, ret_bind.
    rewrite Hi, ret_bind, Eli', ret_bind, Ell, ret_bind, Hsi, ret_bind,
      Elg, ret_bind, Epl, ret_bind.
    eexists. split; [reflexivity|]. simpl.
    repeat (split; [reflexivity|]).
    rewrite <- Hpair. unfold LambdarankNDCG.debiased. simpl.
    rewrite (IeeeFacts.abs_sub_comm (GetDiscount j) (GetDiscount i)).
    rewrite Hib, Hjb. reflexivity.
  - rewrite Hj, ret_bind, Elj, ret_bind in Hterms.
    destruct (to_int label_j) as [hl|] eqn:Ehl;
      [rewrite ret_bind in Hterms | discriminate Hterms].
    rewrite Hsj, ret_bind in Hterms.
    destruct (rd v_label_gain (LambdarankNDCG.label_gain_ o) hl)
      as [hg|] eqn:Ehg; [rewrite ret_bind in Hterms | discriminate Hterms].
    rewrite Hi, ret_bind, Eli, ret_bind in Hterms.
    destruct (to_int label_i) as [ll|] eqn:Ell;
      [rewrite ret_bind in Hterms | discriminate Hterms].
    rewrite Hsi, ret_bind in Hterms.
    destruct (rd v_label_gain (LambdarankNDCG.label_gain_ o) ll)
      as [lg|] eqn:Elg; [rewrite ret_bind in Hterms | discriminate Hterms].
    destruct (LambdarankNDCG.GetSigmoid o (s - s)) as [pl|] eqn:Epl;
      [rewrite ret_bind in Hterms | discriminate Hterms].
    injection Hterms as <-.
    rewrite (Hflip ll hl (to_int_Ok _ _ Ell) (to_int_Ok _ _ Ehl)). simpl negb.
    cbv iota.
    rewrite Hi, ret_bind, Eli', ret_bind, Ehl, ret_bind, Hsi, ret_bind,
      Ehg, ret_bind.
    rewrite Hj, ret_bind, Elj', ret_bind, Ell, ret_bind, Hsj, ret_bind,
      Elg, ret_bind, Epl, ret_bind.
    eexists. split; [reflexivity|]. simpl.
    repeat (split; [reflexivity|]).
    rewrite <- Hpair. unfold LambdarankNDCG.debiased. simpl.
    rewrite (IeeeFacts.abs_sub_comm (GetDiscount i) (GetDiscount j)).
    rewrite Hib, Hjb. reflexivity.
Qed.
End Query.

(** ** Queries of at most one document *)

Section ShortQueries.
Context `{Libm, Meta, Dcg, Common, OpenMP}.

(** C6, as the code has it. For [cnt <= 1] the listwise computer writes a
    zero to the [cnt] lambdas and hessians of the query and returns. The
    pairwise computer does so for [cnt = 1]; for [cnt = 0] it reads
    [sorted_idx[0]] in a vector that has no element. *)
Theorem C6_short_queries (o : LambdarankNDCG.t) (x : RankXENDCG.t)
    (query_id : Z) (label score lambdas hessians : list float)
    (m : LambdarankNDCG.biases) (rands : list Random) :
  (∀ cnt, cnt ≤ 0 →
     RankXENDCG.GetGradientsForOneQuery
       x query_id cnt label score lambdas hessians rands
     = Ok (lambdas, hessians, rands))
  ∧ (∀ l h,
       RankXENDCG.GetGradientsForOneQuery
         x query_id 1 label score (l :: lambdas) (h :: hessians) rands
       = Ok (0%float :: lambdas, 0%float :: hessians, rands))
  ∧ (∀ d, rd v_inverse_max_dcgs (LambdarankNDCG.inverse_max_dcgs_ o) query_id
          = Ok d →
       (∀ s l h,
          LambdarankNDCG.GetGradientsForOneQuery
            o query_id 1 label (s :: score) (l :: lambdas) (h :: hessians) m
          = Ok (0%float :: lambdas, 0%float :: hessians, m))
       ∧ LambdarankNDCG.GetGradientsForOneQuery
           o query_id 0 label score lambdas hessians m
         = Fault (OutOfBounds v_sorted_idx 0)).
Proof.
  split; [|split].
  - intros cnt Hcnt. unfold RankXENDCG.GetGradientsForOneQuery.
    destruct (Z.leb_spec cnt 1) as [_|?]; [|lia].
    rewrite for_range_empty by lia. reflexivity.
  - intros l h. reflexivity.
  - intros d Hd. split.
    + intros s l h.
      unfold LambdarankNDCG.GetGradientsForOneQuery,
        LambdarankNDCG.accumulate.
      rewrite Hd, ret_bind.
      unfold for_range. simpl.
      replace (Z.to_nat
                 (Z.min (1 - 1) (LambdarankNDCG.truncation_level_ o) - 0))
        with 0%nat by lia.
      simpl.
      destruct (LambdarankNDCG.norm_ o); reflexivity.
    + unfold LambdarankNDCG.GetGradientsForOneQuery,
        LambdarankNDCG.accumulate.
      rewrite Hd. reflexivity.
Qed.
End ShortQueries.

(** ** Whole calls of the pairwise objective *)

(** A computation that follows any other one, when the two return. *)
Lemma wp_bind_any {A B} (m : result A) (k : A → result B) Q :
  (∀ got, wp (k got) Q (fun _ => True)) → wp (m ≫= k) Q (fun _ => True).
Proof. intros Hk. destruct m; simpl; auto. Qed.

Section Pairwise.
Context `{Libm, Meta, Dcg, OpenMP}.

(** The loop over the queries: an invariant of what the computation of one
    query mutates, and the sizes of the two output arrays. *)
Lemma GetGradients_wp {M} (I : M → Prop) (o : RankingObjective.t)
    (one_query : Z → Z → list float → list float → list float → list float
                 → M → result (list float * list float * M))
    (score gradients hessians : list float) (m : M) :
  I m →
  (∀ q cnt label score lambdas hess m, I m →
     wp (one_query q cnt label score lambdas hess m)
        (fun '(l, h, m') => length l = length lambdas
                            ∧ length h = length hess ∧ I m')
        (fun _ => True)) →
  wp (RankingObjective.GetGradients o one_query score gradients hessians m)
     (fun '(g, h, m') => length g = length gradients
                         ∧ length h = length hessians ∧ I m')
     (fun _ => True).
Proof.
  intros Hm Hone. unfold RankingObjective.GetGradients.
  apply (wp_for_range_inv
           (fun '(g, h, m') => length g = length gradients
                               ∧ length h = length hessians ∧ I m')).
  { auto. }
  intros i [[g h] m0] Hi (Hg & Hh & Hm0).
  apply wp_bind_any. intros qb.
  apply wp_bind_any. intros start.
  apply wp_bind_any. intros stop.
  apply wp_bind.
  eapply wp_mono; [apply (Hone i (stop - start)); exact Hm0 | | auto].
  intros [[l h'] m1] (Hl & Hh' & Hm1).
  assert (Hsl : length (store start g l) = length gradients).
  { unfold store, from in *. rewrite length_app, length_take, Hl, length_drop.
    lia. }
  assert (Hsh : length (store start h h') = length hessians).
  { unfold store, from in *. rewrite length_app, length_take, Hh', length_drop.
    lia. }
  destruct (RankingObjective.weights_ o) as [w|]; [|simpl; auto].
  apply wp_bind.
  eapply wp_mono;
    [apply (wp_for_range_inv
              (fun '(g', h'') => length g' = length gradients
                                 ∧ length h'' = length hessians)
              (fun _ => True)); [auto|]
    | | auto].
  - intros j [g' h''] Hj [Hg' Hh''].
    apply wp_bind_any. intros x. apply wp_bind_any. intros wj.
    apply wp_wr; [auto | intros _].
    apply wp_bind_any. intros y. apply wp_bind_any. intros wj'.
    apply wp_wr; [auto | intros _].
    simpl. rewrite !length_insert. auto.
  - intros [g' h''] [Hg' Hh'']. simpl. auto.
Qed.

Lemma charge_off o tid p m :
  LambdarankNDCG.unbiased_ o = false → LambdarankNDCG.charge o tid p m = Ok m.
Proof. intros Hu. unfold LambdarankNDCG.charge. rewrite Hu. reflexivity. Qed.

(** An invariant of the position-bias model that [charge] keeps is kept by
    the body of the loop over [j] and by the accumulation of the pairs. *)
Lemma pair_costs_wp (J : LambdarankNDCG.biases → Prop) o tid
    (inverse_max_dcg best_score worst_score : float)
    (label score : list float) (sorted_idx : list Z) (i j : Z) a :
  (∀ tid p m, J m → wp (LambdarankNDCG.charge o tid p m) J (fun _ => True)) →
  J (LambdarankNDCG.acc_costs a) →
  wp (LambdarankNDCG.pair o tid inverse_max_dcg best_score worst_score
        label score sorted_idx i j a)
     (fun a' => J (LambdarankNDCG.acc_costs a')) (fun _ => True).
Proof.
  intros Hcharge Ha. unfold LambdarankNDCG.pair.
  apply wp_bind_any. intros [p|]; [|exact Ha].
  apply wp_bind.
  eapply wp_mono; [apply Hcharge, Ha | | auto].
  intros m' Hm'. simpl.
  apply wp_bind_any. intros [p_lambda p_hessian].
  do 8 (apply wp_bind_any; intros ?).
  exact Hm'.
Qed.

Lemma accumulate_costs_wp (J : LambdarankNDCG.biases → Prop) o
    (query_id cnt : Z) (label score lambdas hessians : list float) m :
  (∀ tid p m, J m → wp (LambdarankNDCG.charge o tid p m) J (fun _ => True)) →
  J m →
  wp (LambdarankNDCG.accumulate o query_id cnt label score lambdas hessians m)
     (fun a => J (LambdarankNDCG.acc_costs a)) (fun _ => True).
Proof.
  intros Hcharge Hm. unfold LambdarankNDCG.accumulate.
  apply wp_bind_any. intros inverse_max_dcg.
  apply wp_bind_any. intros [l h].
  do 3 (apply wp_bind_any; intros ?).
  do 5 (apply wp_bind_any; intros ?).
  apply (wp_for_range_inv (fun a => J (LambdarankNDCG.acc_costs a)));
    [exact Hm|].
  intros i a Hi Ha.
  apply wp_bind_any. intros si. apply wp_bind_any. intros score_i.
  destruct (score_i =? kMinScore)%float; [exact Ha|].
  apply (wp_for_range_inv (fun a => J (LambdarankNDCG.acc_costs a)));
    [exact Ha|].
  intros j b Hj Hb. apply pair_costs_wp; assumption.
Qed.

Lemma length_query o (query_id cnt : Z)
    (label score lambdas hessians : list float) m :
  wp (LambdarankNDCG.GetGradientsForOneQuery
        o query_id cnt label score lambdas hessians m)
     (fun '(l, h, _) => length l = length lambdas ∧ length h = length hessians)
     (fun _ => True).
Proof.
  destruct (LambdarankNDCG.GetGradientsForOneQuery
              o query_id cnt label score lambdas hessians m)
    as [[[l h] m']|f] eqn:Hrun; [|exact I]. simpl.
  pose proof (accumulate_wp o query_id cnt label score lambdas hessians m)
    as Hwp.
  destruct (LambdarankNDCG.accumulate
              o query_id cnt label score lambdas hessians m)
    as [a|f] eqn:Hacc;
    [|unfold LambdarankNDCG.GetGradientsForOneQuery in Hrun;
      rewrite Hacc in Hrun; discriminate].
  simpl in Hwp. destruct Hwp as (Hl & Hh & _).
  rewrite (pairwise_query_spec _ _ _ _ _ _ _ _ _ Hacc) in Hrun.
  destruct (_ && _); injection Hrun as <- <- <-;
    rewrite ?length_rescaled; auto.
Qed.

Lemma query_costs_wp (J : LambdarankNDCG.biases → Prop) o
    (query_id cnt : Z) (label score lambdas hessians : list float) m :
  (∀ tid p m, J m → wp (LambdarankNDCG.charge o tid p m) J (fun _ => True)) →
  J m →
  wp (LambdarankNDCG.GetGradientsForOneQuery
        o query_id cnt label score lambdas hessians m)
     (fun '(l, h, m') => length l = length lambdas
                         ∧ length h = length hessians ∧ J m')
     (fun _ => True).
Proof.
  intros Hcharge Hm.
  pose proof (length_query o query_id cnt label score lambdas hessians m)
    as Hlen.
  pose proof (accumulate_costs_wp J o query_id cnt label score lambdas
                hessians m Hcharge Hm) as Hacc.
  unfold LambdarankNDCG.GetGradientsForOneQuery in *.
  destruct (LambdarankNDCG.accumulate _ _ _ _ _ _ _ _) as [a|f]; [|exact I].
  simpl in Hacc. rewrite ret_bind in *.
  destruct (_ && _).
  - destruct (LambdarankNDCG.normalize cnt a) as [[l h]|f]; [|exact I].
    simpl in *. destruct Hlen. auto.
  - simpl in *. destruct Hlen. auto.
Qed.


(** X1. Without the position-bias correction a call of [GetGradients]
    leaves the position-bias model as it found it. *)
Theorem GetGradients_keeps_biases o (score gradients hessians : list float)
    g h m' :
  LambdarankNDCG.unbiased_ o = false →
  LambdarankNDCG.GetGradients o score gradients hessians = Ok (g, h, m') →
  m' = LambdarankNDCG.mut o.
Proof.
  intros Hu Hrun. unfold LambdarankNDCG.GetGradients in Hrun.
  rewrite Hu in Hrun.
  pose proof (GetGradients_wp (fun m => m = LambdarankNDCG.mut o)
                (LambdarankNDCG.ranking o)
                (LambdarankNDCG.GetGradientsForOneQuery o)
                score gradients hessians (LambdarankNDCG.mut o) eq_refl) as Hwp.
  destruct (RankingObjective.GetGradients _ _ _ _ _ _) as [[[g0 h0] m0]|f];
    [|discriminate Hrun].
  injection Hrun as <- <- <-. apply Hwp.
  intros q cnt label score0 lambdas hess m ->.
  apply query_costs_wp; [|reflexivity].
  intros tid p m ->. rewrite charge_off by exact Hu. reflexivity.
Qed.

Lemma charge_shaped o tid p m :
  shaped o m →
  wp (LambdarankNDCG.charge o tid p m) (shaped o) (fun _ => True).
Proof.
  intros Hm. unfold LambdarankNDCG.charge.
  destruct (LambdarankNDCG.unbiased_ o); [|exact Hm].
  destruct Hm as (Hib & Hjb & Hic & Hjc & Hicb & Hjcb & Hri & Hrj).
  apply wp_bind_any. intros jb.
  apply wp_rd; [auto | intros row Hin Hrow].
  apply wp_bind_any. intros c.
  apply wp_wr; [auto | intros _].
  apply wp_wr; [auto | intros _].
  apply wp_bind_any. intros ib.
  apply wp_rd; [auto | intros row' Hin' Hrow'].
  apply wp_bind_any. intros c'.
  apply wp_wr; [auto | intros _].
  apply wp_wr; [auto | intros _].
  simpl. unfold shaped. simpl. rewrite !length_insert.
  repeat split; try assumption.
  - apply Forall_insert; [exact Hri|]. rewrite length_insert.
    exact (proj1 (Forall_lookup _ _) Hri _ _ Hrow).
  - apply Forall_insert; [exact Hrj|]. rewrite length_insert.
    exact (proj1 (Forall_lookup _ _) Hrj _ _ Hrow').
Qed.

Lemma Update_shaped o m :
  shaped o m →
  ∃ m', LambdarankNDCG.UpdatePositionBiasesAndGradients o m = Ok m'
        ∧ shaped o m'.
Proof.
  intros Hm. rewrite Update_spec by exact Hm. eexists. split; [reflexivity|].
  destruct Hm as (Hib & Hjb & Hic & Hjc & Hicb & Hjcb & Hri & Hrj).
  unfold shaped, bias_pow. simpl.
  rewrite !length_fmap, !length_replicate.
  rewrite (length_sum_rows _ _ _ Hic Hri), (length_sum_rows _ _ _ Hjc Hrj).
  repeat split; try lia;
    apply Forall_replicate; rewrite length_replicate; lia.
Qed.

(** X2. A call of [GetGradients] keeps the sizes that
    [InitPositionBiasesAndGradients] gave to the vectors of the
    position-bias model, with the correction and without it. *)
Theorem GetGradients_keeps_shape o (score gradients hessians : list float)
    g h m' :
  shaped o (LambdarankNDCG.mut o) →
  LambdarankNDCG.GetGradients o score gradients hessians = Ok (g, h, m') →
  shaped o m'.
Proof.
  intros Hm Hrun. unfold LambdarankNDCG.GetGradients in Hrun.
  pose proof (GetGradients_wp (shaped o) (LambdarankNDCG.ranking o)
                (LambdarankNDCG.GetGradientsForOneQuery o)
                score gradients hessians (LambdarankNDCG.mut o) Hm) as Hwp.
  destruct (RankingObjective.GetGradients _ _ _ _ _ _) as [[[g0 h0] m0]|f];
    [|discriminate Hrun].
  rewrite ret_bind in Hrun.
  assert (Hm0 : shaped o m0).
  { apply Hwp. intros q cnt label score0 lambdas hess m Hs.
    apply query_costs_wp; [|exact Hs].
    intros tid p m1. apply charge_shaped. }
  destruct (LambdarankNDCG.unbiased_ o).
  - destruct (Update_shaped o m0 Hm0) as (m1 & E & Hm1).
    rewrite E, ret_bind in Hrun. injection Hrun as <- <- <-. exact Hm1.
  - injection Hrun as <- <- <-. exact Hm0.
Qed.


(** *** The ranking of a query *)

Lemma filled_seqZ (cnt : Z) (l : list Z) :
  Z.of_nat (length l) = cnt →
  (∀ k, 0 ≤ k < cnt → l !! Z.to_nat k = Some k) →
  l = seqZ 0 cnt.
Proof.
  intros Hlen Hk. apply list_eq. intros i.
  destruct (Nat.lt_ge_cases i (length l)) as [Hi|Hi].
  - rewrite <- (Nat2Z.id i), Hk by lia.
    symmetry. rewrite Nat2Z.id. apply lookup_seqZ. lia.
  - rewrite (proj2 (lookup_ge_None _ _)) by exact Hi.
    symmetry. apply lookup_ge_None. rewrite length_seqZ. lia.
Qed.

(** [sorted_idx] holds every document of the query once. *)
Lemma ranking_wp (cnt : Z) (score : list float) :
  wp (sorted_idx ← vector cnt 0;
      sorted_idx ← for_range 0 cnt (fun i sorted_idx =>
                     wr v_sorted_idx sorted_idx i i) sorted_idx;
      stable_sort (LambdarankNDCG.by_score score) sorted_idx)
     (fun r => 0 ≤ cnt ∧ r ≡ₚ seqZ 0 cnt)
     (fun _ => True).
Proof.
  unfold vector. destruct (Z.ltb_spec cnt 0) as [Hc|Hc]; [exact Logic.I|].
  rewrite ret_bind.
  destruct (for_range_fill v_sorted_idx (fun i => i) cnt
              (replicate (Z.to_nat cnt) 0)) as (l & -> & Hlen & Hk).
  { rewrite length_replicate. lia. }
  rewrite ret_bind. rewrite (filled_seqZ cnt l Hlen Hk).
  eapply wp_mono; [apply (stable_sort_wp cnt score) | | auto].
  intros r Hr. auto.
Qed.

Lemma ranking_facts (cnt : Z) (r : list Z) :
  r ≡ₚ seqZ 0 cnt → 0 ≤ cnt →
  Z.of_nat (length r) = cnt
  ∧ NoDup r
  ∧ ∀ k x, r !! k = Some x → 0 ≤ x < cnt.
Proof.
  intros Hr Hc. split; [|split].
  - rewrite Hr, length_seqZ. lia.
  - rewrite Hr. apply NoDup_seqZ.
  - intros k x Hx. apply list_elem_of_lookup_2 in Hx.
    rewrite Hr in Hx. apply elem_of_seqZ in Hx. lia.
Qed.


(** *** Queries longer than the truncation level *)



(** An access to an array of the query: outside it, the fault is not
    [safe]. *)
Ltac guarded := intros _; left; intros Hsafe; discriminate Hsafe.









(** *** Queries whose documents have the same label *)


Lemma cleared_step (n : nat) (l : list float) :
  (n < length l)%nat →
  <[n := 0%float]> (replicate n 0%float ++ drop n l)
  = replicate (S n) 0%float ++ drop (S n) l.
Proof.
  intros Hn. destruct (lookup_lt_is_Some_2 l n Hn) as [x Hx].
  rewrite insert_app_r_alt; rewrite length_replicate; [|lia].
  replace (n - n)%nat with 0%nat by lia.
  rewrite replicate_S_end, <- app_assoc.
  rewrite (drop_S _ _ _ Hx). reflexivity.
Qed.

Lemma zero_init_spec (cnt : Z) (lambdas hessians : list float) :
  0 ≤ cnt → cnt ≤ Z.of_nat (length lambdas) →
  cnt ≤ Z.of_nat (length hessians) →
  for_range 0 cnt (fun i '(lambdas, hessians) =>
      lambdas ← wr v_lambdas lambdas i 0%float;
      hessians ← wr v_hessians hessians i 0%float;
      Ok (lambdas, hessians)) (lambdas, hessians)
  = Ok (cleared cnt lambdas, cleared cnt hessians).
Proof.
  intros Hc Hl Hh.
  match goal with
  | |- ?r = Ok ?v =>
      cut (∃ a, r = Ok a ∧ a = v); [intros (a & -> & ->); reflexivity|]
  end.
  apply wp_total.
  eapply wp_mono;
    [apply (wp_for_range
              (fun i '(l, h) => l = cleared i lambdas ∧ h = cleared i hessians)
              (fun _ => False) 0 cnt);
       [exact Hc | split; unfold cleared; simpl; rewrite drop_0; reflexivity |]
    | intros [l h] [-> ->]; reflexivity | auto].
  intros i [l h] Hi [-> ->]. unfold cleared. cbv beta iota.
  apply wp_wr_step;
    [rewrite length_app, length_replicate, length_drop; lia|].
  apply wp_wr_step;
    [rewrite length_app, length_replicate, length_drop; lia|].
  simpl. rewrite !cleared_step by lia.
  replace (Z.to_nat (i + 1)) with (S (Z.to_nat i)) by lia. auto.
Qed.

(** A loop whose body returns the state it was given returns it. *)
Lemma for_range_id {St} lo hi (body : Z → St → result St) (s : St) :
  (∀ i, lo ≤ i < hi → body i s = Ok s) → for_range lo hi body s = Ok s.
Proof.
  intros Hbody.
  cut (∃ a, for_range lo hi body s = Ok a ∧ a = s);
    [intros (a & -> & ->); reflexivity|].
  apply wp_total. apply wp_for_range_inv; [reflexivity|].
  intros i s' Hi ->. rewrite Hbody by exact Hi. reflexivity.
Qed.

Lemma wp_succeeds {A} (r : result A) (Q : A → Prop) (E : fault → Prop) :
  wp r Q E → (∀ f, ¬ E f) → ∃ a, r = Ok a ∧ Q a.
Proof.
  destruct r as [a|f]; simpl; intros Hr HE; [eauto | destruct (HE f Hr)].
Qed.

(** A read that is in bounds, at the head of a computation that is to
    return [r]. *)
Ltac read x Hx :=
  cbv beta;
  lazymatch goal with
  | |- rd ?v ?l ?i ≫= _ = _ =>
      let E := fresh "E" in
      destruct (rd_lt v l i) as (x & E & Hx); [|rewrite E, ret_bind; clear E]
  end.

(** X4. When the documents of a query all have the same label no pair is
    one of two labels: the function clears the lambdas and the hessians of
    the query, and leaves the position-bias model alone. *)
Theorem equal_labels_zero o (query_id cnt : Z)
    (label score lambdas hessians : list float) m (c d : float) :
  fits cnt label score lambdas hessians →
  rd v_inverse_max_dcgs (LambdarankNDCG.inverse_max_dcgs_ o) query_id = Ok d →
  (∀ k, 0 ≤ k < cnt → label !! Z.to_nat k = Some c) →
  (c =? c)%float = true →
  LambdarankNDCG.GetGradientsForOneQuery
    o query_id cnt label score lambdas hessians m
  = Ok (cleared cnt lambdas, cleared cnt hessians, m).
Proof.
  intros (Hcnt & Hll & Hls & Hlla & Hlh) Hd Hlabel Hc.
  assert (Hacc : LambdarankNDCG.accumulate
                   o query_id cnt label score lambdas hessians m
                 = Ok {| LambdarankNDCG.acc_lambdas := cleared cnt lambdas;
                         LambdarankNDCG.acc_hessians := cleared cnt hessians;
                         LambdarankNDCG.acc_sum_lambdas := 0%float;
                         LambdarankNDCG.acc_costs := m |});
    [|unfold LambdarankNDCG.GetGradientsForOneQuery;
      rewrite Hacc, ret_bind; simpl LambdarankNDCG.acc_sum_lambdas;
      replace (0 <? 0)%float with false by reflexivity;
      rewrite andb_false_r; reflexivity].
  unfold LambdarankNDCG.accumulate.
  rewrite Hd, ret_bind.
  rewrite zero_init_spec by lia. rewrite ret_bind.
  unfold vector. destruct (Z.ltb_spec cnt 0) as [?|_]; [lia|].
  rewrite ret_bind.
  destruct (for_range_fill v_sorted_idx (fun i => i) cnt
              (replicate (Z.to_nat cnt) 0)) as (l0 & -> & Hlen0 & Hk).
  { rewrite length_replicate. lia. }
  rewrite ret_bind. rewrite (filled_seqZ cnt l0 Hlen0 Hk).
  destruct (wp_succeeds _ _ _ (stable_sort_wp cnt score (seqZ 0 cnt)))
    as (sorted_idx & -> & Hperm).
  { intros f Hf. apply Hf. split; [|lia].
    apply Forall_forall. intros x Hx. apply elem_of_seqZ in Hx. lia. }
  rewrite ret_bind.
  destruct (ranking_facts cnt sorted_idx Hperm ltac:(lia))
    as (Hlen & Hnodup & Hrank).
  read best Hbest; [lia|]. pose proof (Hrank _ _ Hbest).
  read best_score Hbs; [lia|].
  assert (Hworst : ∃ worst_idx,
            (if 0 <? cnt - 1
             then w ← rd v_sorted_idx sorted_idx (cnt - 1);
                  s ← rd v_score score w;
                  Ok (if (s =? kMinScore)%float then cnt - 1 - 1 else cnt - 1)
             else Ok (cnt - 1)) = Ok worst_idx ∧ 0 ≤ worst_idx < cnt).
  { destruct (Z.ltb_spec 0 (cnt - 1)).
    - destruct (rd_lt v_sorted_idx sorted_idx (cnt - 1)) as (w & -> & Hw);
        [lia|]. pose proof (Hrank _ _ Hw). rewrite ret_bind.
      destruct (rd_lt v_score score w) as (s & -> & Hs); [lia|].
      rewrite ret_bind. eexists. split; [reflexivity|].
      destruct (s =? kMinScore)%float; lia.
    - eexists. split; [reflexivity | lia]. }
  destruct Hworst as (worst_idx & -> & Hw). rewrite ret_bind.
  read w Hw'; [lia|]. pose proof (Hrank _ _ Hw').
  read worst_score Hws; [lia|].
  apply for_range_id.
  intros i Hi.
  read si Hsi; [lia|]. pose proof (Hrank _ _ Hsi).
  read score_i Hscore_i; [lia|].
  destruct (score_i =? kMinScore)%float; [reflexivity|].
  apply for_range_id. intros j Hj.
  unfold LambdarankNDCG.pair.
  match goal with
  | |- ?terms ≫= _ = _ =>
      assert (Hnone : terms = Ok None); [|rewrite Hnone; reflexivity]
  end.
  unfold LambdarankNDCG.pair_terms.
  read sj Hsj; [lia|]. pose proof (Hrank _ _ Hsj).
  read score_j Hscore_j; [lia|].
  destruct (score_j =? kMinScore)%float; [reflexivity|].
  rewrite (proj2 (rd_Ok v_sorted_idx sorted_idx i si)) by (split; [lia | exact Hsi]).
  rewrite ret_bind.
  rewrite (proj2 (rd_Ok v_label label si c)) by (split; [lia | apply Hlabel; lia]).
  rewrite ret_bind.
  rewrite (proj2 (rd_Ok v_label label sj c)) by (split; [lia | apply Hlabel; lia]).
  rewrite ret_bind, Hc. reflexivity.
Qed.


(** *** What a query writes *)


Lemma same_beyond_refl {A} cnt (l : list A) : same_beyond cnt l l.
Proof. intros d _. reflexivity. Qed.

Lemma same_beyond_trans {A} cnt (l1 l2 l3 : list A) :
  same_beyond cnt l1 l2 → same_beyond cnt l2 l3 → same_beyond cnt l1 l3.
Proof. intros H12 H23 d Hd. rewrite H23, H12 by exact Hd. reflexivity. Qed.

Lemma same_beyond_insert {A} cnt (l l' : list A) (i : Z) x :
  0 ≤ i < cnt → same_beyond cnt l l' →
  same_beyond cnt l (<[Z.to_nat i := x]> l').
Proof.
  intros Hi Hl d Hd. rewrite list_lookup_insert_ne by lia. apply Hl, Hd.
Qed.

Lemma same_beyond_rescaled cnt factor (l : list float) :
  same_beyond cnt l (rescaled cnt factor l).
Proof.
  intros d Hd. unfold rescaled.
  destruct (Nat.le_gt_cases (Z.to_nat cnt) (length l)) as [Hle|Hgt].
  - rewrite lookup_app_r; rewrite length_fmap, length_take; [|lia].
    rewrite lookup_drop. f_equal. lia.
  - rewrite drop_ge, app_nil_r by lia.
    rewrite (proj2 (lookup_ge_None l d)) by lia.
    apply lookup_ge_None. rewrite length_fmap, length_take. lia.
Qed.

Lemma zero_init_frame (cnt : Z) (lambdas hessians : list float) :
  wp (for_range 0 cnt (fun i '(lambdas, hessians) =>
        lambdas ← wr v_lambdas lambdas i 0%float;
        hessians ← wr v_hessians hessians i 0%float;
        Ok (lambdas, hessians)) (lambdas, hessians))
     (fun '(l, h) => same_beyond cnt lambdas l ∧ same_beyond cnt hessians h)
     (fun _ => True).
Proof.
  apply (wp_for_range_inv
           (fun '(l, h) => same_beyond cnt lambdas l
                           ∧ same_beyond cnt hessians h)).
  { split; apply same_beyond_refl. }
  intros i [l h] Hi [Hl Hh].
  apply wp_wr; [auto | intros _]. apply wp_wr; [auto | intros _].
  simpl. split; apply same_beyond_insert; assumption.
Qed.

Lemma pair_frame o tid cnt inverse_max_dcg best_score worst_score
    label score sorted_idx (i j : Z) (a : LambdarankNDCG.pairs) :
  0 ≤ i < j → j < cnt →
  (∀ k x, sorted_idx !! k = Some x → 0 ≤ x < cnt) →
  wp (LambdarankNDCG.pair o tid inverse_max_dcg best_score worst_score
        label score sorted_idx i j a)
     (fun a' =>
        same_beyond cnt (LambdarankNDCG.acc_lambdas a)
          (LambdarankNDCG.acc_lambdas a')
        ∧ same_beyond cnt (LambdarankNDCG.acc_hessians a)
            (LambdarankNDCG.acc_hessians a'))
     (fun _ => True).
Proof.
  intros Hij Hj Hrank. unfold LambdarankNDCG.pair.
  apply wp_bind.
  eapply wp_mono;
    [apply (pair_terms_wp o cnt _ _ _ label score sorted_idx 0%nat 0%nat
              i j Hij Hj)
    | | auto].
  intros [p|]; [|intros _; split; apply same_beyond_refl].
  intros (si & sj & s & Hsi & Hsj & _ & _ & _ & _ & Hends).
  pose proof (Hrank _ _ Hsi). pose proof (Hrank _ _ Hsj).
  assert (Hlow : 0 ≤ LambdarankNDCG.low p < cnt)
    by (destruct Hends as [[_ ->]|[_ ->]]; assumption).
  assert (Hhigh : 0 ≤ LambdarankNDCG.high p < cnt)
    by (destruct Hends as [[-> _]|[-> _]]; assumption).
  apply wp_bind_any. intros m.
  apply wp_bind_any. intros [p_lambda p_hessian].
  apply wp_bind_any. intros x. apply wp_wr; [auto | intros _].
  apply wp_bind_any. intros y. apply wp_wr; [auto | intros _].
  apply wp_bind_any. intros x'. apply wp_wr; [auto | intros _].
  apply wp_bind_any. intros y'. apply wp_wr; [auto | intros _].
  simpl. split; repeat apply same_beyond_insert;
    try assumption; apply same_beyond_refl.
Qed.

(** The accumulation of the pairs writes below [cnt]. *)
Lemma accumulate_frame o (query_id cnt : Z)
    (label score lambdas hessians : list float) m :
  wp (LambdarankNDCG.accumulate o query_id cnt label score lambdas hessians m)
     (fun a => same_beyond cnt lambdas (LambdarankNDCG.acc_lambdas a)
               ∧ same_beyond cnt hessians (LambdarankNDCG.acc_hessians a))
     (fun _ => True).
Proof.
  unfold LambdarankNDCG.accumulate.
  apply wp_bind_any. intros inverse_max_dcg.
  apply wp_bind.
  eapply wp_mono; [apply zero_init_frame | | auto].
  intros [l0 h0] [Hl0 Hh0].
  unfold vector. destruct (Z.ltb_spec cnt 0) as [Hc|Hc]; [exact Logic.I|].
  rewrite ret_bind.
  destruct (for_range_fill v_sorted_idx (fun i => i) cnt
              (replicate (Z.to_nat cnt) 0)) as (s0 & -> & Hlen0 & Hk).
  { rewrite length_replicate. lia. }
  rewrite ret_bind. rewrite (filled_seqZ cnt s0 Hlen0 Hk).
  apply wp_bind.
  eapply wp_mono; [apply (stable_sort_wp cnt score) | | auto].
  intros sorted_idx Hperm.
  destruct (ranking_facts cnt sorted_idx Hperm Hc) as (_ & _ & Hrank).
  do 5 (apply wp_bind_any; intros ?).
  set (Inv := fun a : LambdarankNDCG.pairs =>
                same_beyond cnt lambdas (LambdarankNDCG.acc_lambdas a)
                ∧ same_beyond cnt hessians (LambdarankNDCG.acc_hessians a)).
  apply (wp_for_range_inv Inv); [split; assumption|].
  intros i a Hi Ha.
  apply wp_bind_any. intros si. apply wp_bind_any. intros score_i.
  destruct (score_i =? kMinScore)%float; [exact Ha|].
  apply (wp_for_range_inv Inv); [exact Ha|].
  intros j b Hj [Hbl Hbh].
  eapply wp_mono;
    [apply (pair_frame o _ cnt); [lia | lia | exact Hrank] | | auto].
  intros b' [Hl' Hh']. split; eapply same_beyond_trans; eassumption.
Qed.

(** The function writes the slice of the query. *)
Lemma query_within_wp o (query_id cnt : Z)
    (label score lambdas hessians : list float) m :
  wp (LambdarankNDCG.GetGradientsForOneQuery
        o query_id cnt label score lambdas hessians m)
     (fun '(l, h, _) => within cnt lambdas l ∧ within cnt hessians h)
     (fun _ => True).
Proof.
  pose proof (length_query o query_id cnt label score lambdas hessians m)
    as Hlen.
  pose proof (accumulate_frame o query_id cnt label score lambdas hessians m)
    as Hacc.
  destruct (LambdarankNDCG.GetGradientsForOneQuery
              o query_id cnt label score lambdas hessians m)
    as [[[l h] m']|f] eqn:Hrun; [|exact Logic.I].
  destruct Hlen as [Hl Hh].
  destruct (LambdarankNDCG.accumulate
              o query_id cnt label score lambdas hessians m)
    as [a|f] eqn:Ea;
    [|unfold LambdarankNDCG.GetGradientsForOneQuery in Hrun;
      rewrite Ea in Hrun; discriminate].
  destruct Hacc as [Hal Hah].
  rewrite (pairwise_query_spec _ _ _ _ _ _ _ _ _ Ea) in Hrun.
  destruct (_ && _); injection Hrun as <- <- <-;
    [|repeat split; assumption].
  repeat split; try assumption;
    (eapply same_beyond_trans; [eassumption|]); apply same_beyond_rescaled.
Qed.

(** X5. [GetGradientsForOneQuery] returns the two arrays with the sizes
    they had, and with the entries they had from [cnt] on. *)
Theorem query_writes_its_slice o (query_id cnt : Z)
    (label score lambdas hessians : list float) m l h m' :
  LambdarankNDCG.GetGradientsForOneQuery
    o query_id cnt label score lambdas hessians m = Ok (l, h, m') →
  length l = length lambdas ∧ length h = length hessians
  ∧ same_beyond cnt lambdas l ∧ same_beyond cnt hessians h.
Proof.
  intros Hrun.
  pose proof (query_within_wp o query_id cnt label score lambdas hessians m)
    as Hwp.
  rewrite Hrun in Hwp. destruct Hwp as [[Hl Hfl] [Hh Hfh]]. auto.
Qed.

(** *** A score that is not a number *)

Lemma nan_propagates (x y z : float) :
  Prim2SF x = S754_nan → Prim2SF ((x - y) * z) = S754_nan.
Proof.
  intros Hx. rewrite mul_spec, sub_spec, Hx.
  destruct (Prim2SF y) as [[]|[]| |[] m e];
    destruct (Prim2SF z) as [[]|[]| |[] m' e']; reflexivity.
Qed.

(** X6. [GetSigmoid] converts a NaN to an index: the score is neither
    below the table nor above it, and the conversion is not defined. *)
Theorem GetSigmoid_nan o (score : float) :
  Prim2SF score = S754_nan →
  ∃ x, LambdarankNDCG.GetSigmoid o score = Fault (BadCast x)
       ∧ Prim2SF x = S754_nan.
Proof.
  intros Hnan. unfold LambdarankNDCG.GetSigmoid.
  assert (Hlow : (score <=? LambdarankNDCG.min_sigmoid_input_ o)%float = false).
  { rewrite leb_spec, Hnan. reflexivity. }
  assert (Hhigh : (LambdarankNDCG.max_sigmoid_input_ o <=? score)%float
                  = false).
  { rewrite leb_spec, Hnan.
    destruct (Prim2SF (LambdarankNDCG.max_sigmoid_input_ o))
      as [[]|[]| |[] m e]; reflexivity. }
  rewrite Hlow, Hhigh. unfold to_int, Ieee.trunc.
  rewrite (nan_propagates _ _ _ Hnan). simpl.
  eexists. split; [reflexivity|]. apply nan_propagates, Hnan.
Qed.


(** *** What [Init] establishes *)

Lemma new_members config o :
  LambdarankNDCG.new config = Ok o → o = LambdarankNDCG.members config.
Proof.
  unfold LambdarankNDCG.new.
  destruct (_ <=? _)%float; [discriminate | intros [= <-]; reflexivity].
Qed.

(** X7. [Init], on the object that the constructor returns, returns an
    object whose sigmoid table is the one of [ConstructSigmoidTable] and
    whose position-bias vectors have [truncation_level_] entries, one row
    for each thread in the buffers. *)
Theorem Init_establishes config metadata num_data o0 o :
  LambdarankNDCG.new config = Ok o0 →
  0 ≤ omp_get_num_threads →
  LambdarankNDCG.Init o0 metadata num_data = Ok o →
  table_built o ∧ shaped o (LambdarankNDCG.mut o).
Proof.
  intros Hnew Hthreads Hinit. apply new_members in Hnew. subst o0.
  unfold LambdarankNDCG.Init in Hinit.
  apply bind_Ok in Hinit as (r & _ & Hinit).
  apply bind_Ok in Hinit as (u & _ & Hinit).
  apply bind_Ok in Hinit as (d0 & _ & Hinit).
  apply bind_Ok in Hinit as (d & _ & Hinit).
  apply bind_Ok in Hinit as (o1 & Htable & Hbias).
  match type of Htable with
  | LambdarankNDCG.ConstructSigmoidTable ?x = _ =>
      destruct (ConstructSigmoidTable_Ok x) as (table & E & Ht);
        [discriminate|]; rewrite E in Htable; injection Htable as <-
  end.
  match type of Hbias with
  | LambdarankNDCG.InitPositionBiasesAndGradients ?x = _ =>
      set (o1 := x) in *
  end.
  destruct (Z.le_gt_cases 0 (LambdarankNDCG.truncation_level_ o1))
    as [Hn|Hn].
  - rewrite InitPositionBiasesAndGradients_Ok in Hbias by exact Hn.
    injection Hbias as <-. split.
    + destruct Ht as [Hl Hk]. split; [exact Hl | exact Hk].
    + unfold shaped. subst o1. simpl in Hn |- *.
      rewrite !length_replicate.
      repeat split; try lia;
        apply Forall_replicate; rewrite length_replicate; lia.
  - exfalso. unfold LambdarankNDCG.InitPositionBiasesAndGradients in Hbias.
    cbv zeta in Hbias. apply bind_Ok in Hbias as (ib & Hres & _).
    unfold resize in Hres.
    destruct (LambdarankNDCG.truncation_level_ o1 <? 0) eqn:El;
      [discriminate Hres | apply Z.ltb_ge in El; lia].
Qed.

End Pairwise.

(** ** The listwise objective *)

Section Listwise.
Context `{Meta, Common}.

Lemma within_refl {A} cnt (l : list A) : within cnt l l.
Proof. split; [reflexivity | apply same_beyond_refl]. Qed.

Lemma within_insert {A} cnt (l l' : list A) (i : Z) x :
  0 ≤ i < cnt → within cnt l l' → within cnt l (<[Z.to_nat i := x]> l').
Proof.
  intros Hi [Hl Hs]. split; [rewrite length_insert; exact Hl|].
  apply same_beyond_insert; assumption.
Qed.

Lemma listwise_frame_wp (x : RankXENDCG.t) (query_id cnt : Z)
    (label score lambdas hessians : list float) (rands : list Random) :
  wp (RankXENDCG.GetGradientsForOneQuery
        x query_id cnt label score lambdas hessians rands)
     (fun '(l, h, r) => within cnt lambdas l ∧ within cnt hessians h
                        ∧ length r = length rands)
     (fun _ => True).
Proof.
  unfold RankXENDCG.GetGradientsForOneQuery.
  destruct (cnt <=? 1).
  - apply wp_bind.
    eapply wp_mono;
      [apply (wp_for_range_inv
                (fun '(l, h) => within cnt lambdas l ∧ within cnt hessians h)
                (fun _ => True)); [split; apply within_refl|]
      | intros [l0 h0] [Hl Hh]; simpl; auto | auto].
    intros i [l0 h0] Hi [Hl Hh].
    apply wp_wr; [auto | intros _]. apply wp_wr; [auto | intros _].
    simpl. split; apply within_insert; assumption.
  - apply wp_bind_any. intros params.
    apply wp_bind.
    eapply wp_mono;
      [apply (wp_for_range_inv
                (fun '(_, _, rs) => length rs = length rands)
                (fun _ => True)); [reflexivity|]
      | | auto].
    { intros i [[p acc] rs] Hi Hrs.
      apply wp_bind_any. intros l0. apply wp_bind_any. intros r0.
      destruct (NextFloat r0) as [g r1].
      apply wp_wr; [auto | intros _].
      do 3 (apply wp_bind_any; intros ?).
      simpl. rewrite length_insert. exact Hrs. }
    intros [[p acc] rs] Hrs.
    apply wp_bind.
    eapply wp_mono;
      [apply (wp_for_range_inv
                (fun '(l, _, _) => within cnt lambdas l)
                (fun _ => True)); [apply within_refl|]
      | | auto].
    { intros i [[l0 p0] s0] Hi Hl.
      do 2 (apply wp_bind_any; intros ?).
      apply wp_wr; [auto | intros _].
      do 3 (apply wp_bind_any; intros ?).
      simpl. apply within_insert; assumption. }
    intros [[l1 p1] s1] Hl1.
    apply wp_bind.
    eapply wp_mono;
      [apply (wp_for_range_inv
                (fun '(l, _, _) => within cnt lambdas l)
                (fun _ => True)); [exact Hl1|]
      | | auto].
    { intros i [[l0 p0] s0] Hi Hl.
      do 3 (apply wp_bind_any; intros ?).
      apply wp_wr; [auto | intros _].
      do 3 (apply wp_bind_any; intros ?).
      simpl. apply within_insert; assumption. }
    intros [[l2 p2] s2] Hl2.
    apply wp_bind.
    eapply wp_mono;
      [apply (wp_for_range_inv
                (fun '(l, h) => within cnt lambdas l ∧ within cnt hessians h)
                (fun _ => True)); [split; [exact Hl2 | apply within_refl]|]
      | intros [l3 h3] [Hl3 Hh3]; simpl; auto | auto].
    intros i [l0 h0] Hi [Hl Hh].
    do 3 (apply wp_bind_any; intros ?).
    apply wp_wr; [auto | intros _].
    do 2 (apply wp_bind_any; intros ?).
    apply wp_wr; [auto | intros _].
    simpl. split; apply within_insert; assumption.
Qed.

(** X8. The listwise computer returns the two arrays and the generators
    with the sizes they had, and the two arrays with the entries they had
    from [cnt] on. *)
Theorem listwise_writes_its_slice (x : RankXENDCG.t) (query_id cnt : Z)
    (label score lambdas hessians : list float) (rands : list Random) l h r :
  RankXENDCG.GetGradientsForOneQuery
    x query_id cnt label score lambdas hessians rands = Ok (l, h, r) →
  within cnt lambdas l ∧ within cnt hessians h ∧ length r = length rands.
Proof.
  intros Hrun.
  pose proof (listwise_frame_wp x query_id cnt label score lambdas hessians
                rands) as Hwp.
  rewrite Hrun in Hwp. exact Hwp.
Qed.


(** X9. For a query of two documents or more, the hessian that the
    listwise computer stores for a document is [rho * (1 - rho)],
    [rho] being the softmax of the scores at the document: the labels and
    the random draws play no part in it. *)
Theorem listwise_hessians (x : RankXENDCG.t) (query_id cnt : Z)
    (label score lambdas hessians : list float) (rands : list Random) l h r :
  1 < cnt →
  RankXENDCG.GetGradientsForOneQuery
    x query_id cnt label score lambdas hessians rands = Ok (l, h, r) →
  ∀ i, 0 ≤ i < cnt →
    ∃ rho, Softmax score cnt !! Z.to_nat i = Some rho
           ∧ h !! Z.to_nat i = Some (to_score_t (rho * (1 - rho))).
Proof.
  intros Hcnt Hrun.
  set (Q := fun h : list float => ∀ i, 0 ≤ i < cnt →
          ∃ rho, Softmax score cnt !! Z.to_nat i = Some rho
                 ∧ h !! Z.to_nat i = Some (to_score_t (rho * (1 - rho)))).
  cut (wp (RankXENDCG.GetGradientsForOneQuery
             x query_id cnt label score lambdas hessians rands)
          (fun '(_, h, _) => Q h) (fun _ => True));
    [rewrite Hrun; auto|].
  clear Hrun. unfold RankXENDCG.GetGradientsForOneQuery.
  destruct (Z.leb_spec cnt 1) as [?|_]; [lia|].
  apply wp_bind_any. intros params.
  apply wp_bind_any. intros [[p acc] rs].
  apply wp_bind_any. intros [[l1 p1] s1].
  apply wp_bind_any. intros [[l2 p2] s2].
  apply wp_bind.
  eapply wp_mono;
    [apply (wp_for_range
              (fun k '(_, h) => ∀ i, 0 ≤ i < k →
                 ∃ rho, Softmax score cnt !! Z.to_nat i = Some rho
                        ∧ h !! Z.to_nat i
                          = Some (to_score_t (rho * (1 - rho))))
              (fun _ => True) 0 cnt); [lia | intros i Hi; lia |]
    | intros [l3 h3] Hh; exact Hh | auto].
  intros k [l0 h0] Hk Hinv.
  do 3 (apply wp_bind_any; intros ?).
  apply wp_bind_any. intros l0'.
  apply wp_rd; [auto | intros rho _ Hrho].
  apply wp_rd; [auto | intros rho' _ Hrho'].
  apply wp_wr; [auto | intros Hin].
  simpl. intros i Hi.
  destruct (Z.eq_dec i k) as [->|Hne].
  - exists rho. split; [exact Hrho|].
    rewrite list_lookup_insert_eq by lia.
    assert (rho' = rho) as -> by congruence. reflexivity.
  - destruct (Hinv i ltac:(lia)) as (rho0 & Hr0 & Hh0).
    exists rho0. split; [exact Hr0|].
    rewrite list_lookup_insert_ne by lia. exact Hh0.
Qed.


(** X10. For a query of two documents or more the listwise computer draws
    one number for each document from the generator of the query, and
    leaves the generators of the other queries alone; for a shorter query it
    draws none. *)
Theorem listwise_draws (x : RankXENDCG.t) (query_id cnt : Z)
    (label score lambdas hessians : list float) (rands : list Random) l h r :
  RankXENDCG.GetGradientsForOneQuery
    x query_id cnt label score lambdas hessians rands = Ok (l, h, r) →
  (cnt ≤ 1 → r = rands)
  ∧ (1 < cnt →
     ∃ r0, 0 ≤ query_id ∧ rands !! Z.to_nat query_id = Some r0
           ∧ r = <[Z.to_nat query_id := drawn (Z.to_nat cnt) r0]> rands).
Proof.
  intros Hrun.
  set (Q := fun r : list Random =>
     (cnt ≤ 1 → r = rands)
     ∧ (1 < cnt →
        ∃ r0, 0 ≤ query_id ∧ rands !! Z.to_nat query_id = Some r0
              ∧ r = <[Z.to_nat query_id := drawn (Z.to_nat cnt) r0]> rands)).
  cut (wp (RankXENDCG.GetGradientsForOneQuery
             x query_id cnt label score lambdas hessians rands)
          (fun '(_, _, r) => Q r) (fun _ => True));
    [rewrite Hrun; auto|].
  clear Hrun. unfold RankXENDCG.GetGradientsForOneQuery.
  destruct (Z.leb_spec cnt 1) as [Hc|Hc].
  - apply wp_bind_any. intros [l0 h0]. simpl. split; [auto | lia].
  - apply wp_bind_any. intros params.
    apply wp_bind.
    eapply wp_mono;
      [apply (wp_for_range
                (fun k '(_, _, rs) =>
                   length rs = length rands
                   ∧ (0 < k → 0 ≤ query_id
                              ∧ is_Some (rands !! Z.to_nat query_id))
                   ∧ ∀ r0, rands !! Z.to_nat query_id = Some r0 →
                       rs = <[Z.to_nat query_id := drawn (Z.to_nat k) r0]>
                              rands)
                (fun _ => True) 0 cnt); [lia | |]
      | | auto].
    + split; [reflexivity|]. split; [lia|].
      intros r0 Hr0. simpl. symmetry. apply list_insert_id, Hr0.
    + intros k [[p acc] rs] Hk (Hlen & _ & Hrs).
      apply wp_bind_any. intros l0.
      apply wp_rd; [auto | intros rk Hin Hrk].
      destruct (NextFloat rk) as [g r1] eqn:Enext.
      apply wp_wr; [auto | intros _].
      do 3 (apply wp_bind_any; intros ?).
      simpl. rewrite length_insert. split; [exact Hlen|].
      assert (Hsome : is_Some (rands !! Z.to_nat query_id))
        by (apply lookup_lt_is_Some; lia).
      split; [intros _; split; [lia | exact Hsome]|].
      intros r0 Hr0. rewrite (Hrs r0 Hr0) in Hrk |- *.
      rewrite list_lookup_insert_eq in Hrk by lia.
      injection Hrk as <-.
      rewrite list_insert_insert_eq.
      replace (Z.to_nat (k + 1)) with (S (Z.to_nat k)) by lia.
      change (drawn (S (Z.to_nat k)) r0)
        with ((NextFloat (drawn (Z.to_nat k) r0)).2).
      rewrite Enext. reflexivity.
    + intros [[p acc] rs] (Hlen & Hsome & Hrs).
      apply wp_bind_any. intros [[l1 p1] s1].
      apply wp_bind_any. intros [[l2 p2] s2].
      apply wp_bind_any. intros [l3 h3].
      simpl. split; [lia|]. intros _.
      destruct (Hsome ltac:(lia)) as [Hq [r0 Hr0]].
      exists r0. split; [exact Hq|]. split; [exact Hr0|]. apply Hrs, Hr0.
Qed.



Ltac inside x Hx :=
  apply wp_rd; [intros Hout; apply Hout; lia | intros x ? Hx].

Ltac store_inside :=
  apply wp_wr; [intros Hout; apply Hout; rewrite ?length_insert; lia
               | intros ?].

Lemma int_labels_convertible (cnt : Z) (label : list float) :
  int_labels cnt label → convertible cnt label.
Proof.
  intros Hint i l Hi Hl. destruct (Hint i l Hi Hl) as (n & -> & _). eauto.
Qed.

(** A query of two documents or more that returns has labels that
    convert. *)
Lemma listwise_converts (x : RankXENDCG.t) (query_id cnt : Z)
    (label score lambdas hessians : list float) (rands : list Random) :
  1 < cnt →
  wp (RankXENDCG.GetGradientsForOneQuery
        x query_id cnt label score lambdas hessians rands)
     (fun _ => convertible cnt label) (fun _ => True).
Proof.
  intros Hcnt.
  - unfold RankXENDCG.GetGradientsForOneQuery.
    destruct (Z.leb_spec cnt 1) as [?|_]; [lia|].
    apply wp_bind_any. intros params.
    apply wp_bind.
    eapply wp_mono;
      [apply (wp_for_range
                (fun k _ => ∀ i l, 0 ≤ i < k →
                   label !! Z.to_nat i = Some l → is_Some (Ieee.trunc l))
                (fun _ => True) 0 cnt); [lia | intros i l Hi; lia |]
      | | auto].
    + intros k [[p acc] rs] Hk Hinv.
      apply wp_rd; [auto | intros lk _ Hlk].
      apply wp_bind_any. intros r0.
      destruct (NextFloat r0) as [g r1].
      apply wp_bind_any. intros rs'.
      unfold RankXENDCG.Phi, to_int.
      destruct (Ieee.trunc lk) as [n|] eqn:En; [|exact Logic.I].
      simpl. do 2 (apply wp_bind_any; intros ?). simpl.
      intros i l Hi Hl. destruct (Z.eq_dec i k) as [->|Hne].
      * assert (l = lk) as -> by congruence. rewrite En. eauto.
      * apply (Hinv i l); [lia | exact Hl].
    + intros [[p acc] rs] Hall.
      apply wp_bind_any. intros [[l1 p1] s1].
      apply wp_bind_any. intros [[l2 p2] s2].
      apply wp_bind_any. intros [l3 h3].
      exact Hall.
Qed.

(** With arrays of [cnt] entries, a generator for the query and labels that
    convert, a query of two documents or more returns. *)
Lemma listwise_runs (x : RankXENDCG.t) (query_id cnt : Z)
    (label score lambdas hessians : list float) (rands : list Random) :
  1 < cnt →
  cnt ≤ Z.of_nat (length label) →
  cnt ≤ Z.of_nat (length lambdas) →
  cnt ≤ Z.of_nat (length hessians) →
  cnt ≤ Z.of_nat (length (Softmax score cnt)) →
  0 ≤ query_id < Z.of_nat (length rands) →
  convertible cnt label →
  ∃ a, RankXENDCG.GetGradientsForOneQuery
         x query_id cnt label score lambdas hessians rands = Ok a.
Proof.
  intros Hcnt Hlabel Hlambdas Hhessians Hrho Hq Hconv.
  - cut (∃ a, RankXENDCG.GetGradientsForOneQuery
                x query_id cnt label score lambdas hessians rands = Ok a
              ∧ True); [intros (a & E & _); eauto|].
    apply wp_total. unfold RankXENDCG.GetGradientsForOneQuery.
    destruct (Z.leb_spec cnt 1) as [?|_]; [lia|].
    unfold vector. destruct (Z.ltb_spec cnt 0) as [?|_]; [lia|].
    rewrite ret_bind.
    apply wp_bind.
    eapply wp_mono;
      [apply (wp_for_range_inv
                (fun '(p, _, rs) => Z.of_nat (length p) = cnt
                                    ∧ length rs = length rands)
                (fun _ => False));
         [split; [rewrite length_replicate; lia | reflexivity]|]
      | | auto].
    + intros k [[p acc] rs] Hk [Hp Hrs].
      inside lk Hlk. inside r0 Hr0.
      destruct (NextFloat r0) as [g r1].
      store_inside.
      unfold RankXENDCG.Phi, to_int.
      destruct (Hconv k lk Hk Hlk) as [n ->]. simpl.
      store_inside. apply wp_rd;
        [intros Hout; apply Hout; rewrite length_insert; lia | intros y _ _].
      simpl. rewrite !length_insert. auto.
    + intros [[p acc] rs] [Hp Hrs].
      apply wp_bind.
      eapply wp_mono;
        [apply (wp_for_range_inv
                  (fun '(l, p, _) => length l = length lambdas
                                     ∧ Z.of_nat (length p) = cnt)
                  (fun _ => False)); [auto|]
        | | auto].
      * intros k [[l0 p0] s0] Hk [Hl0 Hp0].
        inside xk Hxk. inside rk Hrk. store_inside.
        inside rk' Hrk'. store_inside.
        apply wp_rd;
          [intros Hout; apply Hout; rewrite length_insert; lia | intros y _ _].
        simpl. rewrite !length_insert. auto.
      * intros [[l1 p1] s1] [Hl1 Hp1].
        apply wp_bind.
        eapply wp_mono;
          [apply (wp_for_range_inv
                    (fun '(l, p, _) => length l = length lambdas
                                       ∧ Z.of_nat (length p) = cnt)
                    (fun _ => False)); [auto|]
          | | auto].
        -- intros k [[l0 p0] s0] Hk [Hl0 Hp0].
           inside rk Hrk. inside xk Hxk. inside yk Hyk. store_inside.
           inside rk' Hrk'. store_inside.
           apply wp_rd;
             [intros Hout; apply Hout; rewrite length_insert; lia
             | intros y _ _].
           simpl. rewrite !length_insert. auto.
        -- intros [[l2 p2] s2] [Hl2 Hp2].
           apply wp_bind.
           eapply wp_mono;
             [apply (wp_for_range_inv
                       (fun '(l, h) => length l = length lambdas
                                       ∧ length h = length hessians)
                       (fun _ => False)); [auto|]
             | intros [l3 h3] _; exact Logic.I | auto].
           intros k [l0 h0] Hk [Hl0 Hh0].
           inside rk Hrk. inside xk Hxk. inside yk Hyk. store_inside.
           inside rk' Hrk'. inside rk'' Hrk''. store_inside.
           simpl. rewrite !length_insert. auto.
Qed.

(** X11. On a query of two documents or more whose arrays have [cnt] entries
    and whose generator exists, the listwise computer returns when every
    label of the query truncates to a value of [int], the labels on which
    the [static_cast<int>] of [Phi] is defined. And when it returns, every
    label of the query had a truncation: the conversion of the label is the
    one step that can fail. *)
Theorem listwise_returns (x : RankXENDCG.t) (query_id cnt : Z)
    (label score lambdas hessians : list float) (rands : list Random) :
  1 < cnt →
  cnt ≤ Z.of_nat (length label) →
  cnt ≤ Z.of_nat (length lambdas) →
  cnt ≤ Z.of_nat (length hessians) →
  cnt ≤ Z.of_nat (length (Softmax score cnt)) →
  0 ≤ query_id < Z.of_nat (length rands) →
  (int_labels cnt label →
   ∃ l h r, RankXENDCG.GetGradientsForOneQuery
              x query_id cnt label score lambdas hessians rands = Ok (l, h, r))
  ∧ ((∃ l h r, RankXENDCG.GetGradientsForOneQuery
                 x query_id cnt label score lambdas hessians rands
               = Ok (l, h, r)) →
     convertible cnt label).
Proof.
  intros Hcnt Hlabel Hlambdas Hhessians Hrho Hq. split.
  - intros Hint.
    destruct (listwise_runs x query_id cnt label score lambdas hessians rands
                Hcnt Hlabel Hlambdas Hhessians Hrho Hq
                (int_labels_convertible cnt label Hint))
      as ([[l h] r] & E).
    eauto.
  - intros (l' & h' & r' & Hrun).
    pose proof (listwise_converts x query_id cnt label score lambdas hessians
                  rands Hcnt) as Hwp.
    rewrite Hrun in Hwp. exact Hwp.
Qed.

(** X12. [Init] gives every query a generator of its own, seeded with the
    seed of the objective plus the number of the query; it fails, and only
    fatally, when the data set has no query boundaries. *)
Theorem listwise_Init_generators (x : RankXENDCG.t) metadata num_data :
  (query_boundaries metadata = None →
   RankXENDCG.Init x metadata num_data
   = Fault (Fatal "Ranking tasks require query information"))
  ∧ (query_boundaries metadata ≠ None →
     ∃ x', RankXENDCG.Init x metadata num_data = Ok x'
           ∧ RankXENDCG.rands_ x'
             = RankXENDCG.rands_ x
               ++ ((fun q => Random_seed
                               (RankingObjective.seed_ (RankXENDCG.ranking x)
                                + q))
                   <$> seqZ 0 (num_queries metadata))).
Proof.
  unfold RankXENDCG.Init, RankingObjective.Init. split.
  - intros ->. reflexivity.
  - intros Hqb. destruct (query_boundaries metadata) as [qb|]; [|congruence].
    rewrite ret_bind. simpl.
    set (seed := RankingObjective.seed_ (RankXENDCG.ranking x)).
    set (n := num_queries metadata).
    cut (∃ rs, for_range 0 n
                 (fun i rands => Ok (rands ++ [Random_seed (seed + i)]))
                 (RankXENDCG.rands_ x) = Ok rs
               ∧ rs = RankXENDCG.rands_ x
                      ++ ((fun q => Random_seed (seed + q)) <$> seqZ 0 n)).
    { intros (rs & -> & ->). rewrite ret_bind. eexists.
      split; reflexivity. }
    apply wp_total.
    destruct (Z.le_gt_cases 0 n) as [Hn|Hn].
    + apply (wp_for_range
               (fun k rs => rs = RankXENDCG.rands_ x
                  ++ ((fun q => Random_seed (seed + q)) <$> seqZ 0 k))
               (fun _ => False) 0 n); [exact Hn | |].
      * simpl. rewrite app_nil_r. reflexivity.
      * intros k rs Hk ->. simpl.
        rewrite (seqZ_app 0 k 1) by lia.
        rewrite fmap_app, app_assoc. reflexivity.
    + rewrite for_range_empty by lia. simpl.
      rewrite seqZ_nil by lia. rewrite app_nil_r. reflexivity.
Qed.


(** *** The listwise objective on a well-formed data set *)

Lemma length_cleared cnt (l : list float) :
  cnt ≤ Z.of_nat (length l) → length (cleared cnt l) = length l.
Proof.
  intros Hc. unfold cleared.
  rewrite length_app, length_replicate, length_drop. lia.
Qed.

Lemma listwise_query_total (x : RankXENDCG.t) (query_id cnt : Z)
    (label score lambdas hessians : list float) (rands : list Random) :
  0 ≤ cnt →
  cnt ≤ Z.of_nat (length label) →
  cnt ≤ Z.of_nat (length lambdas) →
  cnt ≤ Z.of_nat (length hessians) →
  cnt ≤ Z.of_nat (length (Softmax score cnt)) →
  0 ≤ query_id < Z.of_nat (length rands) →
  convertible cnt label →
  ∃ l h r, RankXENDCG.GetGradientsForOneQuery
             x query_id cnt label score lambdas hessians rands = Ok (l, h, r)
           ∧ length l = length lambdas ∧ length h = length hessians
           ∧ length r = length rands.
Proof.
  intros Hc Hlabel Hlambdas Hhessians Hrho Hq Hconv.
  destruct (Z.le_gt_cases cnt 1) as [Hle|Hgt].
  - unfold RankXENDCG.GetGradientsForOneQuery.
    destruct (Z.leb_spec cnt 1) as [_|?]; [|lia].
    rewrite zero_init_spec by lia. rewrite ret_bind.
    eexists _, _, _. split; [reflexivity|].
    rewrite !length_cleared by lia. auto.
  - destruct (listwise_runs x query_id cnt label score lambdas hessians
                rands ltac:(lia) Hlabel Hlambdas Hhessians Hrho Hq Hconv)
      as ([[l h] r] & Hrun).
    exists l, h, r. split; [exact Hrun|].
    pose proof (listwise_frame_wp x query_id cnt label score lambdas hessians
                  rands) as Hwp.
    rewrite Hrun in Hwp. destruct Hwp as ([Hl _] & [Hh _] & Hr). auto.
Qed.


(** X13. On a well-formed data set whose labels truncate to a value of
    [int], the labels on which the [static_cast<int>] of [Phi] is defined,
    with a generator for every query, [GetGradients] of the listwise
    objective returns, for a [Softmax] that fills the [cnt] entries it is
    given. *)
Theorem listwise_GetGradients_returns (x : RankXENDCG.t)
    (score gradients hessians : list float) :
  (∀ s n, 0 ≤ n ≤ Z.of_nat (length s) →
          n ≤ Z.of_nat (length (Softmax s n))) →
  well_formed (RankXENDCG.ranking x) score gradients hessians →
  RankingObjective.num_queries_ (RankXENDCG.ranking x)
  ≤ Z.of_nat (length (RankXENDCG.rands_ x)) →
  int_labels (RankingObjective.num_data_ (RankXENDCG.ranking x))
    (RankingObjective.label_ (RankXENDCG.ranking x)) →
  ∃ g h r, RankXENDCG.GetGradients x score gradients hessians = Ok (g, h, r)
           ∧ length g = length gradients ∧ length h = length hessians
           ∧ length r = length (RankXENDCG.rands_ x).
Proof.
  intros Hsoftmax (qb & Hqb & Hn & Hbounds & Hlabel & Hscore & Hg & Hh & Hw)
    Hrands Hint.
  pose proof (int_labels_convertible _ _ Hint) as Hconv.
  set (o := RankXENDCG.ranking x) in *.
  set (N := RankingObjective.num_data_ o) in *.
  cut (∃ a, RankXENDCG.GetGradients x score gradients hessians = Ok a
            ∧ (let '(g, h, r) := a in
               length g = length gradients ∧ length h = length hessians
               ∧ length r = length (RankXENDCG.rands_ x)));
    [intros ([[g h] r] & E & Ha); eauto|].
  apply wp_total.
  unfold RankXENDCG.GetGradients, RankingObjective.GetGradients. fold o.
  apply (wp_for_range_inv
           (fun '(g, h, r) =>
              length g = length gradients ∧ length h = length hessians
              ∧ length r = length (RankXENDCG.rands_ x))); [auto|].
  intros q [[g h] r] Hq (Hlg & Hlh & Hlr).
  rewrite Hqb. simpl deref. rewrite ret_bind.
  destruct (Hbounds q Hq) as (a & b & Ha & Hb & Hab & HbN).
  rewrite (proj2 (rd_Ok v_query_boundaries qb q a)) by (split; [lia | exact Ha]).
  rewrite ret_bind.
  rewrite (proj2 (rd_Ok v_query_boundaries qb (q + 1) b))
    by (split; [lia | exact Hb]).
  rewrite ret_bind.
  destruct (listwise_query_total x q (b - a)
              (from a (RankingObjective.label_ o)) (from a score)
              (from a g) (from a h) r)
    as (l1 & h1 & r1 & -> & Hl1 & Hh1 & Hr1);
    try (unfold from; rewrite length_drop; lia); try lia.
  { apply Hsoftmax. unfold from. rewrite length_drop. lia. }
  { intros i l Hi Hl. unfold from in Hl. rewrite lookup_drop in Hl.
    apply (Hconv (a + i) l); [lia|].
    rewrite <- Hl. f_equal. lia. }
  rewrite ret_bind. cbv beta iota zeta.
  assert (Hsg : length (store a g l1) = length gradients).
  { unfold store, from in *. rewrite length_app, length_take, Hl1, length_drop.
    lia. }
  assert (Hsh : length (store a h h1) = length hessians).
  { unfold store, from in *. rewrite length_app, length_take, Hh1, length_drop.
    lia. }
  destruct (RankingObjective.weights_ o) as [w|];
    [|simpl; rewrite Hr1; auto].
  apply wp_bind.
  eapply wp_mono;
    [apply (wp_for_range_inv
              (fun '(g', h') => length g' = length gradients
                                ∧ length h' = length hessians)
              (fun _ => False)); [auto|]
    | intros [g' h'] [Hg' Hh']; simpl; rewrite Hr1; auto | auto].
  intros j [g' h'] Hj [Hg' Hh'].
  inside gj Hgj. inside wj Hwj. store_inside.
  inside hj Hhj. inside wj' Hwj'. store_inside.
  simpl. rewrite !length_insert. auto.
Qed.

End Listwise.

(** ** Accesses outside the arrays of the data set *)

Lemma faults_Ok P {A} (a : A) : faults P (Ok a).
Proof. exact I. Qed.

Lemma faults_bind P {A B} (m : result A) (k : A → result B) :
  faults P m → (∀ a, faults P (k a)) → faults P (m ≫= k).
Proof. intros Hm Hk. destruct m; simpl; [apply Hk | exact Hm]. Qed.

Lemma faults_rd P {A} v (l : list A) i :
  P (OutOfBounds v i) → faults P (rd v l i).
Proof.
  intros HP. unfold faults. destruct (rd v l i) eqn:E; simpl; [exact I|].
  apply rd_fault in E as [-> _]. exact HP.
Qed.

Lemma faults_wr P {A} v (l : list A) i x :
  P (OutOfBounds v i) → faults P (wr v l i x).
Proof.
  intros HP. unfold faults. destruct (wr v l i x) eqn:E; simpl; [exact I|].
  apply wr_fault in E as [-> _]. exact HP.
Qed.

Lemma faults_vector P {A} n (x : A) : P (LengthError n) → faults P (vector n x).
Proof. intros HP. unfold faults, vector. destruct (n <? 0); simpl; auto. Qed.

Lemma faults_to_int P x : P (BadCast x) → faults P (to_int x).
Proof. intros HP. unfold faults, to_int. destruct (Ieee.trunc x); simpl; auto. Qed.

Lemma faults_for_range P {St} lo hi (body : Z → St → result St) s :
  (∀ i s, faults P (body i s)) → faults P (for_range lo hi body s).
Proof.
  intros Hbody. apply (wp_for_range_inv (fun _ => True)); [exact I|].
  intros i s' _ _. apply Hbody.
Qed.

Lemma faults_insert_sorted P comp a l :
  (∀ x y, faults P (comp x y)) → faults P (insert_sorted comp a l).
Proof.
  intros Hc. induction l as [|b l IH]; simpl; [exact I|].
  apply faults_bind; [apply Hc|]. intros [].
  - apply faults_bind; [exact IH | intros; exact I].
  - exact I.
Qed.

Lemma faults_stable_sort P comp l :
  (∀ x y, faults P (comp x y)) → faults P (stable_sort comp l).
Proof.
  intros Hc. induction l as [|a l IH]; simpl; [exact I|].
  apply faults_bind; [exact IH|]. intros r. apply faults_insert_sorted, Hc.
Qed.

Ltac classify_step :=
  lazymatch goal with
  | |- faults _ (Ok _) => apply faults_Ok
  | |- faults _ (_ ≫= _) => apply faults_bind; [|intros ?]
  | |- faults _ (rd _ _ _) => apply faults_rd; first [exact I | reflexivity]
  | |- faults _ (wr _ _ _ _) => apply faults_wr; first [exact I | reflexivity]
  | |- faults _ (vector _ _) => apply faults_vector; first [exact I | reflexivity]
  | |- faults _ (to_int _) => apply faults_to_int; first [exact I | reflexivity]
  | |- faults _ (for_range _ _ _ _) => apply faults_for_range; intros ? ?
  | |- faults _ (stable_sort _ _) => apply faults_stable_sort; intros ? ?
  | |- faults _ (if ?c then _ else _) => destruct c
  | |- faults _ (match ?x with _ => _ end) => destruct x
  end.

Ltac classify := repeat classify_step.

Section Bounds.
Context `{Libm, Meta, Dcg, OpenMP}.

Lemma query_apart o (query_id cnt : Z)
    (label score lambdas hessians : list float) m :
  faults apart (LambdarankNDCG.GetGradientsForOneQuery
                o query_id cnt label score lambdas hessians m).
Proof.
  unfold LambdarankNDCG.GetGradientsForOneQuery, LambdarankNDCG.accumulate,
    LambdarankNDCG.normalize, LambdarankNDCG.pair, LambdarankNDCG.pair_terms,
    LambdarankNDCG.charge, LambdarankNDCG.debiased,
    LambdarankNDCG.GetSigmoid, LambdarankNDCG.by_score.
  classify.
Qed.

Lemma Update_apart o m :
  faults sound (LambdarankNDCG.UpdatePositionBiasesAndGradients o m).
Proof.
  unfold LambdarankNDCG.UpdatePositionBiasesAndGradients.
  classify.
Qed.


Lemma sound_of f : safe f → apart f → sound f.
Proof.
  destruct f as [v i0| | | |v]; simpl; try (intros; exact I);
    destruct v; simpl; intros Hs Ha; try reflexivity; try discriminate Hs;
    try contradiction.
Qed.

Lemma query_sound o (query_id cnt : Z)
    (label score lambdas hessians : list float) m :
  fits cnt label score lambdas hessians →
  wp (LambdarankNDCG.GetGradientsForOneQuery
        o query_id cnt label score lambdas hessians m)
     (fun '(l, h, _) => length l = length lambdas
                        ∧ length h = length hessians)
     sound.
Proof.
  intros Hfits.
  pose proof (query_apart o query_id cnt label score lambdas hessians m)
    as Hapart.
  pose proof (length_query o query_id cnt label score lambdas hessians m)
    as Hlen.
  assert (Hsafe : wp (LambdarankNDCG.GetGradientsForOneQuery
                        o query_id cnt label score lambdas hessians m)
                     (fun _ => True) safe).
  { unfold LambdarankNDCG.GetGradientsForOneQuery. apply wp_bind.
    eapply wp_mono; [apply accumulate_wp | | intros f Hf; exact (Hf Hfits)].
    intros a (Hl & Hh & Hc & Hcl & Hch & _).
    destruct (_ && _); [|exact I].
    apply wp_bind.
    eapply wp_mono;
      [apply normalize_wp | intros [l h] _; exact I
      | intros f Hf; exfalso; apply Hf; lia]. }
  unfold faults in Hapart.
  destruct (LambdarankNDCG.GetGradientsForOneQuery _ _ _ _ _ _ _ _)
    as [[[l h] m']|f]; simpl in *; [exact Hlen | apply sound_of; assumption].
Qed.


(** X14. On a well-formed data set no query of which is empty,
    [GetGradients] of the pairwise objective makes no access outside the
    scores, the labels, the two output arrays, the weights, the query
    boundaries and the ranking of a query, and finds no null pointer in
    their place. *)
Theorem pairwise_GetGradients_bounds o
    (score gradients hessians : list float) v i :
  well_formed (LambdarankNDCG.ranking o) score gradients hessians →
  populated (LambdarankNDCG.ranking o) →
  watched v = true →
  LambdarankNDCG.GetGradients o score gradients hessians
  ≠ Fault (OutOfBounds v i)
  ∧ LambdarankNDCG.GetGradients o score gradients hessians
    ≠ Fault (NullPointer v).
Proof.
  intros (qb & Hqb & Hn & Hbounds & Hlabel & Hscore & Hg & Hh & Hw)
    Hpop Hv.
  cut (wp (LambdarankNDCG.GetGradients o score gradients hessians)
          (fun _ => True) sound).
  { destruct (LambdarankNDCG.GetGradients o score gradients hessians)
      as [a|f]; [split; discriminate|].
    simpl. intros Hf. split; intros [= ->]; simpl in Hf; congruence. }
  set (r := LambdarankNDCG.ranking o) in *.
  set (N := RankingObjective.num_data_ r) in *.
  unfold LambdarankNDCG.GetGradients. apply wp_bind.
  eapply wp_mono with (Q := fun _ => True) (E := sound);
    [ | | auto].
  2:{ intros [[g h] m] _. destruct (LambdarankNDCG.unbiased_ o); [|exact I].
      apply wp_bind.
      eapply wp_mono; [apply Update_apart | intros; exact I | auto]. }
  unfold RankingObjective.GetGradients. fold r.
  eapply wp_mono;
    [apply (wp_for_range_inv
              (fun '(g, h, _) => length g = length gradients
                                 ∧ length h = length hessians) sound);
       [auto|]
    | auto | auto].
  intros q [[g h] m] Hq (Hlg & Hlh).
  rewrite Hqb. simpl deref. rewrite ret_bind.
  destruct (Hbounds q Hq) as (a & b & Ha & Hb & Hab & HbN).
  pose proof (Hpop qb q a b Hqb Hq Ha Hb) as Hlt.
  rewrite (proj2 (rd_Ok v_query_boundaries qb q a)) by (split; [lia | exact Ha]).
  rewrite ret_bind.
  rewrite (proj2 (rd_Ok v_query_boundaries qb (q + 1) b))
    by (split; [lia | exact Hb]).
  rewrite ret_bind.
  apply wp_bind.
  eapply wp_mono;
    [apply (query_sound o q (b - a)); unfold fits, from;
       rewrite !length_drop; repeat split; lia
    | | auto].
  intros [[l1 h1] m1] [Hl1 Hh1].
  assert (Hsg : length (store a g l1) = length gradients).
  { unfold store, from in *. rewrite length_app, length_take, Hl1, length_drop.
    lia. }
  assert (Hsh : length (store a h h1) = length hessians).
  { unfold store, from in *. rewrite length_app, length_take, Hh1, length_drop.
    lia. }
  cbv beta iota zeta.
  destruct (RankingObjective.weights_ r) as [w|]; [|simpl; auto].
  apply wp_bind.
  eapply wp_mono;
    [apply (wp_for_range_inv
              (fun '(g', h') => length g' = length gradients
                                ∧ length h' = length hessians) sound);
       [auto|]
    | intros [g' h'] Hgh; exact Hgh | auto].
  intros j [g' h'] Hj [Hg' Hh'].
  apply wp_rd; [intros Hout; exfalso; apply Hout; lia | intros gj _ _].
  apply wp_rd; [intros Hout; exfalso; apply Hout; lia | intros wj _ _].
  apply wp_wr; [intros Hout; exfalso; apply Hout; lia | intros _].
  apply wp_rd; [intros Hout; exfalso; apply Hout; lia | intros hj _ _].
  apply wp_rd; [intros Hout; exfalso; apply Hout; lia | intros wj' _ _].
  apply wp_wr; [intros Hout; exfalso; apply Hout; lia | intros _].
  simpl. rewrite !length_insert. auto.
Qed.

End Bounds.

(** ** The slices of the queries, and the inverse maximal DCGs *)

Section Slices.
Context `{Libm, Meta, Dcg, Common, OpenMP}.

(** The array after a query wrote its slice of the view from [a] on. *)
Lemma store_frame {A} (a b : Z) (g view : list A) :
  0 ≤ a ≤ b →
  within (b - a) (from a g) view →
  length (store a g view) = length g
  ∧ ∀ d : nat, ¬ (a ≤ Z.of_nat d < b) → store a g view !! d = g !! d.
Proof.
  intros Hab [Hlen Hsame]. unfold store, from in *.
  rewrite length_drop in Hlen.
  split; [rewrite length_app, length_take; lia|].
  intros d Hd.
  destruct (Nat.le_gt_cases (Z.to_nat a) (length g)) as [Hle|Hgt].
  - destruct (Nat.lt_ge_cases d (Z.to_nat a)) as [Hlt|Hge].
    + rewrite lookup_app_l by (rewrite length_take; lia).
      apply lookup_take_lt. lia.
    + rewrite lookup_app_r by (rewrite length_take; lia).
      rewrite length_take, Nat.min_l by lia.
      rewrite Hsame by lia. rewrite lookup_drop. f_equal. lia.
  - assert (view = []) as -> by (apply length_zero_iff_nil; lia).
    rewrite app_nil_r, take_ge by lia. reflexivity.
Qed.

(** The loop over the queries writes the slices of the queries, when the
    computation of one query writes its own. *)
Lemma GetGradients_frame {M} (o : RankingObjective.t)
    (one_query : Z → Z → list float → list float → list float → list float
                 → M → result (list float * list float * M))
    (score gradients hessians : list float) (m : M) :
  well_formed o score gradients hessians →
  (∀ q cnt label score lambdas hess m,
     wp (one_query q cnt label score lambdas hess m)
        (fun '(l, h, _) => within cnt lambdas l ∧ within cnt hess h)
        (fun _ => True)) →
  wp (RankingObjective.GetGradients o one_query score gradients hessians m)
     (fun '(g, h, _) => outside_queries o gradients g
                        ∧ outside_queries o hessians h)
     (fun _ => True).
Proof.
  intros (qb & Hqb & Hn & Hbounds & _) Hone.
  unfold RankingObjective.GetGradients.
  apply (wp_for_range_inv
           (fun '(g, h, _) => outside_queries o gradients g
                              ∧ outside_queries o hessians h)).
  { repeat split; auto. }
  intros i [[g h] m0] Hi [[Hlg Hg] [Hlh Hh]].
  rewrite Hqb. simpl deref. rewrite ret_bind.
  destruct (Hbounds i Hi) as (a & b & Ha & Hb & Hab & _).
  rewrite (proj2 (rd_Ok v_query_boundaries qb i a)) by (split; [lia | exact Ha]).
  rewrite ret_bind.
  rewrite (proj2 (rd_Ok v_query_boundaries qb (i + 1) b))
    by (split; [lia | exact Hb]).
  rewrite ret_bind.
  apply wp_bind.
  eapply wp_mono; [apply (Hone i (b - a)) | | auto].
  intros [[l1 h1] m1] [Hl1 Hh1].
  destruct (store_frame a b g l1 ltac:(lia) Hl1) as [Hsl Hsg].
  destruct (store_frame a b h h1 ltac:(lia) Hh1) as [Hshl Hsh].
  assert (Hin : ∀ d : nat, ¬ in_query o d → ¬ (a ≤ Z.of_nat d < b)).
  { intros d Hd Hdab. apply Hd. exists qb, i, a, b. auto. }
  cbv beta iota zeta.
  set (Inv := fun '(g', h') =>
         (length g' = length g
          ∧ ∀ d : nat, ¬ (a ≤ Z.of_nat d < b) → g' !! d = g !! d)
         ∧ (length h' = length h
            ∧ ∀ d : nat, ¬ (a ≤ Z.of_nat d < b) → h' !! d = h !! d)
         : Prop).
  assert (Hdone : ∀ g' h', Inv (g', h') →
            outside_queries o gradients g' ∧ outside_queries o hessians h').
  { intros g' h' [[Hlg' Hg'] [Hlh' Hh']]. split; (split; [lia|]).
    - intros d Hd. rewrite Hg' by exact (Hin d Hd). exact (Hg d Hd).
    - intros d Hd. rewrite Hh' by exact (Hin d Hd). exact (Hh d Hd). }
  assert (Hstart : Inv (store a g l1, store a h h1)).
  { repeat split; assumption. }
  destruct (RankingObjective.weights_ o) as [w|];
    [|simpl; apply Hdone, Hstart].
  apply wp_bind.
  eapply wp_mono;
    [apply (wp_for_range_inv Inv (fun _ => True)); [exact Hstart|]
    | intros [g' h'] Hgh; simpl; apply Hdone, Hgh | auto].
  intros j [g' h'] Hj [[Hlg' Hg'] [Hlh' Hh']].
  apply wp_bind_any. intros x. apply wp_bind_any. intros wj.
  apply wp_wr; [auto | intros _].
  apply wp_bind_any. intros y. apply wp_bind_any. intros wj'.
  apply wp_wr; [auto | intros _].
  simpl. rewrite !length_insert.
  repeat split; try assumption; intros d Hd;
    rewrite list_lookup_insert_ne by lia; auto.
Qed.

(** X15. On a well-formed data set, a call of [GetGradients] of the pairwise
    objective that returns has written the slices of the queries only: the
    two arrays have the sizes they had, and the entries that lie in no
    query are the ones they had. *)
Theorem pairwise_GetGradients_writes_slices o
    (score gradients hessians : list float) g h m' :
  well_formed (LambdarankNDCG.ranking o) score gradients hessians →
  LambdarankNDCG.GetGradients o score gradients hessians = Ok (g, h, m') →
  outside_queries (LambdarankNDCG.ranking o) gradients g
  ∧ outside_queries (LambdarankNDCG.ranking o) hessians h.
Proof.
  intros Hwf Hrun. unfold LambdarankNDCG.GetGradients in Hrun.
  pose proof (GetGradients_frame (LambdarankNDCG.ranking o)
                (LambdarankNDCG.GetGradientsForOneQuery o)
                score gradients hessians (LambdarankNDCG.mut o) Hwf
                (query_within_wp o)) as Hwp.
  destruct (RankingObjective.GetGradients _ _ _ _ _ _) as [[[g0 h0] m0]|f];
    [|discriminate Hrun].
  rewrite ret_bind in Hrun. simpl in Hwp.
  destruct (LambdarankNDCG.unbiased_ o).
  - destruct (LambdarankNDCG.UpdatePositionBiasesAndGradients o m0);
      [|discriminate Hrun].
    injection Hrun as <- <- <-. exact Hwp.
  - injection Hrun as <- <- <-. exact Hwp.
Qed.

(** X16. On a well-formed data set, a call of [GetGradients] of the
    listwise objective that returns has written the slices of the queries
    only. *)
Theorem listwise_GetGradients_writes_slices (x : RankXENDCG.t)
    (score gradients hessians : list float) g h r :
  well_formed (RankXENDCG.ranking x) score gradients hessians →
  RankXENDCG.GetGradients x score gradients hessians = Ok (g, h, r) →
  outside_queries (RankXENDCG.ranking x) gradients g
  ∧ outside_queries (RankXENDCG.ranking x) hessians h.
Proof.
  intros Hwf Hrun. unfold RankXENDCG.GetGradients in Hrun.
  pose proof (GetGradients_frame (RankXENDCG.ranking x)
                (RankXENDCG.GetGradientsForOneQuery x)
                score gradients hessians (RankXENDCG.rands_ x) Hwf) as Hwp.
  rewrite Hrun in Hwp. apply Hwp.
  intros q cnt label score0 lambdas hess rands.
  eapply wp_mono; [apply listwise_frame_wp | | auto].
  intros [[l0 h0] r0] (Hl & Hh & _). auto.
Qed.

Lemma ConstructSigmoidTable_keeps (o o' : LambdarankNDCG.t) :
  LambdarankNDCG.ConstructSigmoidTable o = Ok o' →
  LambdarankNDCG.inverse_max_dcgs_ o' = LambdarankNDCG.inverse_max_dcgs_ o.
Proof.
  unfold LambdarankNDCG.ConstructSigmoidTable. cbv zeta. intros Hrun.
  apply bind_Ok in Hrun as (t0 & _ & Hrun).
  apply bind_Ok in Hrun as (t1 & _ & Hrun).
  injection Hrun as <-. reflexivity.
Qed.

Lemma InitPositionBiasesAndGradients_keeps (o o' : LambdarankNDCG.t) :
  LambdarankNDCG.InitPositionBiasesAndGradients o = Ok o' →
  LambdarankNDCG.inverse_max_dcgs_ o' = LambdarankNDCG.inverse_max_dcgs_ o.
Proof.
  unfold LambdarankNDCG.InitPositionBiasesAndGradients. cbv zeta. intros Hrun.
  do 4 (apply bind_Ok in Hrun as (? & _ & Hrun)).
  apply bind_Ok in Hrun as ([[[ib jb] ic] jc] & _ & Hrun).
  apply bind_Ok in Hrun as ([icb jcb] & _ & Hrun).
  injection Hrun as <-. reflexivity.
Qed.
(** X17. When [Init] returns, [inverse_max_dcgs_] has one entry for each
    query: the inverse of the maximal DCG of the query at the truncation
    level when that is positive, and the maximal DCG itself when it is
    not. *)
Theorem Init_inverse_max_dcgs (o o' : LambdarankNDCG.t) metadata num_data :
  LambdarankNDCG.Init o metadata num_data = Ok o' →
  ∃ qb,
    query_boundaries metadata = Some qb
    ∧ Z.of_nat (length (LambdarankNDCG.inverse_max_dcgs_ o'))
      = Z.max 0 (num_queries metadata)
    ∧ ∀ q, 0 ≤ q < num_queries metadata →
        ∃ a b, qb !! Z.to_nat q = Some a ∧ qb !! Z.to_nat (q + 1) = Some b
               ∧ LambdarankNDCG.inverse_max_dcgs_ o' !! Z.to_nat q
                 = Some (let d := CalMaxDCGAtK
                                    (LambdarankNDCG.truncation_level_ o)
                                    (from a (label metadata)) (b - a) in
                         if (0 <? d)%float then (1 / d)%float else d).
Proof.
  intros Hinit. unfold LambdarankNDCG.Init, RankingObjective.Init in Hinit.
  destruct (query_boundaries metadata) as [qb|] eqn:Hqb; [|discriminate].
  exists qb. split; [reflexivity|].
  rewrite ret_bind in Hinit. simpl in Hinit.
  apply bind_Ok in Hinit as (u & _ & Hinit).
  apply bind_Ok in Hinit as (d0 & Hd0 & Hinit).
  apply bind_Ok in Hinit as (d & Hd & Hinit).
  apply bind_Ok in Hinit as (o1 & Htable & Hbias).
  set (n := num_queries metadata) in *.
  set (T := LambdarankNDCG.truncation_level_ o) in *.
  set (entry := fun a b : Z =>
         let d := CalMaxDCGAtK T (from a (label metadata)) (b - a) in
         if (0 <? d)%float then (1 / d)%float else d).
  assert (Hn : 0 ≤ n ∧ Z.of_nat (length d0) = n).
  { unfold resize in Hd0. destruct (Z.ltb_spec n 0); [discriminate|].
    injection Hd0 as <-.
    rewrite length_app, length_take, length_replicate. lia. }
  destruct Hn as [Hn Hl0].
  assert (Hfilled : Z.of_nat (length d) = n
            ∧ ∀ q, 0 ≤ q < n →
                ∃ a b, qb !! Z.to_nat q = Some a
                       ∧ qb !! Z.to_nat (q + 1) = Some b
                       ∧ d !! Z.to_nat q = Some (entry a b)).
  { pose proof (wp_for_range
                  (fun k dcgs => Z.of_nat (length dcgs) = n
                     ∧ ∀ q, 0 ≤ q < k →
                         ∃ a b, qb !! Z.to_nat q = Some a
                                ∧ qb !! Z.to_nat (q + 1) = Some b
                                ∧ dcgs !! Z.to_nat q = Some (entry a b))
                  (fun _ => True) 0 n) as Hloop.
    match type of Hd with
    | for_range _ _ ?body _ = _ => specialize (Hloop body d0 Hn)
    end.
    rewrite Hd in Hloop. apply Hloop.
    - split; [exact Hl0 | intros q Hq; lia].
    - intros k dcgs Hk [Hlen Hinv].
      apply wp_rd; [auto | intros a _ Ha].
      apply wp_rd; [auto | intros b _ Hb].
      match goal with
      | |- wp (wr ?v ?l ?i ?x) _ _ =>
          destruct (wr v l i x) as [dcgs'|f] eqn:Ew; [|exact Logic.I]
      end.
      apply wr_Ok in Ew as [_ ->].
      simpl. rewrite length_insert. split; [exact Hlen|].
      intros q Hq. destruct (Z.eq_dec q k) as [->|Hne].
      + exists a, b. split; [exact Ha|]. split; [exact Hb|].
        rewrite list_lookup_insert_eq by lia. reflexivity.
      + destruct (Hinv q ltac:(lia)) as (a' & b' & Ha' & Hb' & Hq').
        exists a', b'. split; [exact Ha'|]. split; [exact Hb'|].
        rewrite list_lookup_insert_ne by lia. exact Hq'. }
  assert (Hkeep : LambdarankNDCG.inverse_max_dcgs_ o' = d).
  { rewrite (InitPositionBiasesAndGradients_keeps _ _ Hbias).
    rewrite (ConstructSigmoidTable_keeps _ _ Htable). reflexivity. }
  rewrite Hkeep. destruct Hfilled as [Hlen Hq].
  split; [lia | exact Hq].
Qed.

End Slices.

(** ** Two runs side by side *)

Lemma sim_Ok {A B} (R : A → B → Prop) a b : R a b → sim R (Ok a) (Ok b).
Proof. intros HR. exists b. auto. Qed.

Lemma sim_bind {A A' B B'} (R0 : A → A' → Prop) (R : B → B' → Prop)
    (m : result A) (m' : result A') k k' :
  sim R0 m m' → (∀ a a', R0 a a' → sim R (k a) (k' a')) →
  sim R (m ≫= k) (m' ≫= k').
Proof.
  unfold sim. destruct m as [a|f]; simpl; [|auto].
  intros (a' & -> & Ha) Hk. exact (Hk a a' Ha).
Qed.

Lemma sim_mono {A B} (R R' : A → B → Prop) (r : result A) (r' : result B) :
  sim R r r' → (∀ a b, R a b → R' a b) → sim R' r r'.
Proof.
  unfold sim. destruct r as [a|f]; simpl; [|auto].
  intros (b & E & Hab) HR. eauto.
Qed.

(** The two runs make the same computation. *)
Lemma sim_shared {A B B'} (Q : A → Prop) (R : B → B' → Prop)
    (m : result A) k k' :
  wp m Q (fun _ => True) → (∀ a, Q a → sim R (k a) (k' a)) →
  sim R (m ≫= k) (m ≫= k').
Proof. unfold sim. destruct m as [a|f]; simpl; auto. Qed.

Lemma sim_rd {A B B'} (R : B → B' → Prop) v (l l' : list A) i k k' :
  (∀ x, 0 ≤ i < Z.of_nat (length l) → l !! Z.to_nat i = Some x →
        l' !! Z.to_nat i = Some x ∧ sim R (k x) (k' x)) →
  sim R (rd v l i ≫= k) (rd v l' i ≫= k').
Proof.
  intros Hk. unfold sim. apply wp_rd; [auto|]. intros x Hin Hx.
  destruct (Hk x Hin Hx) as [Hx' Hs].
  rewrite (proj2 (rd_Ok v l' i x)) by (split; [lia | exact Hx']).
  exact Hs.
Qed.

Lemma sim_wr {A B B'} (R : B → B' → Prop) v (l l' : list A) i x k k' :
  (0 ≤ i < Z.of_nat (length l) →
   0 ≤ i < Z.of_nat (length l')
   ∧ sim R (k (<[Z.to_nat i := x]> l)) (k' (<[Z.to_nat i := x]> l'))) →
  sim R (wr v l i x ≫= k) (wr v l' i x ≫= k').
Proof.
  intros Hk. unfold sim. apply wp_wr; [auto|]. intros Hin.
  destruct (Hk Hin) as [Hin' Hs]. rewrite wr_lt by exact Hin'. exact Hs.
Qed.

Lemma sim_for_loop {St St'} (R : Z → St → St' → Prop) n lo
    (body : Z → St → result St) (body' : Z → St' → result St') s s' :
  R lo s s' →
  (∀ i u u', lo ≤ i < lo + Z.of_nat n → R i u u' →
             sim (R (i + 1)) (body i u) (body' i u')) →
  sim (R (lo + Z.of_nat n)) (for_loop n lo body s) (for_loop n lo body' s').
Proof.
  revert lo s s'. induction n as [|n IH]; intros lo s s' H0 Hbody.
  - simpl. replace (lo + Z.of_nat 0) with lo by lia. apply sim_Ok, H0.
  - simpl for_loop.
    apply (sim_bind (R (lo + 1))); [apply Hbody; [lia | exact H0]|].
    intros u u' Hu.
    replace (lo + Z.of_nat (S n)) with ((lo + 1) + Z.of_nat n) by lia.
    apply IH; [exact Hu|]. intros i v v' Hi. apply Hbody. lia.
Qed.

Lemma sim_for_range {St St'} (R : Z → St → St' → Prop) lo hi
    (body : Z → St → result St) (body' : Z → St' → result St') s s' :
  lo ≤ hi → R lo s s' →
  (∀ i u u', lo ≤ i < hi → R i u u' →
             sim (R (i + 1)) (body i u) (body' i u')) →
  sim (R hi) (for_range lo hi body s) (for_range lo hi body' s').
Proof.
  intros Hle H0 Hbody. unfold for_range.
  replace hi with (lo + Z.of_nat (Z.to_nat (hi - lo))) at 1 by lia.
  apply sim_for_loop; [exact H0|]. intros i u u' Hi. apply Hbody. lia.
Qed.

Lemma sim_for_range_inv {St St'} (R : St → St' → Prop) lo hi
    (body : Z → St → result St) (body' : Z → St' → result St') s s' :
  R s s' →
  (∀ i u u', lo ≤ i < hi → R u u' → sim R (body i u) (body' i u')) →
  sim R (for_range lo hi body s) (for_range lo hi body' s').
Proof.
  intros H0 Hbody. destruct (Z.le_gt_cases lo hi) as [Hle|Hgt].
  - apply (sim_for_range (fun _ => R)); assumption.
  - rewrite !for_range_empty by lia. apply sim_Ok, H0.
Qed.

Lemma agree_insert {A} cnt (l l' : list A) (i : nat) x :
  (i < length l)%nat → (i < length l')%nat →
  agree cnt l l' → agree cnt (<[i := x]> l) (<[i := x]> l').
Proof.
  intros Hi Hi' Hl k Hk. destruct (decide (k = i)) as [->|Hne].
  - rewrite !list_lookup_insert_eq by lia. reflexivity.
  - rewrite !list_lookup_insert_ne by lia. apply Hl, Hk.
Qed.

Lemma agree_step {A} (i : Z) (l l' : list A) x :
  0 ≤ i < Z.of_nat (length l) → 0 ≤ i < Z.of_nat (length l') →
  agree i l l' →
  agree (i + 1) (<[Z.to_nat i := x]> l) (<[Z.to_nat i := x]> l').
Proof.
  intros Hi Hi' Hl k Hk. destruct (decide (k = Z.to_nat i)) as [->|Hne].
  - rewrite !list_lookup_insert_eq by lia. reflexivity.
  - rewrite !list_lookup_insert_ne by lia. apply Hl. lia.
Qed.

Lemma agree_weaken {A} (i j : Z) (l l' : list A) :
  i ≤ j → agree j l l' → agree i l l'.
Proof. intros Hij Hl k Hk. apply Hl. lia. Qed.

Lemma agree_lookup {A} cnt (l l' : list A) (i : Z) x :
  agree cnt l l' → 0 ≤ i < cnt → l !! Z.to_nat i = Some x →
  l' !! Z.to_nat i = Some x.
Proof. intros Hl Hi Hx. rewrite Hl by lia. exact Hx. Qed.

Lemma sim_facts {A B} (R : A → B → Prop) (Q : A → Prop) (Q' : B → Prop)
    (r : result A) (r' : result B) :
  sim R r r' → wp r Q (fun _ => True) → wp r' Q' (fun _ => True) →
  sim (fun a b => R a b ∧ Q a ∧ Q' b) r r'.
Proof.
  unfold sim. destruct r as [a|f]; simpl; [|auto].
  intros (b & -> & Hab) Ha Hb. simpl in Hb. eauto.
Qed.

Section Overwrite.
Context `{Libm, Meta, Dcg, Common, OpenMP}.

Lemma zero_init_sim (cnt : Z) (lambdas hessians lambdas' hessians' : list float) :
  cnt ≤ Z.of_nat (length lambdas') → cnt ≤ Z.of_nat (length hessians') →
  sim (cleared_alike cnt lambdas' hessians')
    (for_range 0 cnt (fun i '(lambdas, hessians) =>
       lambdas ← wr v_lambdas lambdas i 0%float;
       hessians ← wr v_hessians hessians i 0%float;
       Ok (lambdas, hessians)) (lambdas, hessians))
    (for_range 0 cnt (fun i '(lambdas, hessians) =>
       lambdas ← wr v_lambdas lambdas i 0%float;
       hessians ← wr v_hessians hessians i 0%float;
       Ok (lambdas, hessians)) (lambdas', hessians')).
Proof.
  intros Hl Hh. destruct (Z.le_gt_cases 0 cnt) as [Hc|Hc].
  - apply (sim_for_range (fun i => cleared_alike i lambdas' hessians'));
      [exact Hc | repeat split; intros k Hk; lia |].
    intros i [l h] [l' h'] Hi (Hal & Hah & Hll & Hlh). simpl in *.
    apply sim_wr. intros Hin. split; [lia|].
    apply sim_wr. intros Hin'. split; [lia|].
    apply sim_Ok. unfold cleared_alike. simpl. rewrite !length_insert.
    repeat split; try assumption; apply agree_step; try assumption; lia.
  - rewrite !for_range_empty by lia. apply sim_Ok.
    repeat split; intros k Hk; lia.
Qed.


Lemma pair_ends o cnt inverse_max_dcg best_score worst_score
    label score sorted_idx (i j : Z) :
  0 ≤ i < j → j < cnt →
  (∀ k x, sorted_idx !! k = Some x → 0 ≤ x < cnt) →
  wp (LambdarankNDCG.pair_terms o inverse_max_dcg best_score worst_score
        label score sorted_idx i j)
     (fun p => match p with
               | None => True
               | Some p => 0 ≤ LambdarankNDCG.low p < cnt
                           ∧ 0 ≤ LambdarankNDCG.high p < cnt
               end)
     (fun _ => True).
Proof.
  intros Hij Hj Hrank.
  eapply wp_mono;
    [apply (pair_terms_wp o cnt _ _ _ label score sorted_idx 0%nat 0%nat
              i j Hij Hj)
    | | auto].
  intros [p|]; [|auto].
  intros (si & sj & s & Hsi & Hsj & _ & _ & _ & _ & Hends).
  pose proof (Hrank _ _ Hsi). pose proof (Hrank _ _ Hsj).
  destruct Hends as [[-> ->]|[-> ->]]; auto.
Qed.

Lemma pair_sim o tid cnt inverse_max_dcg best_score worst_score
    label score sorted_idx (i j : Z) (a a' : LambdarankNDCG.pairs) :
  0 ≤ i < j → j < cnt →
  (∀ k x, sorted_idx !! k = Some x → 0 ≤ x < cnt) →
  pairs_alike cnt a a' →
  sim (pairs_alike cnt)
    (LambdarankNDCG.pair o tid inverse_max_dcg best_score worst_score
       label score sorted_idx i j a)
    (LambdarankNDCG.pair o tid inverse_max_dcg best_score worst_score
       label score sorted_idx i j a').
Proof.
  intros Hij Hj Hrank (Hal & Hah & Hll & Hlh & Hsum & Hcosts).
  unfold LambdarankNDCG.pair.
  eapply sim_shared; [apply (pair_ends o cnt); eassumption|].
  intros [p|]; [|intros _; apply sim_Ok; repeat split; assumption].
  intros [Hlow Hhigh]. rewrite Hcosts, Hsum.
  eapply sim_shared with (Q := fun _ => True);
    [destruct (LambdarankNDCG.charge _ _ _ _); exact Logic.I|].
  intros m _.
  eapply sim_shared with (Q := fun _ => True);
    [destruct (LambdarankNDCG.debiased _ _ _); exact Logic.I|].
  intros [p_lambda p_hessian] _.
  apply sim_rd. intros x Hin Hx.
  split; [exact (agree_lookup _ _ _ _ _ Hal Hlow Hx)|].
  apply sim_wr. intros _. split; [lia|].
  apply sim_rd. intros y Hin' Hy.
  split; [exact (agree_lookup _ _ _ _ _ Hah Hlow Hy)|].
  apply sim_wr. intros _. split; [lia|].
  assert (Hal' : agree cnt
            (<[Z.to_nat (LambdarankNDCG.low p)
               := to_score_t (x - to_score_t p_lambda)]>
               (LambdarankNDCG.acc_lambdas a))
            (<[Z.to_nat (LambdarankNDCG.low p)
               := to_score_t (x - to_score_t p_lambda)]>
               (LambdarankNDCG.acc_lambdas a')))
    by (apply agree_insert; [lia | lia | exact Hal]).
  assert (Hah' : agree cnt
            (<[Z.to_nat (LambdarankNDCG.low p)
               := to_score_t (y + to_score_t p_hessian)]>
               (LambdarankNDCG.acc_hessians a))
            (<[Z.to_nat (LambdarankNDCG.low p)
               := to_score_t (y + to_score_t p_hessian)]>
               (LambdarankNDCG.acc_hessians a')))
    by (apply agree_insert; [lia | lia | exact Hah]).
  apply sim_rd. intros x' Hin2 Hx'.
  split; [exact (agree_lookup _ _ _ _ _ Hal' Hhigh Hx')|].
  apply sim_wr. intros _. split; [rewrite length_insert; lia|].
  apply sim_rd. intros y' Hin3 Hy'.
  split; [exact (agree_lookup _ _ _ _ _ Hah' Hhigh Hy')|].
  apply sim_wr. intros _. split; [rewrite length_insert; lia|].
  apply sim_Ok. unfold pairs_alike. simpl. rewrite !length_insert.
  rewrite length_insert in Hin2, Hin3.
  repeat split; try assumption; try reflexivity;
    apply agree_insert; rewrite ?length_insert; try assumption; lia.
Qed.

Lemma accumulate_sim o (query_id cnt : Z)
    (label score lambdas hessians lambdas' hessians' : list float) m :
  cnt ≤ Z.of_nat (length lambdas') → cnt ≤ Z.of_nat (length hessians') →
  sim (pairs_alike cnt)
    (LambdarankNDCG.accumulate o query_id cnt label score lambdas hessians m)
    (LambdarankNDCG.accumulate o query_id cnt label score lambdas' hessians' m).
Proof.
  intros Hl Hh. unfold LambdarankNDCG.accumulate.
  eapply sim_shared with (Q := fun _ => True);
    [destruct (rd _ _ _); exact Logic.I|].
  intros inverse_max_dcg _.
  eapply sim_bind; [apply zero_init_sim; assumption|].
  intros [l0 h0] [l0' h0'] (Hal & Hah & Hll & Hlh). simpl in *.
  unfold vector. destruct (Z.ltb_spec cnt 0) as [Hc|Hc]; [exact Logic.I|].
  rewrite !ret_bind.
  destruct (for_range_fill v_sorted_idx (fun i => i) cnt
              (replicate (Z.to_nat cnt) 0)) as (s0 & -> & Hlen0 & Hk).
  { rewrite length_replicate. lia. }
  rewrite !ret_bind. rewrite (filled_seqZ cnt s0 Hlen0 Hk).
  eapply sim_shared;
    [eapply wp_mono; [apply (stable_sort_wp cnt score) | | auto];
     intros r Hr; exact Hr|].
  intros sorted_idx Hperm.
  destruct (ranking_facts cnt sorted_idx Hperm Hc) as (_ & _ & Hrank).
  do 5 (eapply sim_shared with (Q := fun _ => True);
        [match goal with |- wp ?r _ _ => destruct r; exact Logic.I end
        | let v := fresh "v" in intros v _]).
  apply sim_for_range_inv.
  { unfold pairs_alike. simpl. repeat split; try assumption; lia. }
  intros i a a' Hi Ha.
  do 2 (eapply sim_shared with (Q := fun _ => True);
        [match goal with |- wp ?r _ _ => destruct r; exact Logic.I end
        | let v := fresh "v" in intros v _]).
  match goal with |- sim _ (if ?c then _ else _) _ => destruct c end;
    [apply sim_Ok, Ha|].
  apply sim_for_range_inv; [exact Ha|].
  intros j b b' Hj Hb. apply pair_sim; try assumption; lia.
Qed.


Lemma normalize_sim (cnt : Z) (a a' : LambdarankNDCG.pairs) :
  pairs_alike cnt a a' →
  sim (arrays_alike cnt)
    (LambdarankNDCG.normalize cnt a) (LambdarankNDCG.normalize cnt a').
Proof.
  intros (Hal & Hah & Hll & Hlh & Hsum & Hcosts).
  unfold LambdarankNDCG.normalize. rewrite Hsum.
  apply sim_for_range_inv; [repeat split; assumption|].
  intros i [l h] [l' h'] Hi (Hl & Hh & Hll' & Hlh'). simpl in *.
  apply sim_rd. intros x Hin Hx.
  split; [exact (agree_lookup _ _ _ _ _ Hl Hi Hx)|].
  apply sim_wr. intros _. split; [lia|].
  apply sim_rd. intros y Hin' Hy.
  split; [exact (agree_lookup _ _ _ _ _ Hh Hi Hy)|].
  apply sim_wr. intros _. split; [lia|].
  apply sim_Ok. unfold arrays_alike. simpl. rewrite !length_insert.
  repeat split; try assumption; apply agree_insert; try assumption; lia.
Qed.

(** The two runs of [GetGradientsForOneQuery] on arrays that hold other
    values. *)
Lemma query_sim o (query_id cnt : Z)
    (label score lambdas hessians lambdas' hessians' : list float) m :
  cnt ≤ Z.of_nat (length lambdas') → cnt ≤ Z.of_nat (length hessians') →
  sim (results_alike cnt)
    (LambdarankNDCG.GetGradientsForOneQuery
       o query_id cnt label score lambdas hessians m)
    (LambdarankNDCG.GetGradientsForOneQuery
       o query_id cnt label score lambdas' hessians' m).
Proof.
  intros Hl Hh. unfold LambdarankNDCG.GetGradientsForOneQuery.
  eapply sim_bind; [apply accumulate_sim; assumption|].
  intros a a' Ha.
  pose proof Ha as (Hal & Hah & Hll & Hlh & Hsum & Hcosts).
  rewrite Hsum, Hcosts.
  destruct (_ && _).
  - eapply sim_bind; [apply normalize_sim, Ha|].
    intros [l0 h0] [l0' h0'] (Hl0 & Hh0 & _).
    apply sim_Ok. repeat split; assumption.
  - apply sim_Ok. repeat split; assumption.
Qed.

(** X18. The lambdas and the hessians that [GetGradientsForOneQuery]
    returns for the documents of the query do not depend on what the two
    arrays held: with other arrays of [cnt] entries at least the function
    returns too, with the same entries below [cnt] and the same
    position-bias model. *)
Theorem query_overwrites o (query_id cnt : Z)
    (label score lambdas hessians lambdas' hessians' : list float) m l h m' :
  cnt ≤ Z.of_nat (length lambdas') → cnt ≤ Z.of_nat (length hessians') →
  LambdarankNDCG.GetGradientsForOneQuery
    o query_id cnt label score lambdas hessians m = Ok (l, h, m') →
  ∃ l' h',
    LambdarankNDCG.GetGradientsForOneQuery
      o query_id cnt label score lambdas' hessians' m = Ok (l', h', m')
    ∧ agree cnt l l' ∧ agree cnt h h'.
Proof.
  intros Hl Hh Hrun.
  pose proof (query_sim o query_id cnt label score lambdas hessians
                lambdas' hessians' m Hl Hh) as Hsim.
  unfold sim in Hsim. rewrite Hrun in Hsim.
  destruct Hsim as ([[l' h'] m''] & E & Hal & Hah & Hm).
  simpl in Hal, Hah, Hm. subst m''. eauto.
Qed.

(** A read that the two runs make in the same array. *)
Ltac same_rd x :=
  apply sim_rd; intros x ? ?; split; [assumption|].

(** The two runs of the listwise computer on arrays that hold other
    values. *)
Lemma listwise_sim (x : RankXENDCG.t) (query_id cnt : Z)
    (label score lambdas hessians lambdas' hessians' : list float)
    (rands : list Random) :
  cnt ≤ Z.of_nat (length lambdas') → cnt ≤ Z.of_nat (length hessians') →
  sim (results_alike cnt)
    (RankXENDCG.GetGradientsForOneQuery
       x query_id cnt label score lambdas hessians rands)
    (RankXENDCG.GetGradientsForOneQuery
       x query_id cnt label score lambdas' hessians' rands).
Proof.
  intros Hl Hh. unfold RankXENDCG.GetGradientsForOneQuery.
  destruct (Z.leb_spec cnt 1) as [Hc|Hc].
  - eapply sim_bind; [apply zero_init_sim; assumption|].
    intros [l0 h0] [l0' h0'] (Hal & Hah & _).
    apply sim_Ok. repeat split; assumption.
  - eapply sim_shared with (Q := fun _ => True);
      [destruct (vector _ _); exact Logic.I | intros params _].
    eapply sim_shared with (Q := fun _ => True);
      [match goal with |- wp ?r _ _ => destruct r; exact Logic.I end|].
    intros [[params1 inv_denominator] rands1] _.
    eapply (sim_bind
              (fun s s' => agree cnt s.1.1 s'.1.1
                           ∧ cnt ≤ Z.of_nat (length s'.1.1)
                           ∧ s'.1.2 = s.1.2 ∧ s'.2 = s.2)).
    { eapply (sim_for_range
                (fun i s s' => agree i s.1.1 s'.1.1
                               ∧ cnt ≤ Z.of_nat (length s'.1.1)
                               ∧ s'.1.2 = s.1.2 ∧ s'.2 = s.2));
        [lia | simpl; repeat split; auto; intros k Hk; lia |].
      intros i [[l0 p0] s0] [[l0' p0'] s0'] Hi (Hal & Hll & Hp & Hs).
      simpl in Hal, Hll, Hp, Hs. subst p0' s0'.
      same_rd xi. same_rd ri.
      apply sim_wr. intros Hin. split; [lia|].
      same_rd ri'. apply sim_wr. intros _. split; [assumption|].
      same_rd xi'.
      apply sim_Ok. simpl. rewrite length_insert.
      repeat split; try assumption. apply agree_step; [assumption | lia | exact Hal]. }
    intros [[l1 p1] s1] [[l1' p1'] s1'] (Hal & Hll & Hp & Hs).
    simpl in Hal, Hll, Hp, Hs. subst p1' s1'.
    eapply (sim_bind
              (fun s s' => agree cnt s.1.1 s'.1.1
                           ∧ cnt ≤ Z.of_nat (length s'.1.1)
                           ∧ s'.1.2 = s.1.2 ∧ s'.2 = s.2)).
    { apply sim_for_range_inv; [simpl; auto|].
      intros i [[l0 p0] s0] [[l0' p0'] s0'] Hi (Hal0 & Hll0 & Hp & Hs).
      simpl in Hal0, Hll0, Hp, Hs. subst p0' s0'.
      same_rd ri. same_rd xi.
      apply sim_rd. intros y Hin Hy.
      split; [exact (agree_lookup _ _ _ _ _ Hal0 Hi Hy)|].
      apply sim_wr. intros _. split; [lia|].
      same_rd ri'. apply sim_wr. intros _. split; [assumption|].
      same_rd xi'.
      apply sim_Ok. simpl. rewrite length_insert.
      repeat split; try assumption. apply agree_insert; [lia | lia | exact Hal0]. }
    intros [[l2 p2] s2] [[l2' p2'] s2'] (Hal2 & Hll2 & Hp & Hs).
    simpl in Hal2, Hll2, Hp, Hs. subst p2' s2'.
    eapply (sim_bind
              (fun s s' => agree cnt s.1 s'.1 ∧ agree cnt s.2 s'.2)).
    { eapply sim_mono;
        [apply (sim_for_range
                  (fun i s s' => agree cnt s.1 s'.1 ∧ agree i s.2 s'.2
                                 ∧ cnt ≤ Z.of_nat (length s'.1)
                                 ∧ length s'.2 = length hessians'));
           [lia | simpl; repeat split; auto; intros k Hk; lia |]
        | intros [l3 h3] [l3' h3'] (Hl3 & Hh3 & _); auto].
      intros i [l0 h0] [l0' h0'] Hi (Hal0 & Hah0 & Hll0 & Hlh0).
      simpl in Hal0, Hah0, Hll0, Hlh0.
      same_rd ri. same_rd xi.
      apply sim_rd. intros y Hin Hy.
      split; [exact (agree_lookup _ _ _ _ _ Hal0 Hi Hy)|].
      apply sim_wr. intros _. split; [lia|].
      same_rd ri'. same_rd ri''.
      apply sim_wr. intros Hin'. split; [lia|].
      apply sim_Ok. simpl. rewrite !length_insert.
      repeat split; try assumption.
      - apply agree_insert; [lia | lia | exact Hal0].
      - apply agree_step; [assumption | lia | exact Hah0]. }
    intros [l3 h3] [l3' h3'] [Hl3 Hh3].
    apply sim_Ok. repeat split; assumption.
Qed.

(** X19. The lambdas and the hessians that the listwise computer returns
    for the documents of the query do not depend on what the two arrays
    held either, and the random draws are the same. *)
Theorem listwise_overwrites (x : RankXENDCG.t) (query_id cnt : Z)
    (label score lambdas hessians lambdas' hessians' : list float)
    (rands : list Random) l h r :
  cnt ≤ Z.of_nat (length lambdas') → cnt ≤ Z.of_nat (length hessians') →
  RankXENDCG.GetGradientsForOneQuery
    x query_id cnt label score lambdas hessians rands = Ok (l, h, r) →
  ∃ l' h',
    RankXENDCG.GetGradientsForOneQuery
      x query_id cnt label score lambdas' hessians' rands = Ok (l', h', r)
    ∧ agree cnt l l' ∧ agree cnt h h'.
Proof.
  intros Hl Hh Hrun.
  pose proof (listwise_sim x query_id cnt label score lambdas hessians
                lambdas' hessians' rands Hl Hh) as Hsim.
  unfold sim in Hsim. rewrite Hrun in Hsim.
  destruct Hsim as ([[l' h'] r'] & E & Hal & Hah & Hr).
  simpl in Hal, Hah, Hr. subst r'. eauto.
Qed.

End Overwrite.

(** ** The weights of the documents *)

Section Weights.
Context `{Libm, Meta, Dcg, Common, OpenMP}.

Lemma boundaries_mono (qb : list Z) (nq N : Z) :
  (∀ q, 0 ≤ q < nq →
     ∃ a b, qb !! Z.to_nat q = Some a ∧ qb !! Z.to_nat (q + 1) = Some b
            ∧ 0 ≤ a ≤ b ∧ b ≤ N) →
  ∀ (n : nat) p a b, 0 ≤ p → p + Z.of_nat n ≤ nq →
    qb !! Z.to_nat p = Some a → qb !! Z.to_nat (p + Z.of_nat n) = Some b →
    a ≤ b.
Proof.
  intros Hbounds n. induction n as [|n IH]; intros p a b Hp Hq Ha Hb.
  - replace (p + Z.of_nat 0) with p in Hb by lia.
    rewrite Ha in Hb. injection Hb as <-. lia.
  - destruct (Hbounds (p + Z.of_nat n) ltac:(lia))
      as (c & c' & Hc & Hc' & Hcc & _).
    replace (p + Z.of_nat n + 1) with (p + Z.of_nat (S n)) in Hc' by lia.
    rewrite Hb in Hc'. injection Hc' as <-.
    pose proof (IH p a c Hp ltac:(lia) Ha Hc). lia.
Qed.

(** The loop that multiplies the slice of a query by the weights. *)
Lemma weights_loop (a cnt : Z) (w g h : list float) :
  0 ≤ a → 0 ≤ cnt →
  a + cnt ≤ Z.of_nat (length g) → a + cnt ≤ Z.of_nat (length h) →
  a + cnt ≤ Z.of_nat (length w) →
  ∃ g2 h2,
    for_range 0 cnt (fun j '(gradients, hessians) =>
      x ← rd v_gradients gradients (a + j);
      wj ← rd v_weights w (a + j);
      gradients ← wr v_gradients gradients (a + j) (to_score_t (x * wj));
      y ← rd v_hessians hessians (a + j);
      wj ← rd v_weights w (a + j);
      hessians ← wr v_hessians hessians (a + j) (to_score_t (y * wj));
      Ok (gradients, hessians)) (g, h) = Ok (g2, h2)
    ∧ scaled_slice a cnt w g g2 ∧ scaled_slice a cnt w h h2.
Proof.
  intros Ha Hc Hg Hh Hw.
  match goal with
  | |- ∃ g2 h2, ?r = _ ∧ _ =>
      cut (∃ s, r = Ok s ∧ scaled_slice a cnt w g s.1
                ∧ scaled_slice a cnt w h s.2);
        [intros ([g2 h2] & E & Hs); eauto|]
  end.
  apply wp_total.
  apply (wp_for_range
           (fun j s => scaled_slice a j w g s.1 ∧ scaled_slice a j w h s.2)
           (fun _ => False) 0 cnt); [exact Hc | |].
  { simpl. repeat split; auto; intros d x y Hd; lia. }
  intros j [gj hj] Hj [(Hlg & Hog & Hsg) (Hlh & Hoh & Hsh)]. simpl in *.
  apply wp_rd; [intros Hout; apply Hout; lia | intros x _ Hx].
  apply wp_rd; [intros Hout; apply Hout; lia | intros y _ Hy].
  apply wp_wr; [intros Hout; apply Hout; lia | intros _].
  apply wp_rd; [intros Hout; apply Hout; lia | intros x' _ Hx'].
  apply wp_rd; [intros Hout; apply Hout; lia | intros y' _ Hy'].
  apply wp_wr; [intros Hout; apply Hout; lia | intros _].
  simpl. rewrite Hog in Hx by lia. rewrite Hoh in Hx' by lia.
  unfold scaled_slice. rewrite !length_insert.
  repeat split; try assumption.
  - intros d Hd. rewrite list_lookup_insert_ne by lia. apply Hog. lia.
  - intros d x0 y0 Hd Hx0 Hy0.
    destruct (decide (d = Z.to_nat (a + j))) as [->|Hne].
    + rewrite list_lookup_insert_eq by lia. congruence.
    + rewrite list_lookup_insert_ne by lia. apply Hsg; [lia | assumption..].
  - intros d Hd. rewrite list_lookup_insert_ne by lia. apply Hoh. lia.
  - intros d x0 y0 Hd Hx0 Hy0.
    destruct (decide (d = Z.to_nat (a + j))) as [->|Hne].
    + rewrite list_lookup_insert_eq by lia. congruence.
    + rewrite list_lookup_insert_ne by lia. apply Hsh; [lia | assumption..].
Qed.

(** An entry of the slice of a query, in the array and in the view. *)
Lemma store_lookup {A} (a : Z) (g view : list A) (d : nat) :
  0 ≤ a ≤ Z.of_nat d → a ≤ Z.of_nat (length g) →
  store a g view !! d = view !! (d - Z.to_nat a)%nat.
Proof.
  intros Ha Hg. unfold store.
  rewrite lookup_app_r by (rewrite length_take; lia).
  rewrite length_take, Nat.min_l by lia. reflexivity.
Qed.


(** Two runs of the loop over the queries, the second one on the data set
    with the weights [w]. *)
Lemma GetGradients_weighted {M} (r : RankingObjective.t) (w : list float)
    (one_query : Z → Z → list float → list float → list float → list float
                 → M → result (list float * list float * M))
    (score gradients hessians : list float) (m : M) :
  RankingObjective.weights_ r = None →
  well_formed r score gradients hessians →
  RankingObjective.num_data_ r ≤ Z.of_nat (length w) →
  (∀ q cnt label score lambdas hess m,
     wp (one_query q cnt label score lambdas hess m)
        (fun '(l, h, _) => within cnt lambdas l ∧ within cnt hess h)
        (fun _ => True)) →
  (∀ q cnt label score l h l' h' m,
     cnt ≤ Z.of_nat (length l') → cnt ≤ Z.of_nat (length h') →
     sim (results_alike cnt) (one_query q cnt label score l h m)
       (one_query q cnt label score l' h' m)) →
  sim (fun s s' => weighted r w s.1.1 s'.1.1 ∧ weighted r w s.1.2 s'.1.2
                   ∧ s'.2 = s.2)
    (RankingObjective.GetGradients r one_query score gradients hessians m)
    (RankingObjective.GetGradients (reweighted r w) one_query
       score gradients hessians m).
Proof.
  intros Hnone (qb & Hqb & Hn & Hbounds & Hlabel & Hscore & Hg & Hh & _)
    Hw Hframe Hsim.
  unfold RankingObjective.GetGradients. simpl. rewrite Hnone, Hqb.
  set (N := RankingObjective.num_data_ r) in *.
  set (nq := RankingObjective.num_queries_ r) in *.
  set (done := fun (i : Z) (g g' : list float) =>
         ∀ (d : nat) x y q a b, 0 ≤ q < i →
           qb !! Z.to_nat q = Some a → qb !! Z.to_nat (q + 1) = Some b →
           a ≤ Z.of_nat d < b → g !! d = Some x → w !! d = Some y →
           g' !! d = Some (to_score_t (x * y))).
  set (Inv := fun (i : Z) (s s' : list float * list float * M) =>
         s'.2 = s.2
         ∧ length s.1.1 = length gradients ∧ length s'.1.1 = length gradients
         ∧ length s.1.2 = length hessians ∧ length s'.1.2 = length hessians
         ∧ done i s.1.1 s'.1.1 ∧ done i s.1.2 s'.1.2).
  assert (Hfinal : ∀ s s', Inv nq s s' →
            weighted r w s.1.1 s'.1.1 ∧ weighted r w s.1.2 s'.1.2
            ∧ s'.2 = s.2).
  { intros s s' (Hm & Hl1 & Hl1' & Hl2 & Hl2' & Hd1 & Hd2).
    split; [|split; [|exact Hm]]; (split; [lia|]);
      intros d x y (qb' & q & a & b & Hqb' & Hq & Ha & Hb & Hd) Hx Hy;
      rewrite Hqb in Hqb'; injection Hqb' as <-; eauto. }
  destruct (Z.le_gt_cases 0 nq) as [Hnq|Hnq];
    [|rewrite !for_range_empty by lia; apply sim_Ok, Hfinal;
      repeat split; auto; intros d x y q a b Hq; lia].
  eapply sim_mono; [|exact Hfinal].
  apply (sim_for_range Inv); [exact Hnq | |].
  { repeat split; auto; intros d x y q a b Hq; lia. }
  intros i [[g h] m0] [[g' h'] m0'] Hi
    (Hm & Hlg & Hlg' & Hlh & Hlh' & Hdg & Hdh).
  simpl in Hm, Hlg, Hlg', Hlh, Hlh', Hdg, Hdh. subst m0'.
  simpl deref. rewrite !ret_bind.
  destruct (Hbounds i Hi) as (a & b & Ha & Hb & Hab & HbN).
  rewrite !(proj2 (rd_Ok v_query_boundaries qb i a))
    by (split; [lia | exact Ha]).
  rewrite !ret_bind.
  rewrite !(proj2 (rd_Ok v_query_boundaries qb (i + 1) b))
    by (split; [lia | exact Hb]).
  rewrite !ret_bind.
  eapply sim_bind.
  { apply sim_facts;
      [apply (Hsim i (b - a)); unfold from; rewrite length_drop; lia
      | apply Hframe | apply Hframe]. }
  intros [[l1 h1] m1] [[l1' h1'] m1']
    ((Hal & Hah & Hm1) & [Hwl Hwh] & [Hwl' Hwh']).
  simpl in Hal, Hah, Hm1. subst m1'. cbv beta iota zeta.
  destruct (store_frame a b g l1 ltac:(lia) Hwl) as [Hsl Hsg].
  destruct (store_frame a b h h1 ltac:(lia) Hwh) as [Hshl Hsh].
  destruct (store_frame a b g' l1' ltac:(lia) Hwl') as [Hsl' Hsg'].
  destruct (store_frame a b h' h1' ltac:(lia) Hwh') as [Hshl' Hsh'].
  destruct (weights_loop a (b - a) w (store a g' l1') (store a h' h1'))
    as (g2 & h2 & E & (Hlg2 & Hog2 & Hsg2) & (Hlh2 & Hoh2 & Hsh2));
    try lia.
  rewrite E, ret_bind. apply sim_Ok.
  assert (Hstep : ∀ (u u' v v' v2 : list float),
            done i u u' →
            length u' = length u → a ≤ Z.of_nat (length u) →
            agree (b - a) v v' →
            (∀ d : nat, ¬ (a ≤ Z.of_nat d < b) →
                        store a u v !! d = u !! d) →
            (∀ d : nat, ¬ (a ≤ Z.of_nat d < b) →
                        store a u' v' !! d = u' !! d) →
            (∀ d : nat, ¬ (a ≤ Z.of_nat d < a + (b - a)) →
                        v2 !! d = store a u' v' !! d) →
            (∀ (d : nat) x y, a ≤ Z.of_nat d < a + (b - a) →
               store a u' v' !! d = Some x → w !! d = Some y →
               v2 !! d = Some (to_score_t (x * y))) →
            done (i + 1) (store a u v) v2).
  { intros u u' v v' v2 Hdone Hlen Hau Hagree Hout Hout' Hout2 Hin2
      d x y q a' b' Hq Ha' Hb' Hd Hx Hy.
    destruct (Z.eq_dec q i) as [->|Hne].
    - rewrite Ha in Ha'. injection Ha' as <-.
      rewrite Hb in Hb'. injection Hb' as <-.
      apply Hin2; [lia | | exact Hy].
      rewrite store_lookup in Hx |- * by lia.
      rewrite Hagree by lia. exact Hx.
    - assert (Hle : b' ≤ a).
      { apply (boundaries_mono qb nq N Hbounds (Z.to_nat (i - (q + 1)))
                 (q + 1) b' a); [lia | lia | exact Hb'|].
        replace (q + 1 + Z.of_nat (Z.to_nat (i - (q + 1)))) with i by lia.
        exact Ha. }
      rewrite Hout2, Hout' by lia. rewrite Hout in Hx by lia.
      exact (Hdone d x y q a' b' ltac:(lia) Ha' Hb' Hd Hx Hy). }
  unfold Inv. simpl.
  repeat split; try lia.
  - apply (Hstep g g' l1 l1' g2); try assumption; lia.
  - apply (Hstep h h' h1 h1' h2); try assumption; lia.
Qed.

Lemma pairwise_reweighted_query o w :
  LambdarankNDCG.GetGradientsForOneQuery (pairwise_reweighted o w)
  = LambdarankNDCG.GetGradientsForOneQuery o.
Proof. reflexivity. Qed.

Lemma pairwise_reweighted_update o w :
  LambdarankNDCG.UpdatePositionBiasesAndGradients (pairwise_reweighted o w)
  = LambdarankNDCG.UpdatePositionBiasesAndGradients o.
Proof. reflexivity. Qed.

(** X20. The weights multiply the gradients: on a well-formed data set, when
    [GetGradients] of the pairwise objective returns without weights, it
    returns with the weights [w] too, with the same position-bias model, and
    the gradient and the hessian of every document of a query are the ones
    without weights times the weight of the document, converted to
    [score_t]. *)
Theorem pairwise_weights_scale o (w score gradients hessians : list float)
    g h m :
  RankingObjective.weights_ (LambdarankNDCG.ranking o) = None →
  well_formed (LambdarankNDCG.ranking o) score gradients hessians →
  RankingObjective.num_data_ (LambdarankNDCG.ranking o)
  ≤ Z.of_nat (length w) →
  LambdarankNDCG.GetGradients o score gradients hessians = Ok (g, h, m) →
  ∃ g' h',
    LambdarankNDCG.GetGradients (pairwise_reweighted o w)
      score gradients hessians = Ok (g', h', m)
    ∧ weighted (LambdarankNDCG.ranking o) w g g'
    ∧ weighted (LambdarankNDCG.ranking o) w h h'.
Proof.
  intros Hnone Hwf Hw Hrun.
  pose proof (GetGradients_weighted (LambdarankNDCG.ranking o) w
                (LambdarankNDCG.GetGradientsForOneQuery o)
                score gradients hessians (LambdarankNDCG.mut o)
                Hnone Hwf Hw (query_within_wp o)
                (fun q cnt label score l h l' h' m =>
                   query_sim o q cnt label score l h l' h' m)) as Hsim.
  unfold LambdarankNDCG.GetGradients in Hrun |- *.
  rewrite pairwise_reweighted_query, pairwise_reweighted_update.
  change (LambdarankNDCG.ranking (pairwise_reweighted o w))
    with (reweighted (LambdarankNDCG.ranking o) w).
  change (LambdarankNDCG.mut (pairwise_reweighted o w))
    with (LambdarankNDCG.mut o).
  change (LambdarankNDCG.unbiased_ (pairwise_reweighted o w))
    with (LambdarankNDCG.unbiased_ o).
  unfold sim in Hsim.
  destruct (RankingObjective.GetGradients (LambdarankNDCG.ranking o) _ _ _ _ _)
    as [[[g0 h0] m0]|f]; [|discriminate Hrun].
  destruct Hsim as ([[g0' h0'] m0'] & -> & Hg & Hh & Hm).
  simpl in Hg, Hh, Hm. subst m0'. rewrite ret_bind in Hrun |- *.
  destruct (LambdarankNDCG.unbiased_ o).
  - destruct (LambdarankNDCG.UpdatePositionBiasesAndGradients o m0) as [m1|f];
      [|discriminate Hrun].
    rewrite ret_bind in Hrun |- *. injection Hrun as <- <- <-. eauto.
  - injection Hrun as <- <- <-. eauto.
Qed.

(** X21. The weights multiply the gradients of the listwise objective too:
    on a well-formed data set, when [GetGradients] returns without weights,
    it returns with the weights [w], with the same random draws, and the
    gradient and the hessian of every document of a query are the ones
    without weights times the weight of the document, converted to
    [score_t]. *)
Theorem listwise_weights_scale (x : RankXENDCG.t)
    (w score gradients hessians : list float) g h r :
  RankingObjective.weights_ (RankXENDCG.ranking x) = None →
  well_formed (RankXENDCG.ranking x) score gradients hessians →
  RankingObjective.num_data_ (RankXENDCG.ranking x) ≤ Z.of_nat (length w) →
  RankXENDCG.GetGradients x score gradients hessians = Ok (g, h, r) →
  ∃ g' h',
    RankXENDCG.GetGradients (listwise_reweighted x w)
      score gradients hessians = Ok (g', h', r)
    ∧ weighted (RankXENDCG.ranking x) w g g'
    ∧ weighted (RankXENDCG.ranking x) w h h'.
Proof.
  intros Hnone Hwf Hw Hrun.
  pose proof (GetGradients_weighted (RankXENDCG.ranking x) w
                (RankXENDCG.GetGradientsForOneQuery x)
                score gradients hessians (RankXENDCG.rands_ x)
                Hnone Hwf Hw) as Hsim.
  unfold RankXENDCG.GetGradients in Hrun |- *.
  change (RankXENDCG.GetGradientsForOneQuery (listwise_reweighted x w))
    with (RankXENDCG.GetGradientsForOneQuery x).
  change (RankXENDCG.ranking (listwise_reweighted x w))
    with (reweighted (RankXENDCG.ranking x) w).
  change (RankXENDCG.rands_ (listwise_reweighted x w))
    with (RankXENDCG.rands_ x).
  unfold sim in Hsim. rewrite Hrun in Hsim.
  destruct Hsim as ([[g' h'] r'] & E & Hg & Hh & Hr).
  - intros q cnt label score0 lambdas hess rands.
    eapply wp_mono; [apply listwise_frame_wp | | auto].
    intros [[l0 h0] r0] (Hl0 & Hh0 & _). auto.
  - intros q cnt label score0 l0 h0 l0' h0' rands.
    apply listwise_sim.
  - simpl in Hg, Hh, Hr. subst r'. eauto.
Qed.

End Weights.

(** ** Sample runs

    The objects of this section are built by the constructor and [Init]
    from the configurations and the data sets of [Sample], with the
    interfaces of [Ref]. The sigmoid table is never computed: a lookup is
    the expression that [ConstructSigmoidTable] stored in the bin. *)

Section SampleRuns.
#[local] Existing Instance Ref.libm.
#[local] Existing Instance Ref.meta.
#[local] Existing Instance Ref.dcg_calculator.
#[local] Existing Instance Ref.common.
#[local] Existing Instance Ref.openmp.

(** Against C1: the arrays hold 1.0 everywhere, the buffers hold a cost at
    rank 0 and none at rank 1, and the update stores [pow(0 / 0.25, 0.5)],
    an exact zero, as the bias power of rank 1. *)
Lemma C1_counterexample :
  (o ← Sample.seeded;
   m ← LambdarankNDCG.UpdatePositionBiasesAndGradients o
         (Sample.charged [0.25; 0]%float [0; 0.25]%float o);
   Ok (LambdarankNDCG.i_biases_pow_ (LambdarankNDCG.mut o),
       LambdarankNDCG.i_biases_pow_ m))
  = Ok ([1; 1], [1; 0])%float.
Proof. vm_compute. reflexivity. Qed.

(** Against C2: an update that finds no cost at rank 0 (here the buffers
    are still those of the initialization) stores [pow(0 / 0, eta)], a NaN,
    as the bias power of rank 0. *)
Lemma C2_counterexample :
  (o ← Sample.seeded;
   m ← LambdarankNDCG.UpdatePositionBiasesAndGradients o (LambdarankNDCG.mut o);
   Ok (LambdarankNDCG.i_biases_pow_ m !! 0%nat,
       LambdarankNDCG.j_biases_pow_ m !! 0%nat))
  = Ok (Some nan, Some nan).
Proof. vm_compute. reflexivity. Qed.

Lemma seeded_object : Sample.seeded = Ok Sample.object.
Proof. reflexivity. Qed.

Lemma Ref_pow_one (y : float) : Ref.pow 1 y = 1%float.
Proof. unfold Ref.pow. destruct (is_zero y); reflexivity. Defined.

Lemma shaped_charged i0 i1 j0 j1 :
  shaped Sample.object (Sample.charged [i0; i1] [j0; j1] Sample.object).
Proof. repeat split; repeat constructor. Defined.

(** C2 at work: costs charged at both ranks, rank 0 included. *)
Lemma C2_witness :
  ∃ m', LambdarankNDCG.UpdatePositionBiasesAndGradients Sample.object
          (Sample.charged [0.25; 0.5]%float [0.5; 0.25]%float Sample.object) = Ok m'
        ∧ LambdarankNDCG.i_costs_ m' = [0; 0]%float
        ∧ LambdarankNDCG.j_costs_ m' = [0; 0]%float
        ∧ LambdarankNDCG.i_costs_buffer_ m' = [[0; 0]%float]
        ∧ LambdarankNDCG.j_costs_buffer_ m' = [[0; 0]%float]
        ∧ LambdarankNDCG.i_biases_pow_ m' !! 0%nat = Some 1%float
        ∧ LambdarankNDCG.j_biases_pow_ m' !! 0%nat = Some 1%float.
Proof.
  destruct (C2_update_resets Sample.object
              (Sample.charged [0.25; 0.5]%float [0.5; 0.25]%float Sample.object)
              (shaped_charged _ _ _ _) ltac:(reflexivity) Ref_pow_one
              ltac:(reflexivity))
    as (m' & E & Hic & Hjc & Hicb & Hjcb & _ & _ & Hi & Hj).
  exists m'. repeat split; try assumption.
  - apply Hi. reflexivity.
  - apply Hj. reflexivity.
Defined.

Lemma new_steep :
  LambdarankNDCG.new Sample.steep = Ok (LambdarankNDCG.members Sample.steep).
Proof. reflexivity. Qed.

(** Against C3: for a steepness of 8 the table spans [-3.125, 3.125] in
    [2^20] bins of width [6.25 / 2^20], about [5.96e-6]. The score [5.9e-6]
    falls in the bin of abscissa 0, whose entry is [1/(1 + exp(0)) = 0.5],
    while [1/(1 + exp(8 * 5.9e-6))] is about [0.5 - 1.18e-5]: the lookup is
    off by about two bin widths. *)
Lemma C3_counterexample :
  let score := 0x1.8bf2587f6a2c3p-18%float in
  ∃ o', (o ← LambdarankNDCG.new Sample.steep;
         LambdarankNDCG.ConstructSigmoidTable o) = Ok o'
        ∧ LambdarankNDCG.GetSigmoid o' score = Ok 0.5%float
        ∧ let width :=
            ((LambdarankNDCG.max_sigmoid_input_ o'
              - LambdarankNDCG.min_sigmoid_input_ o')
             / Ieee.of_Z (LambdarankNDCG._sigmoid_bins o'))%float in
          let direct :=
            (1 / (1 + exp (LambdarankNDCG.sigmoid_ o' * score)))%float in
          (width <? abs (0.5 - direct))%float = true
          ∧ (2 * width <? abs (0.5 - direct) + 0x1p-20)%float = true.
Proof.
  intros score.
  destruct (ConstructSigmoidTable_Ok (LambdarankNDCG.members Sample.steep))
    as (table & E & Ht); [discriminate|].
  exists (with_sigmoid_table (LambdarankNDCG.members Sample.steep) table).
  split; [rewrite new_steep, ret_bind; exact E|].
  split.
  - rewrite (GetSigmoid_inside _ score 524288 Ht);
      try (vm_compute; reflexivity).
    vm_compute. split; [discriminate | reflexivity].
  - vm_compute. split; reflexivity.
Qed.

(** C3 at work, on the table of steepness 1: a score under the table, one
    over it, and one inside it. *)
Lemma C3_witness :
  ∃ o', LambdarankNDCG.ConstructSigmoidTable
          (LambdarankNDCG.members Sample.config) = Ok o'
        ∧ LambdarankNDCG.GetSigmoid o' (-30)
          = rd v_sigmoid_table (LambdarankNDCG.sigmoid_table_ o') 0
        ∧ LambdarankNDCG.GetSigmoid o' 25
          = rd v_sigmoid_table (LambdarankNDCG.sigmoid_table_ o') 1048575
        ∧ LambdarankNDCG.GetSigmoid o' 0.5
          = rd v_sigmoid_table (LambdarankNDCG.sigmoid_table_ o') 534773.
Proof.
  destruct (ConstructSigmoidTable_Ok (LambdarankNDCG.members Sample.config))
    as (table & E & _); [discriminate|].
  exists (with_sigmoid_table (LambdarankNDCG.members Sample.config) table).
  split; [exact E|].
  assert (Hb : 0 < LambdarankNDCG._sigmoid_bins
                     (LambdarankNDCG.members Sample.config))
    by (vm_compute; reflexivity).
  pose proof (C3_sigmoid_lookup _ _ (-30) Hb E) as (Hrd & Hlow & _).
  pose proof (C3_sigmoid_lookup _ _ 25 Hb E) as (_ & _ & Hhigh & _).
  pose proof (C3_sigmoid_lookup _ _ 0.5 Hb E) as (_ & _ & _ & Hin).
  split; [|split].
  - rewrite Hlow by (vm_compute; reflexivity).
    rewrite (Hrd 0) by (vm_compute; split; [discriminate|reflexivity]).
    reflexivity.
  - rewrite Hhigh by (vm_compute; reflexivity).
    rewrite (Hrd 1048575) by (vm_compute; split; [discriminate|reflexivity]).
    reflexivity.
  - rewrite (Hin ltac:(vm_compute; reflexivity) ltac:(vm_compute; reflexivity)
               534773 ltac:(vm_compute; reflexivity))
      by (vm_compute; split; [discriminate|reflexivity]).
    rewrite (Hrd 534773) by (vm_compute; split; [discriminate|reflexivity]).
    reflexivity.
Defined.

(** The slip left out of C3: at steepness 1 the largest score below the
    upper bound 25 is sent to bin [2^20], one past the table. *)
Lemma GetSigmoid_reads_past_the_table :
  ∃ o', LambdarankNDCG.ConstructSigmoidTable
          (LambdarankNDCG.members Sample.config) = Ok o'
        ∧ (0x1.8ffffffffffffp+4 <? LambdarankNDCG.max_sigmoid_input_ o')%float
          = true
        ∧ LambdarankNDCG.GetSigmoid o' 0x1.8ffffffffffffp+4
          = Fault (OutOfBounds v_sigmoid_table 1048576).
Proof.
  destruct (ConstructSigmoidTable_Ok (LambdarankNDCG.members Sample.config))
    as (table & E & Ht); [discriminate|].
  exists (with_sigmoid_table (LambdarankNDCG.members Sample.config) table).
  split; [exact E|]. split; [vm_compute; reflexivity|].
  apply GetSigmoid_past;
    [exact Ht | vm_compute; reflexivity | vm_compute; reflexivity
    | vm_compute; reflexivity | vm_compute; discriminate].
Qed.

Lemma GetSigmoid_ext o :
  table_built o → 0 < LambdarankNDCG._sigmoid_bins o →
  LambdarankNDCG.GetSigmoid o = tabulated o.
Proof.
  intros Ht Hb. apply functional_extensionality. intros score.
  apply GetSigmoid_tabulated; assumption.
Qed.

(** [Init] on a sample, step by step up to [ConstructSigmoidTable], whose
    table is not computed. *)
Ltac run_Init base :=
  let table := fresh "table" in
  let E := fresh "E" in
  let Ht := fresh "Ht" in
  destruct (ConstructSigmoidTable_Ok base) as (table & E & Ht);
    [discriminate|];
  exists table; split;
    [ unfold LambdarankNDCG.Init;
      do 4 (eapply bind_run; [vm_compute; reflexivity | cbv beta]);
      match goal with
      | |- LambdarankNDCG.ConstructSigmoidTable ?R ≫= _ = _ =>
          replace R with base by (vm_compute; reflexivity)
      end;
      rewrite E, ret_bind;
      rewrite InitPositionBiasesAndGradients_Ok by discriminate;
      vm_compute; reflexivity
    | destruct Ht as [Hl Hk]; split; [exact Hl | exact Hk] ].

Lemma trained_Init :
  ∃ table,
    LambdarankNDCG.Init (LambdarankNDCG.members Sample.config)
      Sample.metadata 3 = Ok (Sample.trained table)
    ∧ table_built (Sample.trained table).
Proof.
  run_Init (Sample.loaded Sample.config Sample.metadata 3
              [Sample.inverse_max_dcg]).
Qed.

Lemma plain_trained_Init :
  ∃ table,
    LambdarankNDCG.Init (LambdarankNDCG.members Sample.plain)
      Sample.graded 3 = Ok (Sample.plain_trained table)
    ∧ table_built (Sample.plain_trained table).
Proof.
  run_Init (Sample.loaded Sample.plain Sample.graded 3
              [(1 / CalMaxDCGAtK 3 (label Sample.graded) 3)%float]).
Qed.

Lemma deep_Init :
  ∃ table,
    LambdarankNDCG.Init (LambdarankNDCG.members Sample.deep) Sample.mixed 3
    = Ok (Sample.deep_trained table)
    ∧ table_built (Sample.deep_trained table).
Proof.
  run_Init (Sample.loaded Sample.deep Sample.mixed 3
              [(1 / CalMaxDCGAtK 3 (label Sample.mixed) 3)%float]).
Qed.

Lemma paired_Init :
  ∃ table,
    LambdarankNDCG.Init (LambdarankNDCG.members Sample.config)
      Sample.paired 4 = Ok (Sample.paired_trained table)
    ∧ table_built (Sample.paired_trained table).
Proof.
  run_Init (Sample.loaded Sample.config Sample.paired 4
              [Sample.paired_inverse_max_dcg; Sample.paired_inverse_max_dcg]).
Qed.

Lemma exchanged_Init :
  ∃ table,
    LambdarankNDCG.Init (LambdarankNDCG.members Sample.config)
      Sample.exchanged 4 = Ok (Sample.exchanged_trained table)
    ∧ table_built (Sample.exchanged_trained table).
Proof.
  run_Init (Sample.loaded Sample.config Sample.exchanged 4
              [Sample.paired_inverse_max_dcg; Sample.paired_inverse_max_dcg]).
Qed.


(** A closed computation, by evaluation. *)
Ltac evaluate :=
  lazymatch goal with
  | |- ?X = _ =>
      let v := eval vm_compute in X in
      transitivity v; [vm_compute; reflexivity | reflexivity]
  end.

(** A run of a function that looks the sigmoid up: the lookups are those
    of [tabulated], and the rest is computed. *)
Ltac run Ht :=
  unfold LambdarankNDCG.GetGradients, RankingObjective.GetGradients,
    LambdarankNDCG.GetGradientsForOneQuery, LambdarankNDCG.accumulate,
    LambdarankNDCG.pair, LambdarankNDCG.pair_terms;
  rewrite (GetSigmoid_ext _ Ht eq_refl);
  evaluate.

Lemma trained_accumulate table :
  table_built (Sample.trained table) →
  ∃ a, LambdarankNDCG.accumulate (Sample.trained table) 0 3
         (label Sample.metadata) Sample.score [9; 9; 9]%float [9; 9; 9]%float
         (LambdarankNDCG.mut (Sample.trained table)) = Ok a
       ∧ (0 <? LambdarankNDCG.acc_sum_lambdas a)%float = true
       ∧ Ieee.finite (norm_factor (LambdarankNDCG.acc_sum_lambdas a)) = true.
Proof.
  intros Ht. eexists. split; [run Ht|]. vm_compute. split; reflexivity.
Qed.

Lemma trained_query table :
  table_built (Sample.trained table) →
  ∃ l h m, LambdarankNDCG.GetGradientsForOneQuery (Sample.trained table) 0 3
         (label Sample.metadata) Sample.score [9; 9; 9]%float [9; 9; 9]%float
         (LambdarankNDCG.mut (Sample.trained table)) = Ok (l, h, m).
Proof. intros Ht. do 3 eexists. run Ht. Qed.

Lemma Ref_cast_zero (x : float) :
  is_zero x = true → is_zero (to_score_t x) = true.
Proof. apply IeeeFacts.to_binary32_zero. Qed.

Lemma sentinel_sample : sentinel Sample.score 1.
Proof. exists neg_infinity. split; reflexivity. Defined.

(** C5 at work: the sample query, whose [sum_lambdas] is above zero. *)
Lemma C5_witness :
  ∃ o a,
    LambdarankNDCG.Init (LambdarankNDCG.members Sample.config)
      Sample.metadata 3 = Ok o
    ∧ LambdarankNDCG.accumulate o 0 3 (label Sample.metadata) Sample.score
        [9; 9; 9]%float [9; 9; 9]%float (LambdarankNDCG.mut o) = Ok a
    ∧ ∃ lambdas' hessians',
        LambdarankNDCG.GetGradientsForOneQuery o 0 3 (label Sample.metadata)
          Sample.score [9; 9; 9]%float [9; 9; 9]%float (LambdarankNDCG.mut o)
        = Ok (lambdas', hessians', LambdarankNDCG.acc_costs a)
        ∧ ∀ d, 0 ≤ d < 3 →
            ∃ x y,
              LambdarankNDCG.acc_lambdas a !! Z.to_nat d = Some x
              ∧ LambdarankNDCG.acc_hessians a !! Z.to_nat d = Some y
              ∧ lambdas' !! Z.to_nat d
                = Some (to_score_t
                          (x * norm_factor (LambdarankNDCG.acc_sum_lambdas a)))
              ∧ hessians' !! Z.to_nat d
                = Some (to_score_t
                          (y * norm_factor (LambdarankNDCG.acc_sum_lambdas a))).
Proof.
  destruct trained_Init as (table & E & Ht).
  destruct (trained_accumulate table Ht) as (a & Hacc & Hpos & _).
  exists (Sample.trained table), a. split; [exact E|]. split; [exact Hacc|].
  pose proof (C5_normalization _ _ _ _ _ _ _ _ a Hacc) as Hc.
  cbv zeta in Hc. destruct Hc as (l & h & Hrun & Hresc & _).
  exists l, h. split; [exact Hrun|].
  apply Hresc; [reflexivity | exact Hpos].
Defined.

(** C7 at work: the document in the middle of the sample query carries the
    sentinel, and the factor of the normalization is finite. *)
Lemma C7_witness :
  ∃ o l h m,
    LambdarankNDCG.Init (LambdarankNDCG.members Sample.config)
      Sample.metadata 3 = Ok o
    ∧ LambdarankNDCG.GetGradientsForOneQuery o 0 3 (label Sample.metadata)
        Sample.score [9; 9; 9]%float [9; 9; 9]%float (LambdarankNDCG.mut o)
      = Ok (l, h, m)
    ∧ sentinel Sample.score 1
    ∧ ∃ x y, l !! 1%nat = Some x ∧ h !! 1%nat = Some y
             ∧ is_zero x = true ∧ is_zero y = true.
Proof.
  destruct trained_Init as (table & E & Ht).
  destruct (trained_query table Ht) as (l & h & m & Hrun).
  destruct (trained_accumulate table Ht) as (a0 & Hacc0 & _ & Hfinite).
  exists (Sample.trained table), l, h, m.
  split; [exact E|]. split; [exact Hrun|]. split; [exact sentinel_sample|].
  destruct (C7_sentinel _ _ _ _ _ _ _ _ l h m 1
              Ref_cast_zero Hrun ltac:(lia) sentinel_sample)
    as (a & Hacc & _ & _ & Hxy).
  cbv zeta in Hxy. destruct Hxy as (x & y & Hx & Hy & Hzero & _).
  exists x, y. split; [exact Hx|]. split; [exact Hy|].
  apply Hzero. right.
  assert (Ha : a = a0) by congruence. rewrite Ha. exact Hfinite.
Defined.

(** Against C7, in two iterations from [Init], at truncation level 3. In
    the first one the documents, of labels 1, 0 and 2, are ranked in this
    order: rank 1 is the more relevant side of no pair, its cost stays 0
    and the update makes 0 of [i_biases_pow_[1]]. In the second one the
    document of label 2 carries the sentinel and the document of label 1
    has rank 1: the lambda of the one pair is divided by that 0, it is an
    infinity and [sum_lambdas] too, the factor of the normalization
    [log2(inf) / inf] is a NaN, and the document that carries the sentinel
    gets [0 * NaN]. *)
Lemma C7_counterexample :
  ∃ o g h m g2 h2 m2,
    LambdarankNDCG.Init (LambdarankNDCG.members Sample.deep) Sample.mixed 3
    = Ok o
    ∧ LambdarankNDCG.GetGradients o [3; 2; 1]%float
        [0; 0; 0]%float [0; 0; 0]%float = Ok (g, h, m)
    ∧ LambdarankNDCG.i_biases_pow_ m !! 1%nat = Some 0%float
    ∧ LambdarankNDCG.GetGradients (LambdarankNDCG.with_mut o m)
        [1; 2; neg_infinity]%float g h = Ok (g2, h2, m2)
    ∧ sentinel [1; 2; neg_infinity]%float 2
    ∧ g2 !! 2%nat = Some nan ∧ h2 !! 2%nat = Some nan.
Proof.
  destruct deep_Init as (table & E & Ht).
  exists (Sample.deep_trained table). do 6 eexists.
  split; [exact E|]. split; [run Ht|]. split; [reflexivity|].
  split.
  { match goal with
    | |- LambdarankNDCG.GetGradients ?o _ _ _ = _ =>
        assert (Ht2 : table_built o) by exact Ht
    end.
    run Ht2. }
  split; [exists neg_infinity; split; reflexivity|].
  split; reflexivity.
Qed.

(** C4 at work: the two scored documents of the sample query, after
    [Init]. *)
Lemma C4_witness :
  ∃ o p lambda hessian,
    LambdarankNDCG.Init (LambdarankNDCG.members Sample.config)
      Sample.metadata 3 = Ok o
    ∧ LambdarankNDCG.pair_terms o Sample.inverse_max_dcg 0.5 0.5
        (label Sample.metadata) Sample.score [0; 2; 1] 0 1 = Ok (Some p)
    ∧ LambdarankNDCG.debiased o (LambdarankNDCG.mut o) p = Ok (lambda, hessian)
    ∧ ∃ p', LambdarankNDCG.pair_terms o Sample.inverse_max_dcg 0.5 0.5
              (swapped 0 2 (label Sample.metadata))
              (swapped 0 2 Sample.score) [0; 2; 1] 0 1 = Ok (Some p')
            ∧ LambdarankNDCG.high_rank p' = LambdarankNDCG.low_rank p
            ∧ LambdarankNDCG.debiased o (LambdarankNDCG.mut o) p'
              = Ok (lambda, hessian).
Proof.
  destruct trained_Init as (table & E & Ht).
  assert (Hp : ∃ p lambda hessian,
             LambdarankNDCG.pair_terms (Sample.trained table)
               Sample.inverse_max_dcg 0.5 0.5
               (label Sample.metadata) Sample.score [0; 2; 1] 0 1
             = Ok (Some p)
             ∧ LambdarankNDCG.debiased (Sample.trained table)
                 (LambdarankNDCG.mut (Sample.trained table)) p
               = Ok (lambda, hessian)).
  { do 3 eexists. split; [run Ht | evaluate]. }
  destruct Hp as (p & lambda & hessian & Hp & Hd).
  exists (Sample.trained table), p, lambda, hessian.
  split; [exact E|]. split; [exact Hp|]. split; [exact Hd|].
  destruct (C4_tie_symmetry (Sample.trained table)
              (LambdarankNDCG.mut (Sample.trained table))
              Sample.inverse_max_dcg 0.5 0.5 (label Sample.metadata)
              Sample.score [0; 2; 1] 0 1 0 2 0.5 p lambda hessian
              eq_refl eq_refl eq_refl eq_refl eq_refl eq_refl Hp Hd)
    as (_ & p' & Hp' & Hhigh & _ & _ & _ & Hd').
  exists p'. split; [exact Hp'|]. split; [exact Hhigh | exact Hd'].
Defined.

(** Against C4, from [Init]. The first iteration ranks the more relevant
    document first in one query and last in the other: each rank collects
    a cost in each role, the costs differ, and the update leaves
    [i_biases_pow_[1]] above 1 and [j_biases_pow_[1]] below 1 (with the two
    documents of the first query exchanged from the start, the same). In
    the second iteration the two documents of the first query have the same
    score. As they stand the more relevant one has rank 0 and the lambda and
    the hessian of the pair are divided by [j_biases_pow_[1]]; with their
    positions exchanged it has rank 1 and they are divided by
    [i_biases_pow_[1]]: the pair contributes less. *)
Lemma C4_counterexample :
  ∃ o o' g h g' h' m ib jb p p' lambda hessian lambda' hessian',
    LambdarankNDCG.Init (LambdarankNDCG.members Sample.config)
      Sample.paired 4 = Ok o
    ∧ LambdarankNDCG.GetGradients o [1; 0; 0; 1]%float
        [0; 0; 0; 0]%float [0; 0; 0; 0]%float = Ok (g, h, m)
    ∧ LambdarankNDCG.Init (LambdarankNDCG.members Sample.config)
        Sample.exchanged 4 = Ok o'
    ∧ LambdarankNDCG.GetGradients o' [0; 1; 0; 1]%float
        [0; 0; 0; 0]%float [0; 0; 0; 0]%float = Ok (g', h', m)
    ∧ LambdarankNDCG.i_biases_pow_ m = [1%float; ib]
    ∧ LambdarankNDCG.j_biases_pow_ m = [1%float; jb]
    ∧ (1 <? ib)%float = true ∧ (jb <? 1)%float = true
    ∧ LambdarankNDCG.pair_terms o Sample.paired_inverse_max_dcg 0.5 0.5
        (label Sample.paired) [0.5; 0.5; 0; 1]%float [0; 1] 0 1 = Ok (Some p)
    ∧ LambdarankNDCG.pair_terms o Sample.paired_inverse_max_dcg 0.5 0.5
        (swapped 0 1 (label Sample.paired))
        (swapped 0 1 [0.5; 0.5; 0; 1]%float) [0; 1] 0 1 = Ok (Some p')
    ∧ swapped 0 1 (label Sample.paired) = label Sample.exchanged
    ∧ LambdarankNDCG.debiased o m p = Ok (lambda, hessian)
    ∧ LambdarankNDCG.debiased o m p' = Ok (lambda', hessian')
    ∧ (abs lambda' <? abs lambda)%float = true
    ∧ (hessian' <? hessian)%float = true.
Proof.
  destruct paired_Init as (table & E & Ht).
  destruct exchanged_Init as (table' & E' & Ht').
  exists (Sample.paired_trained table), (Sample.exchanged_trained table').
  do 13 eexists.
  split; [exact E|]. split; [run Ht|].
  split; [exact E'|]. split; [run Ht'|].
  split; [reflexivity|]. split; [reflexivity|].
  split; [reflexivity|]. split; [reflexivity|].
  split; [run Ht|]. split; [run Ht|]. split; [reflexivity|].
  split; [evaluate|]. split; [evaluate|].
  vm_compute. split; reflexivity.
Qed.

(** C8. LambdaRank of steepness 1 and truncation level 3, without
    normalization, without the position-bias correction and without weights,
    on one query of three documents of labels 2, 1, 0 and of the same score
    0.5, whatever the output arrays held. Each of the three pairs of
    documents has a lambda [x < 0] and a hessian [y > 0]; the function adds
    [x] to the lambda of the more relevant document of the pair, subtracts
    it from the lambda of the other one, and adds [y] to the hessians of
    both, in [score_t], the pairs taken in the order (0, 1), (0, 2), (1, 2).
    The lambdas that [GetGradients] stores are these sums, about -0.308,
    0.0836 and 0.2246; they add up to zero without rounding, and the three
    hessians are above zero. The gain of a label, the discount of a rank,
    [score_t] and the math library are those of [Ref]. *)
Theorem C8_tied_scores (l0 l1 l2 h0 h1 h2 : float) :
  ∃ o lambdas hessians m,
    (o ← LambdarankNDCG.new Sample.plain;
     LambdarankNDCG.Init o Sample.graded 3) = Ok o
    ∧ LambdarankNDCG.GetGradients o [0.5; 0.5; 0.5]%float
        [l0; l1; l2] [h0; h1; h2] = Ok (lambdas, hessians, m)
    ∧ length lambdas = 3%nat
    ∧ exact_sum lambdas = Some 0
    ∧ Forall (fun h => (0 <=? h)%float = true) hessians
    ∧ lambdas = [(-0x1.3b9a0ep-2)%float; 0x1.567e2cp-4%float;
                 0x1.cbf506p-3%float]
    ∧ hessians = [0x1.3b9a0ep-3%float; 0x1.ea316p-5%float;
                  0x1.cbf506p-4%float]
    ∧ ∃ d p01 p02 p12 x01 y01 x02 y02 x12 y12,
        rd v_inverse_max_dcgs (LambdarankNDCG.inverse_max_dcgs_ o) 0 = Ok d
        (* the three pairs, by rank; the ranks are the documents *)
        ∧ LambdarankNDCG.pair_terms o d 0.5 0.5 (label Sample.graded)
            [0.5; 0.5; 0.5]%float [0; 1; 2] 0 1 = Ok (Some p01)
        ∧ LambdarankNDCG.pair_terms o d 0.5 0.5 (label Sample.graded)
            [0.5; 0.5; 0.5]%float [0; 1; 2] 0 2 = Ok (Some p02)
        ∧ LambdarankNDCG.pair_terms o d 0.5 0.5 (label Sample.graded)
            [0.5; 0.5; 0.5]%float [0; 1; 2] 1 2 = Ok (Some p12)
        ∧ (LambdarankNDCG.high p01, LambdarankNDCG.low p01) = (0, 1)
        ∧ (LambdarankNDCG.high p02, LambdarankNDCG.low p02) = (0, 2)
        ∧ (LambdarankNDCG.high p12, LambdarankNDCG.low p12) = (1, 2)
        (* what each of them contributes *)
        ∧ LambdarankNDCG.debiased o (LambdarankNDCG.mut o) p01
          = Ok (x01, y01)
        ∧ LambdarankNDCG.debiased o (LambdarankNDCG.mut o) p02
          = Ok (x02, y02)
        ∧ LambdarankNDCG.debiased o (LambdarankNDCG.mut o) p12
          = Ok (x12, y12)
        ∧ Forall (fun x => (x <? 0)%float = true) [x01; x02; x12]
        ∧ Forall (fun y => (0 <? y)%float = true) [y01; y02; y12]
        (* [x] to the more relevant side, [-x] to the other one *)
        ∧ lambdas
          = [to_score_t (to_score_t (0 + to_score_t x01) + to_score_t x02);
             to_score_t (to_score_t (0 - to_score_t x01) + to_score_t x12);
             to_score_t (to_score_t (0 - to_score_t x02) - to_score_t x12)]
        (* [y] to both *)
        ∧ hessians
          = [to_score_t (to_score_t (0 + to_score_t y01) + to_score_t y02);
             to_score_t (to_score_t (0 + to_score_t y01) + to_score_t y12);
             to_score_t (to_score_t (0 + to_score_t y02) + to_score_t y12)].
Proof.
  destruct plain_trained_Init as (table & E & Ht).
  exists (Sample.plain_trained table). do 3 eexists.
  split; [exact E|]. split; [run Ht|].
  split; [reflexivity|]. split; [vm_compute; reflexivity|].
  split; [repeat constructor|].
  split; [reflexivity|]. split; [reflexivity|].
  do 10 eexists.
  split; [evaluate|].
  split; [run Ht|]. split; [run Ht|]. split; [run Ht|].
  split; [reflexivity|]. split; [reflexivity|]. split; [reflexivity|].
  split; [evaluate|]. split; [evaluate|]. split; [evaluate|].
  split; [repeat constructor|]. split; [repeat constructor|].
  split; vm_compute; reflexivity.
Qed.


(** *** Whole calls *)

(** A property of the entries of a sample array, entry by entry. *)
Ltac entries k Hk :=
  let E := fresh "E" in
  assert (E : k = 0 ∨ k = 1 ∨ k = 2) by lia;
  destruct E as [-> | [-> | ->] ].

Lemma plain_GetGradients table :
  table_built (Sample.plain_trained table) →
  ∃ g h m, LambdarankNDCG.GetGradients (Sample.plain_trained table)
             [0.5; 0.5; 0.5]%float Sample.output Sample.output
           = Ok (g, h, m).
Proof. intros Ht. do 3 eexists. run Ht. Qed.

Lemma trained_GetGradients table :
  table_built (Sample.trained table) →
  ∃ g h m, LambdarankNDCG.GetGradients (Sample.trained table)
             Sample.score Sample.output Sample.output = Ok (g, h, m).
Proof. intros Ht. do 3 eexists. run Ht. Qed.

Lemma trained_long_query table :
  table_built (Sample.trained table) →
  ∃ l h m, LambdarankNDCG.GetGradientsForOneQuery (Sample.trained table) 0 3
             (label Sample.metadata) Sample.score Sample.output Sample.output
             (LambdarankNDCG.mut (Sample.trained table)) = Ok (l, h, m).
Proof. intros Ht. do 3 eexists. run Ht. Qed.

Lemma shaped_trained table :
  shaped (Sample.trained table) (LambdarankNDCG.mut (Sample.trained table)).
Proof. repeat split; repeat constructor. Defined.

Lemma GetGradients_keeps_biases_witness :
  ∃ o g h m,
    LambdarankNDCG.Init (LambdarankNDCG.members Sample.plain) Sample.graded 3
    = Ok o
    ∧ LambdarankNDCG.unbiased_ o = false
    ∧ LambdarankNDCG.GetGradients o [0.5; 0.5; 0.5]%float
        Sample.output Sample.output = Ok (g, h, m)
    ∧ m = LambdarankNDCG.mut o.
Proof.
  destruct plain_trained_Init as (table & E & Ht).
  destruct (plain_GetGradients table Ht) as (g & h & m & Hrun).
  exists (Sample.plain_trained table), g, h, m.
  split; [exact E|]. split; [reflexivity|]. split; [exact Hrun|].
  exact (GetGradients_keeps_biases (Sample.plain_trained table)
           _ _ _ _ _ _ eq_refl Hrun).
Defined.

Lemma GetGradients_keeps_shape_witness :
  ∃ o g h m,
    LambdarankNDCG.Init (LambdarankNDCG.members Sample.config)
      Sample.metadata 3 = Ok o
    ∧ shaped o (LambdarankNDCG.mut o)
    ∧ LambdarankNDCG.GetGradients o Sample.score Sample.output Sample.output
      = Ok (g, h, m)
    ∧ shaped o m.
Proof.
  destruct trained_Init as (table & E & Ht).
  destruct (trained_GetGradients table Ht) as (g & h & m & Hrun).
  exists (Sample.trained table), g, h, m.
  split; [exact E|]. split; [exact (shaped_trained table)|].
  split; [exact Hrun|].
  exact (GetGradients_keeps_shape _ _ _ _ _ _ _ (shaped_trained table) Hrun).
Defined.







Lemma equal_labels_zero_witness :
  ∃ o,
    LambdarankNDCG.Init (LambdarankNDCG.members Sample.config)
      Sample.metadata 3 = Ok o
    ∧ LambdarankNDCG.GetGradientsForOneQuery o 0 3 [1; 1; 1]%float
        Sample.score Sample.output Sample.output (LambdarankNDCG.mut o)
      = Ok ([0; 0; 0; 7]%float, [0; 0; 0; 7]%float, LambdarankNDCG.mut o).
Proof.
  destruct trained_Init as (table & E & Ht).
  exists (Sample.trained table). split; [exact E|].
  apply (equal_labels_zero (Sample.trained table) 0 3 [1; 1; 1]%float
           Sample.score Sample.output Sample.output _ 1%float
           Sample.inverse_max_dcg).
  - repeat split; simpl; lia.
  - reflexivity.
  - intros k Hk. entries k Hk; reflexivity.
  - reflexivity.
Defined.

Lemma query_writes_its_slice_witness :
  ∃ o l h m,
    LambdarankNDCG.Init (LambdarankNDCG.members Sample.config)
      Sample.metadata 3 = Ok o
    ∧ LambdarankNDCG.GetGradientsForOneQuery o 0 3 (label Sample.metadata)
        Sample.score Sample.output Sample.output (LambdarankNDCG.mut o)
      = Ok (l, h, m)
    ∧ length l = 4%nat ∧ length h = 4%nat
    ∧ l !! 3%nat = Some 7%float ∧ h !! 3%nat = Some 7%float.
Proof.
  destruct trained_Init as (table & E & Ht).
  destruct (trained_long_query table Ht) as (l & h & m & Hrun).
  exists (Sample.trained table), l, h, m.
  split; [exact E|]. split; [exact Hrun|].
  destruct (query_writes_its_slice _ _ _ _ _ _ _ _ _ _ _ Hrun)
    as (Hl & Hh & Hfl & Hfh).
  split; [exact Hl|]. split; [exact Hh|].
  split; [exact (Hfl 3%nat ltac:(lia)) | exact (Hfh 3%nat ltac:(lia))].
Defined.

Lemma GetSigmoid_nan_witness :
  ∃ x, LambdarankNDCG.GetSigmoid Sample.object nan = Fault (BadCast x)
       ∧ Prim2SF x = S754_nan.
Proof. exact (GetSigmoid_nan Sample.object nan eq_refl). Defined.

Lemma Ref_threads : 0 ≤ omp_get_num_threads.
Proof. discriminate. Defined.

Lemma Init_establishes_witness :
  ∃ o,
    LambdarankNDCG.new Sample.config
    = Ok (LambdarankNDCG.members Sample.config)
    ∧ LambdarankNDCG.Init (LambdarankNDCG.members Sample.config)
        Sample.metadata 3 = Ok o
    ∧ table_built o ∧ shaped o (LambdarankNDCG.mut o).
Proof.
  destruct trained_Init as (table & E & Ht).
  exists (Sample.trained table). split; [reflexivity|]. split; [exact E|].
  exact (Init_establishes Sample.config Sample.metadata 3 _ _ eq_refl
           Ref_threads E).
Defined.

(** The listwise sample. *)
Lemma listwise_Init :
  RankXENDCG.Init (RankXENDCG.new Sample.config) Sample.metadata 3
  = Ok Sample.listwise.
Proof. reflexivity. Qed.

Lemma listwise_query :
  ∃ l h r, RankXENDCG.GetGradientsForOneQuery Sample.listwise 0 3
             (label Sample.metadata) Sample.scores
             Sample.output Sample.output
             (RankXENDCG.rands_ Sample.listwise) = Ok (l, h, r).
Proof. do 3 eexists. evaluate. Qed.

Lemma listwise_writes_its_slice_witness :
  ∃ l h r,
    RankXENDCG.GetGradientsForOneQuery Sample.listwise 0 3
      (label Sample.metadata) Sample.scores Sample.output Sample.output
      (RankXENDCG.rands_ Sample.listwise) = Ok (l, h, r)
    ∧ within 3 Sample.output l ∧ within 3 Sample.output h
    ∧ length r = 1%nat.
Proof.
  destruct listwise_query as (l & h & r & Hrun).
  exists l, h, r. split; [exact Hrun|].
  exact (listwise_writes_its_slice _ _ _ _ _ _ _ _ _ _ _ Hrun).
Defined.

Lemma listwise_hessians_witness :
  ∃ l h r,
    RankXENDCG.GetGradientsForOneQuery Sample.listwise 0 3
      (label Sample.metadata) Sample.scores Sample.output Sample.output
      (RankXENDCG.rands_ Sample.listwise) = Ok (l, h, r)
    ∧ ∀ i, 0 ≤ i < 3 →
        ∃ rho, Softmax Sample.scores 3 !! Z.to_nat i = Some rho
               ∧ h !! Z.to_nat i = Some (to_score_t (rho * (1 - rho))).
Proof.
  destruct listwise_query as (l & h & r & Hrun).
  exists l, h, r. split; [exact Hrun|].
  exact (listwise_hessians _ _ 3 _ _ _ _ _ _ _ _ ltac:(lia) Hrun).
Defined.

Lemma listwise_draws_witness :
  ∃ l h r,
    RankXENDCG.GetGradientsForOneQuery Sample.listwise 0 3
      (label Sample.metadata) Sample.scores Sample.output Sample.output
      (RankXENDCG.rands_ Sample.listwise) = Ok (l, h, r)
    ∧ r = [drawn 3 (Random_seed 0)].
Proof.
  destruct listwise_query as (l & h & r & Hrun).
  exists l, h, r. split; [exact Hrun|].
  destruct (listwise_draws _ _ _ _ _ _ _ _ _ _ _ Hrun) as [_ Hdraws].
  destruct (Hdraws ltac:(lia)) as (r0 & _ & Hr0 & ->).
  injection Hr0 as <-. reflexivity.
Defined.

Lemma int_labels_sample : int_labels 3 (label Sample.metadata).
Proof.
  intros i l Hi Hl.
  entries i Hi; injection Hl as <-; eexists;
    (split; [vm_compute; reflexivity | split; [discriminate | reflexivity] ]).
Defined.

Lemma listwise_returns_witness :
  int_labels 3 (label Sample.metadata)
  ∧ (∃ l h r,
       RankXENDCG.GetGradientsForOneQuery Sample.listwise 0 3
         (label Sample.metadata) Sample.scores Sample.output Sample.output
         (RankXENDCG.rands_ Sample.listwise) = Ok (l, h, r))
  ∧ convertible 3 (label Sample.metadata).
Proof.
  assert (Hboth :
    (int_labels 3 (label Sample.metadata) →
     ∃ l h r,
       RankXENDCG.GetGradientsForOneQuery Sample.listwise 0 3
         (label Sample.metadata) Sample.scores Sample.output Sample.output
         (RankXENDCG.rands_ Sample.listwise) = Ok (l, h, r))
    ∧ ((∃ l h r,
          RankXENDCG.GetGradientsForOneQuery Sample.listwise 0 3
            (label Sample.metadata) Sample.scores Sample.output Sample.output
            (RankXENDCG.rands_ Sample.listwise) = Ok (l, h, r)) →
       convertible 3 (label Sample.metadata))).
  { apply (listwise_returns Sample.listwise 0 3 (label Sample.metadata)
             Sample.scores Sample.output Sample.output
             (RankXENDCG.rands_ Sample.listwise));
      vm_compute; repeat split; try discriminate; reflexivity. }
  destruct Hboth as [Hruns Hconv].
  split; [exact int_labels_sample|].
  split; [exact (Hruns int_labels_sample)|].
  exact (Hconv (Hruns int_labels_sample)).
Defined.

Lemma Ref_softmax_length (s : list float) (n : Z) :
  0 ≤ n ≤ Z.of_nat (length s) → n ≤ Z.of_nat (length (Softmax s n)).
Proof.
  intros Hn. simpl. unfold Ref.softmax.
  rewrite !length_fmap, length_take. lia.
Defined.

Lemma well_formed_sample :
  well_formed (RankXENDCG.ranking Sample.listwise)
    Sample.scores Sample.output Sample.output.
Proof.
  exists [0; 3]. split; [reflexivity|]. split; [simpl; lia|].
  split.
  - intros q Hq. simpl in Hq. assert (q = 0) as -> by lia.
    exists 0, 3. repeat split; simpl; lia.
  - repeat split; simpl; lia.
Defined.

Lemma listwise_GetGradients_returns_witness :
  ∃ g h r,
    RankXENDCG.GetGradients Sample.listwise Sample.scores
      Sample.output Sample.output = Ok (g, h, r)
    ∧ length g = 4%nat ∧ length h = 4%nat ∧ length r = 1%nat.
Proof.
  exact (listwise_GetGradients_returns Sample.listwise Sample.scores
           Sample.output Sample.output Ref_softmax_length
           well_formed_sample ltac:(simpl; lia) int_labels_sample).
Defined.

Lemma well_formed_trained table :
  well_formed (LambdarankNDCG.ranking (Sample.trained table))
    Sample.score Sample.output Sample.output.
Proof.
  exists [0; 3]. split; [reflexivity|]. split; [simpl; lia|].
  split.
  - intros q Hq. simpl in Hq. assert (q = 0) as -> by lia.
    exists 0, 3. repeat split; simpl; lia.
  - repeat split; simpl; lia.
Defined.

Lemma populated_trained table :
  populated (LambdarankNDCG.ranking (Sample.trained table)).
Proof.
  intros qb q a b Hqb Hq Ha Hb. simpl in Hqb, Hq. injection Hqb as <-.
  assert (q = 0) as -> by lia.
  injection Ha as <-. injection Hb as <-. lia.
Defined.

Lemma pairwise_GetGradients_bounds_witness :
  ∃ o,
    LambdarankNDCG.Init (LambdarankNDCG.members Sample.config)
      Sample.metadata 3 = Ok o
    ∧ LambdarankNDCG.GetGradients o Sample.score Sample.output Sample.output
      ≠ Fault (OutOfBounds v_score 3)
    ∧ LambdarankNDCG.GetGradients o Sample.score Sample.output Sample.output
      ≠ Fault (NullPointer v_score).
Proof.
  destruct trained_Init as (table & E & Ht).
  exists (Sample.trained table). split; [exact E|].
  exact (pairwise_GetGradients_bounds (Sample.trained table)
           Sample.score Sample.output Sample.output v_score 3
           (well_formed_trained table) (populated_trained table) eq_refl).
Defined.

(** The fourth entry of the sample arrays belongs to no query. *)
Lemma fourth_outside (r : RankingObjective.t) :
  RankingObjective.query_boundaries_ r = Some [0; 3] →
  RankingObjective.num_queries_ r = 1 →
  ¬ in_query r 3%nat.
Proof.
  intros Hqb Hn (qb & q & a & b & Hqb' & Hq & Ha & Hb & Hd).
  rewrite Hqb in Hqb'. injection Hqb' as <-. rewrite Hn in Hq.
  assert (q = 0) as -> by lia.
  injection Ha as <-. injection Hb as <-. lia.
Qed.

Lemma pairwise_GetGradients_writes_slices_witness :
  ∃ o g h m,
    LambdarankNDCG.Init (LambdarankNDCG.members Sample.config)
      Sample.metadata 3 = Ok o
    ∧ LambdarankNDCG.GetGradients o Sample.score Sample.output Sample.output
      = Ok (g, h, m)
    ∧ length g = 4%nat ∧ length h = 4%nat
    ∧ g !! 3%nat = Some 7%float ∧ h !! 3%nat = Some 7%float.
Proof.
  destruct trained_Init as (table & E & Ht).
  destruct (trained_GetGradients table Ht) as (g & h & m & Hrun).
  exists (Sample.trained table), g, h, m.
  split; [exact E|]. split; [exact Hrun|].
  destruct (pairwise_GetGradients_writes_slices _ _ _ _ _ _ _
              (well_formed_trained table) Hrun) as [[Hlg Hg] [Hlh Hh]].
  split; [exact Hlg|]. split; [exact Hlh|].
  split; [exact (Hg 3%nat (fourth_outside
                             (LambdarankNDCG.ranking (Sample.trained table))
                             eq_refl eq_refl))
         | exact (Hh 3%nat (fourth_outside
                             (LambdarankNDCG.ranking (Sample.trained table))
                             eq_refl eq_refl))].
Defined.

Lemma listwise_GetGradients_run :
  ∃ g h r, RankXENDCG.GetGradients Sample.listwise Sample.scores
             Sample.output Sample.output = Ok (g, h, r).
Proof. do 3 eexists. evaluate. Qed.

Lemma listwise_GetGradients_writes_slices_witness :
  ∃ g h r,
    RankXENDCG.GetGradients Sample.listwise Sample.scores
      Sample.output Sample.output = Ok (g, h, r)
    ∧ length g = 4%nat ∧ length h = 4%nat
    ∧ g !! 3%nat = Some 7%float ∧ h !! 3%nat = Some 7%float.
Proof.
  destruct listwise_GetGradients_run as (g & h & r & Hrun).
  exists g, h, r. split; [exact Hrun|].
  destruct (listwise_GetGradients_writes_slices _ _ _ _ _ _ _
              well_formed_sample Hrun) as [[Hlg Hg] [Hlh Hh]].
  split; [exact Hlg|]. split; [exact Hlh|].
  split; [exact (Hg 3%nat (fourth_outside
                             (RankXENDCG.ranking Sample.listwise)
                             eq_refl eq_refl))
         | exact (Hh 3%nat (fourth_outside
                             (RankXENDCG.ranking Sample.listwise)
                             eq_refl eq_refl))].
Defined.

Lemma Init_inverse_max_dcgs_witness :
  ∃ o,
    LambdarankNDCG.Init (LambdarankNDCG.members Sample.config)
      Sample.metadata 3 = Ok o
    ∧ ∃ qb,
        query_boundaries Sample.metadata = Some qb
        ∧ Z.of_nat (length (LambdarankNDCG.inverse_max_dcgs_ o))
          = Z.max 0 (num_queries Sample.metadata)
        ∧ ∀ q, 0 ≤ q < num_queries Sample.metadata →
            ∃ a b, qb !! Z.to_nat q = Some a ∧ qb !! Z.to_nat (q + 1) = Some b
                   ∧ LambdarankNDCG.inverse_max_dcgs_ o !! Z.to_nat q
                     = Some (let d := CalMaxDCGAtK
                                        (LambdarankNDCG.truncation_level_
                                           (LambdarankNDCG.members
                                              Sample.config))
                                        (from a (label Sample.metadata))
                                        (b - a) in
                             if (0 <? d)%float then (1 / d)%float else d).
Proof.
  destruct trained_Init as (table & E & Ht).
  exists (Sample.trained table). split; [exact E|].
  exact (Init_inverse_max_dcgs _ _ _ _ E).
Defined.

Lemma three_entries (a b c : float) : 3 ≤ Z.of_nat (length [a; b; c]).
Proof. simpl. lia. Qed.

Lemma query_overwrites_witness :
  ∃ o l h m l' h',
    LambdarankNDCG.Init (LambdarankNDCG.members Sample.config)
      Sample.metadata 3 = Ok o
    ∧ LambdarankNDCG.GetGradientsForOneQuery o 0 3 (label Sample.metadata)
        Sample.score Sample.output Sample.output (LambdarankNDCG.mut o)
      = Ok (l, h, m)
    ∧ LambdarankNDCG.GetGradientsForOneQuery o 0 3 (label Sample.metadata)
        Sample.score [1; 2; 3]%float [4; 5; 6]%float (LambdarankNDCG.mut o)
      = Ok (l', h', m)
    ∧ agree 3 l l' ∧ agree 3 h h'.
Proof.
  destruct trained_Init as (table & E & Ht).
  destruct (trained_long_query table Ht) as (l & h & m & Hrun).
  destruct (query_overwrites (Sample.trained table) 0 3
              (label Sample.metadata) Sample.score
              Sample.output Sample.output [1; 2; 3]%float [4; 5; 6]%float
              (LambdarankNDCG.mut (Sample.trained table)) l h m
              (three_entries _ _ _) (three_entries _ _ _) Hrun)
    as (l' & h' & Hrun' & Hl & Hh).
  exists (Sample.trained table), l, h, m, l', h'. auto.
Defined.

Lemma listwise_overwrites_witness :
  ∃ l h r l' h',
    RankXENDCG.GetGradientsForOneQuery Sample.listwise 0 3
      (label Sample.metadata) Sample.scores Sample.output Sample.output
      (RankXENDCG.rands_ Sample.listwise) = Ok (l, h, r)
    ∧ RankXENDCG.GetGradientsForOneQuery Sample.listwise 0 3
        (label Sample.metadata) Sample.scores [1; 2; 3]%float [4; 5; 6]%float
        (RankXENDCG.rands_ Sample.listwise) = Ok (l', h', r)
    ∧ agree 3 l l' ∧ agree 3 h h'.
Proof.
  destruct listwise_query as (l & h & r & Hrun).
  destruct (listwise_overwrites Sample.listwise 0 3
              (label Sample.metadata) Sample.scores
              Sample.output Sample.output [1; 2; 3]%float [4; 5; 6]%float
              (RankXENDCG.rands_ Sample.listwise) l h r
              (three_entries _ _ _) (three_entries _ _ _) Hrun)
    as (l' & h' & Hrun' & Hl & Hh).
  exists l, h, r, l', h'. auto.
Defined.

Lemma pairwise_weights_scale_witness :
  ∃ o g h m g' h',
    LambdarankNDCG.Init (LambdarankNDCG.members Sample.config)
      Sample.metadata 3 = Ok o
    ∧ LambdarankNDCG.GetGradients o Sample.score Sample.output Sample.output
      = Ok (g, h, m)
    ∧ LambdarankNDCG.GetGradients (pairwise_reweighted o [2; 2; 2]%float)
        Sample.score Sample.output Sample.output = Ok (g', h', m)
    ∧ weighted (LambdarankNDCG.ranking o) [2; 2; 2]%float g g'
    ∧ weighted (LambdarankNDCG.ranking o) [2; 2; 2]%float h h'.
Proof.
  destruct trained_Init as (table & E & Ht).
  destruct (trained_GetGradients table Ht) as (g & h & m & Hrun).
  destruct (pairwise_weights_scale (Sample.trained table) [2; 2; 2]%float
              Sample.score Sample.output Sample.output g h m eq_refl
              (well_formed_trained table) (three_entries _ _ _) Hrun)
    as (g' & h' & Hrun' & Hg & Hh).
  exists (Sample.trained table), g, h, m, g', h'. auto.
Defined.

Lemma listwise_weights_scale_witness :
  ∃ g h r g' h',
    RankXENDCG.GetGradients Sample.listwise Sample.scores
      Sample.output Sample.output = Ok (g, h, r)
    ∧ RankXENDCG.GetGradients
        (listwise_reweighted Sample.listwise [2; 2; 2]%float)
        Sample.scores Sample.output Sample.output = Ok (g', h', r)
    ∧ weighted (RankXENDCG.ranking Sample.listwise) [2; 2; 2]%float g g'
    ∧ weighted (RankXENDCG.ranking Sample.listwise) [2; 2; 2]%float h h'.
Proof.
  destruct listwise_GetGradients_run as (g & h & r & Hrun).
  destruct (listwise_weights_scale Sample.listwise [2; 2; 2]%float
              Sample.scores Sample.output Sample.output g h r eq_refl
              well_formed_sample (three_entries _ _ _) Hrun)
    as (g' & h' & Hrun' & Hg & Hh).
  exists g, h, r, g', h'. auto.
Defined.

End SampleRuns.
